(** * USB audio device (devices/dev-audio.c): ring buffer, alt-setting
      transitions and class-specific volume/mute control requests.

    The C code is embedded function by function.  Fixed-width unsigned
    integers are [Z] values with the wrap-around written out ([u8], [u16],
    [u32], [u64]); signed [int] division is [Z.quot].  Calls that do not
    return normally (a failed [assert], an access outside a storage area, a
    remainder by zero) yield a [Fault]. *)

From Stdlib Require Import ZArith List Bool Lia.
Import ListNotations.
Local Open Scope Z_scope.

(** ** Machine integers *)

Definition u8  (x : Z) : Z := x mod 2 ^ 8.
Definition u16 (x : Z) : Z := x mod 2 ^ 16.
Definition u32 (x : Z) : Z := x mod 2 ^ 32.
Definition u64 (x : Z) : Z := x mod 2 ^ 64.

(** ** Calls that may not return *)

Inductive fault : Type :=
| AssertionFailed
| OutOfBounds
| DivisionByZero.

Inductive result (A : Type) : Type :=
| Done (a : A)
| Fault (f : fault).

Arguments Done {A} a.
Arguments Fault {A} f.

Definition bind {A B : Type} (r : result A) (k : A -> result B) : result B :=
  match r with
  | Done a => k a
  | Fault f => Fault f
  end.

Notation "x <- r ;; k" := (bind r (fun x => k))
  (at level 61, r at next level, right associativity).
Notation "' pat <- r ;; k" := (bind r (fun x => match x with pat => k end))
  (at level 61, pat pattern, r at next level, right associativity).

(** ** Byte storage *)

Definition len (l : list Z) : Z := Z.of_nat (length l).

(** [mem_read m off n]: the [n] bytes of [m] from offset [off]. *)
Definition mem_read (m : list Z) (off n : Z) : result (list Z) :=
  if (0 <=? off) && (0 <=? n) && (off + n <=? len m)
  then Done (firstn (Z.to_nat n) (skipn (Z.to_nat off) m))
  else Fault OutOfBounds.

(** [mem_write m off chunk]: [m] with [chunk] stored from offset [off]. *)
Definition mem_write (m : list Z) (off : Z) (chunk : list Z) : result (list Z) :=
  if (0 <=? off) && (off + len chunk <=? len m)
  then Done (firstn (Z.to_nat off) m ++ chunk
             ++ skipn (Z.to_nat (off + len chunk)) m)
  else Fault OutOfBounds.

(** The control-transfer data buffer ([uint8_t *data]): the USB core's
    fixed buffer, of which the control code touches bytes 0 and 1 only. *)
Definition bytes : Type := Z -> Z.

Definition store (d : bytes) (i v : Z) : bytes :=
  fun j => if j =? i then v else d j.

(** ** Constants of the source *)

Definition USBAUDIO_PACKET_SIZE : Z := 192.
Definition USBAUDIO_SAMPLE_RATE : Z := 48000.

Definition ALTSET_OFF : Z := 0x00.
Definition ALTSET_ON  : Z := 0x01.

Definition CR_SET_CUR : Z := 0x01.
Definition CR_GET_CUR : Z := 0x81.
Definition CR_SET_MIN : Z := 0x02.
Definition CR_GET_MIN : Z := 0x82.
Definition CR_SET_MAX : Z := 0x03.
Definition CR_GET_MAX : Z := 0x83.
Definition CR_SET_RES : Z := 0x04.
Definition CR_GET_RES : Z := 0x84.

Definition MUTE_CONTROL   : Z := 0x01.
Definition VOLUME_CONTROL : Z := 0x02.

(** Modelled from the spec: usb.h is not among the sources.  The stall
    result is the negative status the callers test with [ret < 0]; the
    value is the one of the USB core, -3. *)
Definition USB_RET_STALL : Z := -3.

(** Modelled from the spec: usb.h is not among the sources.  A packet
    starts out with the success status 0. *)
Definition USB_RET_SUCCESS : Z := 0.

(** ** Packets of the transport *)

(** Modelled from the spec: the packet type of the USB core (usb.h), reduced
    to the fields the device code uses. *)
Inductive usb_pid : Type := USB_TOKEN_SETUP | USB_TOKEN_IN | USB_TOKEN_OUT.

Record USBPacket : Type := mkUSBPacket {
  pid : usb_pid;
  iov : list Z;            (* payload, [iov.size] is its length *)
  actual_length : Z;       (* int *)
  status : Z               (* int *)
}.

Definition set_status (p : USBPacket) (st : Z) : USBPacket :=
  {| pid := pid p; iov := iov p; actual_length := actual_length p;
     status := st |}.

(** Modelled from the spec: usb_packet_copy belongs to the USB core and is
    not among the sources.  It moves [n] bytes between the payload, from
    the packet's current offset [actual_length], and the storage [m] at
    offset [off]: payload to storage for a host-to-device packet, storage to
    payload for a device-to-host packet; then it advances [actual_length]
    by [n].  The payload has to hold the whole chunk (a write copies exactly
    one packet-size chunk, never a partial one); the core asserts it. *)
Definition usb_packet_copy (p : USBPacket) (m : list Z) (off n : Z)
  : result (USBPacket * list Z) :=
  if negb ((0 <=? actual_length p) && (actual_length p + n <=? len (iov p)))
  then Fault AssertionFailed
  else
    match pid p with
    | USB_TOKEN_SETUP | USB_TOKEN_OUT =>
        chunk <- mem_read (iov p) (actual_length p) n ;;
        m' <- mem_write m off chunk ;;
        Done ({| pid := pid p; iov := iov p;
                 actual_length := actual_length p + n;
                 status := status p |}, m')
    | USB_TOKEN_IN =>
        chunk <- mem_read m off n ;;
        iov' <- mem_write (iov p) (actual_length p) chunk ;;
        Done ({| pid := pid p; iov := iov';
                 actual_length := actual_length p + n;
                 status := status p |}, m)
    end.

(** ** buffering: struct streambuf *)

Record streambuf : Type := mkstreambuf {
  sb_data : list Z;        (* uint8_t *data, [size] bytes *)
  sb_size : Z;             (* uint32_t size *)
  sb_prod : Z;             (* uint32_t prod *)
  sb_cons : Z              (* uint32_t cons *)
}.

(** [g_malloc] returns storage of unspecified contents; it is taken
    zero-filled here, and no statement below depends on the contents of
    fresh storage. *)
Definition g_malloc (n : Z) : list Z := repeat 0 (Z.to_nat n).

Definition streambuf_init (buf : streambuf) (size : Z) : streambuf :=
  let size' := size - (size mod USBAUDIO_PACKET_SIZE) in
  {| sb_data := g_malloc size'; sb_size := size'; sb_prod := 0; sb_cons := 0 |}.

(** The bytes in the buffer and the bytes still free, as the functions
    compute them in [uint32_t]. *)
Definition sb_used (buf : streambuf) : Z := u32 (sb_prod buf - sb_cons buf).
Definition sb_free (buf : streambuf) : Z := u32 (sb_size buf - sb_used buf).

Definition streambuf_put (buf : streambuf) (p : USBPacket)
  : result (Z * streambuf * USBPacket) :=
  let free := u32 (sb_size buf - u32 (sb_prod buf - sb_cons buf)) in
  if free =? 0 then Done (0, buf, p)
  else if negb (USBAUDIO_PACKET_SIZE <=? free) then Fault AssertionFailed
  else if sb_size buf =? 0 then Fault DivisionByZero
  else
    '(p', data') <- usb_packet_copy p (sb_data buf)
                      (sb_prod buf mod sb_size buf) USBAUDIO_PACKET_SIZE ;;
    Done (USBAUDIO_PACKET_SIZE,
          {| sb_data := data'; sb_size := sb_size buf;
             sb_prod := u32 (sb_prod buf + USBAUDIO_PACKET_SIZE);
             sb_cons := sb_cons buf |},
          p').

(** The returned pointer [buf->data + off] is the offset [Some off]; [None]
    is NULL.  [len] is a [size_t]. *)
Definition streambuf_get (buf : streambuf) (len : Z)
  : result (option Z * streambuf) :=
  let used := u32 (sb_prod buf - sb_cons buf) in
  if (used =? 0) || (used <? len) then Done (None, buf)
  else if sb_size buf =? 0 then Fault DivisionByZero
  else
    Done (Some (sb_cons buf mod sb_size buf),
          {| sb_data := sb_data buf; sb_size := sb_size buf;
             sb_prod := sb_prod buf;
             sb_cons := u32 (sb_cons buf + len) |}).

(** [len] is an [int]; the comparison with the [uint32_t] [free] and the
    addition to [prod] convert it to [uint32_t]. *)
Definition streambuf_alloc (buf : streambuf) (len : Z)
  : result (option Z * streambuf) :=
  let free := u32 (sb_size buf - u32 (sb_prod buf - sb_cons buf)) in
  if (free =? 0) || (free <? u32 len) then Done (None, buf)
  else if sb_size buf =? 0 then Fault DivisionByZero
  else
    Done (Some (sb_prod buf mod sb_size buf),
          {| sb_data := sb_data buf; sb_size := sb_size buf;
             sb_prod := u32 (sb_prod buf + u32 len);
             sb_cons := sb_cons buf |}).

(** ** Device state: USBAudioState *)

(** Modelled from the spec: the voices belong to the audio backend
    (audio/audio.h), which is not among the sources.  A voice can be
    activated and deactivated and takes a (mute, volume-per-channel)
    setting; that is all the device code does to it here. *)
Record SWVoice : Type := mkSWVoice {
  voice_active : bool;
  voice_mute : bool;
  voice_lvol : Z;
  voice_rvol : Z
}.

Definition AUD_set_active (v : SWVoice) (on : bool) : SWVoice :=
  {| voice_active := on; voice_mute := voice_mute v;
     voice_lvol := voice_lvol v; voice_rvol := voice_rvol v |}.

Definition AUD_set_volume (v : SWVoice) (mute : bool) (lvol rvol : Z) : SWVoice :=
  {| voice_active := voice_active v; voice_mute := mute;
     voice_lvol := lvol; voice_rvol := rvol |}.

Record audsettings : Type := mkaudsettings {
  freq : Z;
  nchannels : Z
}.

(** The lines the device prints on stderr. *)
Inductive diag : Type :=
| DiagSetInterface (altset : Z)      (* "usb-audio: set interface %d" *)
| DiagSetInInterface (altset : Z)    (* "usb-audio: set in interface %d" *)
| DiagVol (vol : Z)                  (* "usb-audio: vol %04x" *)
| DiagMute (mute : bool) (lvol rvol : Z)
                                     (* "usb-audio: mute %d, lvol %3d, rvol %3d" *)
| DiagReset                          (* "usb-audio: reset" *)
| DiagOutputOverrun (n : Z).         (* "usb-audio: output overrun (%zd bytes)" *)

Record out_state : Type := mkout {
  out_altset : Z;                    (* enum usb_audio_altset *)
  out_as : audsettings;
  out_voice : SWVoice;
  out_mute : bool;
  out_vol : Z * Z;                   (* uint8_t vol[2] *)
  out_buf : streambuf
}.

Record in_state : Type := mkin {
  in_altset : Z;
  in_as : audsettings;
  in_voice : SWVoice;
  in_mute : bool;
  in_vol : Z;                        (* uint8_t vol *)
  in_buf : streambuf
}.

Record USBAudioState : Type := mkUSBAudioState {
  out : out_state;
  inp : in_state;                    (* the member [in] *)
  debug : Z;                         (* uint32_t *)
  buffer : Z;                        (* uint32_t *)
  stderr : list diag                 (* what has been printed so far *)
}.

(** [vol[cn]] for a channel index below 2, and the assignment to it. *)
Definition vol_at (v : Z * Z) (cn : Z) : Z :=
  if cn =? 0 then fst v else snd v.

Definition vol_set (v : Z * Z) (cn x : Z) : Z * Z :=
  if cn =? 0 then (x, snd v) else (fst v, x).

Definition with_out (s : USBAudioState) (o : out_state) : USBAudioState :=
  {| out := o; inp := inp s; debug := debug s; buffer := buffer s;
     stderr := stderr s |}.

Definition with_inp (s : USBAudioState) (i : in_state) : USBAudioState :=
  {| out := out s; inp := i; debug := debug s; buffer := buffer s;
     stderr := stderr s |}.

Definition fprintf (s : USBAudioState) (d : diag) : USBAudioState :=
  {| out := out s; inp := inp s; debug := debug s; buffer := buffer s;
     stderr := stderr s ++ [d] |}.

Definition set_out_altset (o : out_state) (a : Z) : out_state :=
  {| out_altset := a; out_as := out_as o; out_voice := out_voice o;
     out_mute := out_mute o; out_vol := out_vol o; out_buf := out_buf o |}.

Definition set_out_voice (o : out_state) (v : SWVoice) : out_state :=
  {| out_altset := out_altset o; out_as := out_as o; out_voice := v;
     out_mute := out_mute o; out_vol := out_vol o; out_buf := out_buf o |}.

Definition set_out_mute (o : out_state) (m : bool) : out_state :=
  {| out_altset := out_altset o; out_as := out_as o; out_voice := out_voice o;
     out_mute := m; out_vol := out_vol o; out_buf := out_buf o |}.

Definition set_out_vol (o : out_state) (v : Z * Z) : out_state :=
  {| out_altset := out_altset o; out_as := out_as o; out_voice := out_voice o;
     out_mute := out_mute o; out_vol := v; out_buf := out_buf o |}.

Definition set_out_buf (o : out_state) (b : streambuf) : out_state :=
  {| out_altset := out_altset o; out_as := out_as o; out_voice := out_voice o;
     out_mute := out_mute o; out_vol := out_vol o; out_buf := b |}.

Definition set_in_altset (i : in_state) (a : Z) : in_state :=
  {| in_altset := a; in_as := in_as i; in_voice := in_voice i;
     in_mute := in_mute i; in_vol := in_vol i; in_buf := in_buf i |}.

Definition set_in_voice (i : in_state) (v : SWVoice) : in_state :=
  {| in_altset := in_altset i; in_as := in_as i; in_voice := v;
     in_mute := in_mute i; in_vol := in_vol i; in_buf := in_buf i |}.

Definition set_in_mute (i : in_state) (m : bool) : in_state :=
  {| in_altset := in_altset i; in_as := in_as i; in_voice := in_voice i;
     in_mute := m; in_vol := in_vol i; in_buf := in_buf i |}.

Definition set_in_vol (i : in_state) (v : Z) : in_state :=
  {| in_altset := in_altset i; in_as := in_as i; in_voice := in_voice i;
     in_mute := in_mute i; in_vol := v; in_buf := in_buf i |}.

Definition set_in_buf (i : in_state) (b : streambuf) : in_state :=
  {| in_altset := in_altset i; in_as := in_as i; in_voice := in_voice i;
     in_mute := in_mute i; in_vol := in_vol i; in_buf := b |}.

(** ** Alt-setting transitions *)

Definition usb_audio_set_output_altset (s : USBAudioState) (altset : Z)
  : Z * USBAudioState :=
  let finish (s1 : USBAudioState) :=
    let s2 := if debug s1 =? 0 then s1 else fprintf s1 (DiagSetInterface altset) in
    (0, with_out s2 (set_out_altset (out s2) altset)) in
  match altset with
  | 0 (* ALTSET_OFF *) =>
      let s1 := with_out s (set_out_buf (out s)
                              (streambuf_init (out_buf (out s)) (buffer s))) in
      finish (with_out s1 (set_out_voice (out s1)
                             (AUD_set_active (out_voice (out s1)) false)))
  | 1 (* ALTSET_ON *) =>
      finish (with_out s (set_out_voice (out s)
                            (AUD_set_active (out_voice (out s)) true)))
  | _ => (-1, s)
  end.

Definition usb_audio_set_input_altset (s : USBAudioState) (altset : Z)
  : Z * USBAudioState :=
  let finish (s1 : USBAudioState) :=
    let s2 := if debug s1 =? 0 then s1 else fprintf s1 (DiagSetInInterface altset) in
    (0, with_inp s2 (set_in_altset (inp s2) altset)) in
  match altset with
  | 0 (* ALTSET_OFF *) =>
      let s1 := with_inp s (set_in_buf (inp s)
                              (streambuf_init (in_buf (inp s)) (buffer s))) in
      finish (with_inp s1 (set_in_voice (inp s1)
                             (AUD_set_active (in_voice (inp s1)) false)))
  | 1 (* ALTSET_ON *) =>
      finish (with_inp s (set_in_voice (inp s)
                            (AUD_set_active (in_voice (inp s)) true)))
  | _ => (-1, s)
  end.

(** [void]: the value the transition returns is dropped. *)
Definition usb_audio_set_interface (s : USBAudioState) (iface old value : Z)
  : USBAudioState :=
  if iface =? 1 then snd (usb_audio_set_output_altset s value)
  else if iface =? 2 then snd (usb_audio_set_input_altset s value)
  else s.

Definition usb_audio_handle_reset (s : USBAudioState) : USBAudioState :=
  let s1 := if debug s =? 0 then s else fprintf s DiagReset in
  let s2 := snd (usb_audio_set_output_altset s1 ALTSET_OFF) in
  snd (usb_audio_set_input_altset s2 ALTSET_OFF).

(** ** Class-specific control requests *)

(** The macro is used on a [uint8_t], a [uint8_t] and a [uint16_t]; its
    value is stored in the [uint32_t] [aid], hence the [u32] at its use. *)
Definition ATTRIB_ID (cs attrib idif : Z) : Z :=
  Z.lor (Z.lor (Z.shiftl cs 24) (Z.shiftl attrib 16)) idif.

(** [attrib] is a [uint8_t], [cscn] and [idif] are [uint16_t]; [length] is
    not used.  The result is the returned [int] and the data buffer. *)
Definition usb_audio_get_control (s : USBAudioState)
    (attrib cscn idif length : Z) (data : bytes) : Z * bytes :=
  let cs := u8 (Z.shiftr cscn 8) in
  let cn := u8 (cscn - 1) in     (* -1 for the non-present master control *)
  let aid := u32 (ATTRIB_ID cs attrib idif) in
  let ret := USB_RET_STALL in
  if aid =? ATTRIB_ID MUTE_CONTROL CR_GET_CUR 0x0200 then
    (1, store data 0 (Z.b2z (out_mute (out s))))
  else if aid =? ATTRIB_ID VOLUME_CONTROL CR_GET_CUR 0x0200 then
    if cn <? 2 then
      let vol := u16 (Z.quot (vol_at (out_vol (out s)) cn * 0x8800 + 127) 255
                      + 0x8000) in
      (2, store (store data 0 (u8 vol)) 1 (u8 (Z.shiftr vol 8)))
    else (ret, data)
  else if aid =? ATTRIB_ID VOLUME_CONTROL CR_GET_MIN 0x0200 then
    if cn <? 2 then (2, store (store data 0 0x01) 1 0x80) else (ret, data)
  else if aid =? ATTRIB_ID VOLUME_CONTROL CR_GET_MAX 0x0200 then
    if cn <? 2 then (2, store (store data 0 0x00) 1 0x08) else (ret, data)
  else if aid =? ATTRIB_ID VOLUME_CONTROL CR_GET_RES 0x0200 then
    if cn <? 2 then (2, store (store data 0 0x88) 1 0x00) else (ret, data)
  else if aid =? ATTRIB_ID MUTE_CONTROL CR_GET_CUR 0x0500 then
    (1, store data 0 (Z.b2z (in_mute (inp s))))
  else if aid =? ATTRIB_ID VOLUME_CONTROL CR_GET_CUR 0x0500 then
    if cn <? 2 then
      let vol := u16 (Z.quot (vol_at (out_vol (out s)) cn * 0x8800 + 127) 255
                      + 0x8000) in
      (2, store (store data 0 (u8 vol)) 1 (u8 (Z.shiftr vol 8)))
    else (ret, data)
  else if aid =? ATTRIB_ID VOLUME_CONTROL CR_GET_MIN 0x0500 then
    if cn <? 2 then (2, store (store data 0 0x01) 1 0x80) else (ret, data)
  else if aid =? ATTRIB_ID VOLUME_CONTROL CR_GET_MAX 0x0500 then
    if cn <? 2 then (1, store data 0 0x00) else (ret, data)
  else if aid =? ATTRIB_ID VOLUME_CONTROL CR_GET_RES 0x0500 then
    if cn <? 2 then (2, store (store data 0 0x88) 1 0x00) else (ret, data)
  else (ret, data).

(** The closing block of usb_audio_set_control: with [set_vol] set and
    [debug] on, the mute and volume line is printed. *)
Definition set_vol_diag (s : USBAudioState) : USBAudioState :=
  if debug s =? 0 then s
  else fprintf s (DiagMute (out_mute (out s))
                           (vol_at (out_vol (out s)) 0)
                           (vol_at (out_vol (out s)) 1)).

Definition push_volume_out (s : USBAudioState) : USBAudioState :=
  with_out s (set_out_voice (out s)
                (AUD_set_volume (out_voice (out s)) (out_mute (out s))
                   (vol_at (out_vol (out s)) 0) (vol_at (out_vol (out s)) 1))).

Definition push_volume_in (s : USBAudioState) : USBAudioState :=
  with_inp s (set_in_voice (inp s)
                (AUD_set_volume (in_voice (inp s)) (in_mute (inp s))
                   (in_vol (inp s)) (in_vol (inp s)))).

Definition usb_audio_set_control (s : USBAudioState)
    (attrib cscn idif length : Z) (data : bytes) : Z * USBAudioState :=
  let cs := u8 (Z.shiftr cscn 8) in
  let cn := u8 (cscn - 1) in     (* -1 for the non-present master control *)
  let aid := u32 (ATTRIB_ID cs attrib idif) in
  let ret := USB_RET_STALL in
  if aid =? ATTRIB_ID MUTE_CONTROL CR_SET_CUR 0x0200 then
    let s1 := with_out s (set_out_mute (out s) (Z.land (data 0) 1 =? 1)) in
    (0, set_vol_diag (push_volume_out s1))
  else if aid =? ATTRIB_ID VOLUME_CONTROL CR_SET_CUR 0x0200 then
    if cn <? 2 then
      let vol := u16 (data 0 + Z.shiftl (data 1) 8) in
      let s1 := if debug s =? 0 then s else fprintf s (DiagVol vol) in
      let vol := u16 (vol - 0x8000) in
      let vol := u16 (Z.quot (vol * 255 + 0x4400) 0x8800) in
      let vol := if 255 <? vol then 255 else vol in
      let s2 := with_out s1 (set_out_vol (out s1)
                               (vol_set (out_vol (out s1)) cn (u8 vol))) in
      (0, set_vol_diag (push_volume_out s2))
    else (ret, s)
  else if aid =? ATTRIB_ID MUTE_CONTROL CR_SET_CUR 0x0500 then
    let s1 := with_inp s (set_in_mute (inp s) (Z.land (data 0) 1 =? 1)) in
    (0, set_vol_diag (push_volume_in s1))
  else if aid =? ATTRIB_ID VOLUME_CONTROL CR_SET_CUR 0x0500 then
    if cn <? 2 then
      let vol := u16 (data 0 + Z.shiftl (data 1) 8) in
      let s1 := if debug s =? 0 then s else fprintf s (DiagVol vol) in
      let vol := u16 (vol - 0x8000) in
      let vol := u16 (Z.quot (vol * 255 + 0x4400) 0x8800) in
      let vol := if 255 <? vol then 255 else vol in
      let s2 := with_inp s1 (set_in_vol (inp s1) (u8 vol)) in
      (0, set_vol_diag (push_volume_in s2))
    else (ret, s)
  else (ret, s).

(** ** Data transfers *)

Definition usb_audio_handle_dataout (s : USBAudioState) (p : USBPacket)
  : result (USBAudioState * USBPacket) :=
  if out_altset (out s) =? ALTSET_OFF then
    Done (s, set_status p USB_RET_STALL)
  else
    '(_, buf', p') <- streambuf_put (out_buf (out s)) p ;;
    let s1 := with_out s (set_out_buf (out s) buf') in
    if (u64 (actual_length p') <? len (iov p')) && (1 <? debug s1)
    then Done (fprintf s1 (DiagOutputOverrun (len (iov p') - actual_length p')),
               p')
    else Done (s1, p').

(** ** Device construction *)

(** Note that the playback buffer is initialised before [s->buffer] is
    assigned, so with the value the object came with. *)
Definition usb_audio_realize (s : USBAudioState) : USBAudioState :=
  let o := {| out_altset := ALTSET_OFF;
              out_as := {| freq := USBAUDIO_SAMPLE_RATE; nchannels := 2 |};
              out_voice := out_voice (out s);
              out_mute := false;
              out_vol := (240, 240);              (* 0 dB *)
              out_buf := streambuf_init (out_buf (out s)) (buffer s) |} in
  let i := {| in_altset := ALTSET_OFF;
              in_as := {| freq := USBAUDIO_SAMPLE_RATE; nchannels := 1 |};
              in_voice := in_voice (inp s);
              in_mute := false;
              in_vol := 240;                      (* 0 dB *)
              in_buf := streambuf_init (in_buf (inp s))
                          (64 * USBAUDIO_PACKET_SIZE) |} in
  let s1 := {| out := o; inp := i; debug := 0;
               buffer := 64 * USBAUDIO_PACKET_SIZE; stderr := stderr s |} in
  let s2 := push_volume_out s1 in
  let s3 := with_out s2 (set_out_voice (out s2)
                           (AUD_set_active (out_voice (out s2)) false)) in
  let s4 := push_volume_in s3 in
  with_inp s4 (set_in_voice (inp s4)
                 (AUD_set_active (in_voice (inp s4)) false)).

(** The device object as allocated: zero-filled. *)
Definition zeroed : USBAudioState :=
  let v := {| voice_active := false; voice_mute := false;
              voice_lvol := 0; voice_rvol := 0 |} in
  let b := {| sb_data := []; sb_size := 0; sb_prod := 0; sb_cons := 0 |} in
  let a := {| freq := 0; nchannels := 0 |} in
  {| out := {| out_altset := 0; out_as := a; out_voice := v;
               out_mute := false; out_vol := (0, 0); out_buf := b |};
     inp := {| in_altset := 0; in_as := a; in_voice := v;
               in_mute := false; in_vol := 0; in_buf := b |};
     debug := 0; buffer := 0; stderr := [] |}.

(** The device after construction and the bus reset that follows. *)
Definition started : USBAudioState :=
  usb_audio_handle_reset (usb_audio_realize zeroed).

(** ** The volume code mapping, in closed form *)

(** The 16-bit code GET CUR produces for a linear volume [v]. *)
Definition volume_code (v : Z) : Z :=
  ((v * 0x8800 + 127) / 255 + 0x8000) mod 0x10000.

(** The linear volume SET CUR stores for a 16-bit [code]. *)
Definition volume_of_code (code : Z) : Z :=
  Z.min 255 ((((code - 0x8000) mod 0x10000) * 255 + 0x4400) / 0x8800).

(** The two bytes of a control request, little-endian. *)
Definition code_bytes (lo hi : Z) : bytes :=
  fun j => if j =? 0 then lo else if j =? 1 then hi else 0.

(** ** Vocabulary of the statements *)

(** *** Control requests *)

(** The (selector, attribute, target) triples with a case label in
    usb_audio_get_control, in the order of the [switch]. *)
Definition get_cases : list (Z * Z * Z) :=
  [ (MUTE_CONTROL,   CR_GET_CUR, 0x0200);
    (VOLUME_CONTROL, CR_GET_CUR, 0x0200);
    (VOLUME_CONTROL, CR_GET_MIN, 0x0200);
    (VOLUME_CONTROL, CR_GET_MAX, 0x0200);
    (VOLUME_CONTROL, CR_GET_RES, 0x0200);
    (MUTE_CONTROL,   CR_GET_CUR, 0x0500);
    (VOLUME_CONTROL, CR_GET_CUR, 0x0500);
    (VOLUME_CONTROL, CR_GET_MIN, 0x0500);
    (VOLUME_CONTROL, CR_GET_MAX, 0x0500);
    (VOLUME_CONTROL, CR_GET_RES, 0x0500) ].

(** The same for usb_audio_set_control. *)
Definition set_cases : list (Z * Z * Z) :=
  [ (MUTE_CONTROL,   CR_SET_CUR, 0x0200);
    (VOLUME_CONTROL, CR_SET_CUR, 0x0200);
    (MUTE_CONTROL,   CR_SET_CUR, 0x0500);
    (VOLUME_CONTROL, CR_SET_CUR, 0x0500) ].

Definition is_case (cs attrib idif : Z) (k : Z * Z * Z) : bool :=
  let '(k1, k2, k3) := k in (cs =? k1) && (attrib =? k2) && (idif =? k3).

Definition supported (cases : list (Z * Z * Z)) (cs attrib idif : Z) : bool :=
  existsb (is_case cs attrib idif) cases.

(** The decoding as the specification words it: the offset from 0x8000
    taken as a plain integer, scaled by 255/0x8800 with the rounding bias,
    then clamped to [0,255]. *)
Definition spec_volume_of_code (code : Z) : Z :=
  Z.max 0 (Z.min 255 (((code - 0x8000) * 255 + 0x4400) / 0x8800)).

(** *** Ring buffer *)

(** The buffer with the consumer cursor at [c]. *)
Definition set_cons (buf : streambuf) (c : Z) : streambuf :=
  {| sb_data := sb_data buf; sb_size := sb_size buf; sb_prod := sb_prod buf;
     sb_cons := c |}.

(** The buffer with the storage [data] and the producer cursor at [p]. *)
Definition set_prod (buf : streambuf) (data : list Z) (p : Z) : streambuf :=
  {| sb_data := data; sb_size := sb_size buf; sb_prod := p;
     sb_cons := sb_cons buf |}.

(** A two-packet buffer, and a host-to-device packet of one chunk. *)
Definition two_packets : streambuf :=
  streambuf_init (mkstreambuf [] 0 0 0) (2 * USBAUDIO_PACKET_SIZE + 5).

Definition out_packet (fill : Z) : USBPacket :=
  {| pid := USB_TOKEN_OUT;
     iov := repeat fill (Z.to_nat USBAUDIO_PACKET_SIZE);
     actual_length := 0; status := USB_RET_SUCCESS |}.


(** The buffer after one chunk has been written. *)
Definition one_written : streambuf :=
  match streambuf_put two_packets (out_packet 7) with
  | Done (_, b, _) => b
  | Fault _ => two_packets
  end.

(** The packet after [n] more bytes of it have been consumed. *)
Definition advance (p : USBPacket) (n : Z) : USBPacket :=
  {| pid := pid p; iov := iov p; actual_length := actual_length p + n;
     status := status p |}.

(** A call of one of the three buffer functions. *)
Inductive sb_op : Type :=
| OpPut (p : USBPacket)
| OpGet (len : Z)        (* size_t *)
| OpAlloc (len : Z).     (* int *)

(** One call; the returned count or pointer is dropped, the buffer kept. *)
Definition sb_step (buf : streambuf) (op : sb_op) : result streambuf :=
  match op with
  | OpPut p => '(_, b, _) <- streambuf_put buf p ;; Done b
  | OpGet n => '(_, b) <- streambuf_get buf n ;; Done b
  | OpAlloc n => '(_, b) <- streambuf_alloc buf n ;; Done b
  end.

Fixpoint sb_run (ops : list sb_op) (buf : streambuf) : result streambuf :=
  match ops with
  | [] => Done buf
  | op :: ops' => b <- sb_step buf op ;; sb_run ops' b
  end.

(** The argument of a call lies in the range of its C type. *)
Definition op_typed (op : sb_op) : Prop :=
  match op with
  | OpPut _ => True
  | OpGet n => 0 <= n < 2 ^ 64
  | OpAlloc n => - 2 ^ 31 <= n < 2 ^ 31
  end.

(** The cursors and the size are 32-bit values, and no more bytes are in
    use than the buffer has. *)
Definition sb_inv (buf : streambuf) : Prop :=
  0 <= sb_size buf < 2 ^ 32
  /\ 0 <= sb_prod buf < 2 ^ 32
  /\ 0 <= sb_cons buf < 2 ^ 32
  /\ u32 (sb_prod buf - sb_cons buf) <= sb_size buf.

(** The two-packet buffer after: a write, a read of 100 bytes, a write.
    100 bytes are free then. *)
Definition partly_free_ops : list sb_op :=
  [ OpPut (out_packet 7); OpGet 100; OpPut (out_packet 8) ].

Definition partly_free : streambuf :=
  match sb_run partly_free_ops two_packets with
  | Done b => b
  | Fault _ => two_packets
  end.


(** *** Data-out transfers *)


(** The started device with playback switched on. *)
Definition playing : USBAudioState := usb_audio_set_interface started 1 0 1.

(** [n] data-out packets in a row. *)
Fixpoint dataout_n (n : nat) (s : USBAudioState) : USBAudioState :=
  match n with
  | O => s
  | S n' =>
      match usb_audio_handle_dataout s (out_packet (Z.of_nat n)) with
      | Done (s', _) => dataout_n n' s'
      | Fault _ => s
      end
  end.


(** ** The rest of the device: demand callbacks, data-in, restore *)

(** Modelled from the spec: AUD_write belongs to the audio backend
    (audio/audio.h), which is not among the sources; it takes raw PCM for a
    playback voice.  The packets handed to it are collected in [played],
    oldest first.

    The loop of output_callback runs once per packet that [avail] covers:
    [fuel] counts these rounds, and with [avail / 192 + 1] of them the
    round that finds the fuel used up also finds [avail] below a packet. *)
Fixpoint output_loop (fuel : nat) (s : USBAudioState) (avail : Z)
    (played : list (list Z)) : result (USBAudioState * list (list Z)) :=
  match fuel with
  | O => Done (s, played)
  | S fuel' =>
      if avail <? USBAUDIO_PACKET_SIZE then Done (s, played)
      else
        '(data, buf') <- streambuf_get (out_buf (out s)) USBAUDIO_PACKET_SIZE ;;
        let s1 := with_out s (set_out_buf (out s) buf') in
        match data with
        | None => Done (s1, played)
        | Some off =>
            chunk <- mem_read (sb_data buf') off USBAUDIO_PACKET_SIZE ;;
            output_loop fuel' s1 (avail - USBAUDIO_PACKET_SIZE)
              (played ++ [chunk])
        end
  end.

Definition output_callback (s : USBAudioState) (avail : Z)
  : result (USBAudioState * list (list Z)) :=
  output_loop (Z.to_nat (avail / USBAUDIO_PACKET_SIZE) + 1) s avail [].

(** Modelled from the spec: AUD_read belongs to the audio backend; it
    fills the region it is given with at most the requested number of
    captured bytes.  What the backend delivers call by call is the list
    [src]; a call beyond its end delivers nothing. *)
Definition AUD_read (src : list (list Z)) (m : list Z) (off n : Z)
  : result (list Z * list (list Z)) :=
  m' <- mem_write m off (firstn (Z.to_nat n) (hd [] src)) ;;
  Done (m', tl src).

Fixpoint input_loop (fuel : nat) (s : USBAudioState) (avail : Z)
    (src : list (list Z)) : result (USBAudioState * list (list Z)) :=
  match fuel with
  | O => Done (s, src)
  | S fuel' =>
      if negb (USBAUDIO_PACKET_SIZE <? avail) then Done (s, src)
      else
        '(data, buf') <- streambuf_alloc (in_buf (inp s)) USBAUDIO_PACKET_SIZE ;;
        match data with
        | None => Done (with_inp s (set_in_buf (inp s) buf'), src)
        | Some off =>
            '(m', src') <- AUD_read src (sb_data buf') off USBAUDIO_PACKET_SIZE ;;
            input_loop fuel'
              (with_inp s (set_in_buf (inp s)
                             (set_prod buf' m' (sb_prod buf'))))
              (avail - USBAUDIO_PACKET_SIZE) src'
        end
  end.

Definition input_callback (s : USBAudioState) (avail : Z)
    (src : list (list Z)) : result (USBAudioState * list (list Z)) :=
  input_loop (Z.to_nat (avail / USBAUDIO_PACKET_SIZE) + 1) s avail src.

(** The packet is taken not to be part of a combined transfer:
    [p->combined] is null and [iov] is the packet's own payload. *)
Definition usb_audio_handle_datain (s : USBAudioState) (p : USBPacket)
  : result (USBAudioState * USBPacket) :=
  if in_altset (inp s) =? ALTSET_OFF then
    Done (s, set_status p USB_RET_STALL)
  else
    let n := Z.min USBAUDIO_PACKET_SIZE (len (iov p)) in
    '(data, buf') <- streambuf_get (in_buf (inp s)) n ;;
    let s1 := with_inp s (set_in_buf (inp s) buf') in
    match data with
    | None => Done (s1, set_status p USB_RET_STALL)
    | Some off =>
        '(p', m') <- usb_packet_copy p (sb_data buf') off n ;;
        let s2 := with_inp s1 (set_in_buf (inp s1)
                                 (set_prod buf' m' (sb_prod buf'))) in
        if (u64 (actual_length p') <? len (iov p')) && (1 <? debug s2)
        then Done (fprintf s2 (DiagOutputOverrun
                                 (len (iov p') - actual_length p')), p')
        else Done (s2, p')
    end.

(** The fields have been restored before the call; [usb_desc_config]
    acts on the USB core's part of the device only. *)
Definition usb_audio_post_load (s : USBAudioState) (version_id : Z)
  : Z * USBAudioState :=
  let s1 := push_volume_out s in
  let s2 := snd (usb_audio_set_output_altset s1 (out_altset (out s1))) in
  let s3 := push_volume_in s2 in
  let s4 := snd (usb_audio_set_input_altset s3 (in_altset (inp s3))) in
  (0, s4).

(** ** Vocabulary of the further statements *)

(** A 16-bit code read as the signed value it stands for. *)
Definition signed16 (c : Z) : Z := if c <? 0x8000 then c else c - 0x10000.

(** The design state of a buffer on the packet path: a positive size of
    whole packets, storage of that size, both cursors on packet boundaries
    and not yet wrapped at 2^32, and no more in use than the size. *)
Definition sb_aligned (buf : streambuf) : Prop :=
  0 < sb_size buf < 2 ^ 32
  /\ sb_size buf mod USBAUDIO_PACKET_SIZE = 0
  /\ len (sb_data buf) = sb_size buf
  /\ sb_cons buf mod USBAUDIO_PACKET_SIZE = 0
  /\ sb_prod buf mod USBAUDIO_PACKET_SIZE = 0
  /\ 0 <= sb_cons buf <= sb_prod buf
  /\ sb_prod buf < 2 ^ 32
  /\ sb_prod buf - sb_cons buf <= sb_size buf.

(** The packet stored for the cursor value [c]. *)
Definition packet_at (buf : streambuf) (c : Z) : list Z :=
  firstn (Z.to_nat USBAUDIO_PACKET_SIZE)
    (skipn (Z.to_nat (c mod sb_size buf)) (sb_data buf)).

(** The [m] packets stored from the cursor value [c] on. *)
Definition packets_from (buf : streambuf) (c : Z) (m : nat) : list (list Z) :=
  map (fun i => packet_at buf (c + USBAUDIO_PACKET_SIZE * Z.of_nat i)) (seq 0 m).

(** A host-to-device packet carrying [chunk]. *)
Definition packet_of (chunk : list Z) : USBPacket :=
  {| pid := USB_TOKEN_OUT; iov := chunk; actual_length := 0;
     status := USB_RET_SUCCESS |}.

(** A device-to-host packet asking for [n] bytes. *)
Definition in_packet (n : nat) : USBPacket :=
  {| pid := USB_TOKEN_IN; iov := repeat 0 n; actual_length := 0;
     status := USB_RET_SUCCESS |}.

(** Data-out transfers one after the other. *)
Fixpoint dataout_all (chunks : list (list Z)) (s : USBAudioState)
  : result USBAudioState :=
  match chunks with
  | [] => Done s
  | c :: chunks' =>
      '(s', _) <- usb_audio_handle_dataout s (packet_of c) ;;
      dataout_all chunks' s'
  end.

(** Modelled from the spec: the persistence collaborator, the loader of
    the fields listed in vmstate_usb_audio, is not among the sources.
    Before the restore hook runs it assigns what was saved: the
    alt-setting (32 bits), the mute flag and the volume bytes of each
    direction.  Nothing else of the device is touched: voices and buffers
    are not part of a snapshot. *)
Record snapshot : Type := mksnapshot {
  snap_out_altset : Z;               (* VMSTATE_UINT32(out.altset) *)
  snap_out_mute : bool;              (* VMSTATE_BOOL(out.mute) *)
  snap_out_vol0 : Z;                 (* VMSTATE_UINT8(out.vol[0]) *)
  snap_out_vol1 : Z;                 (* VMSTATE_UINT8(out.vol[1]) *)
  snap_in_altset : Z;                (* VMSTATE_UINT32(in.altset) *)
  snap_in_mute : bool;               (* VMSTATE_BOOL(in.mute) *)
  snap_in_vol : Z                    (* VMSTATE_UINT8(in.vol) *)
}.

Definition vmstate_load (s : USBAudioState) (f : snapshot) : USBAudioState :=
  let o := set_out_vol
             (set_out_mute (set_out_altset (out s) (u32 (snap_out_altset f)))
                (snap_out_mute f))
             (u8 (snap_out_vol0 f), u8 (snap_out_vol1 f)) in
  let i := set_in_vol
             (set_in_mute (set_in_altset (inp s) (u32 (snap_in_altset f)))
                (snap_in_mute f))
             (u8 (snap_in_vol f)) in
  with_inp (with_out s o) i.

(** A snapshot whose alt-settings are both OFF or ON. *)
Definition snapshot_valid (f : snapshot) : Prop :=
  (snap_out_altset f = ALTSET_OFF \/ snap_out_altset f = ALTSET_ON)
  /\ (snap_in_altset f = ALTSET_OFF \/ snap_in_altset f = ALTSET_ON).

(** What happens to the device between construction and teardown.  A
    restore is the loading of a snapshot's fields followed by the restore
    hook. *)
Inductive event : Type :=
| EvReset
| EvSetInterface (iface old value : Z)
| EvSetControl (attrib cscn idif length : Z) (data : bytes)
| EvDataOut (p : USBPacket)
| EvDataIn (p : USBPacket)
| EvOutputCallback (avail : Z)
| EvInputCallback (avail : Z) (src : list (list Z))
| EvRestore (f : snapshot) (version_id : Z).

Definition handle (s : USBAudioState) (e : event) : result USBAudioState :=
  match e with
  | EvReset => Done (usb_audio_handle_reset s)
  | EvSetInterface iface old value =>
      Done (usb_audio_set_interface s iface old value)
  | EvSetControl attrib cscn idif length data =>
      Done (snd (usb_audio_set_control s attrib cscn idif length data))
  | EvDataOut p => '(s', _) <- usb_audio_handle_dataout s p ;; Done s'
  | EvDataIn p => '(s', _) <- usb_audio_handle_datain s p ;; Done s'
  | EvOutputCallback avail => '(s', _) <- output_callback s avail ;; Done s'
  | EvInputCallback avail src =>
      '(s', _) <- input_callback s avail src ;; Done s'
  | EvRestore f v => Done (snd (usb_audio_post_load (vmstate_load s f) v))
  end.

(** The events the invariant is stated for: every restore brings a valid
    snapshot. *)
Definition event_valid (e : event) : Prop :=
  match e with
  | EvRestore f _ => snapshot_valid f
  | _ => True
  end.

Fixpoint handle_all (es : list event) (s : USBAudioState)
  : result USBAudioState :=
  match es with
  | [] => Done s
  | e :: es' => s' <- handle s e ;; handle_all es' s'
  end.

(** What the device keeps true of itself: each alt-setting is OFF or ON
    and its voice is active exactly when it is ON; each voice holds the
    mute flag and the volumes of its unit; the volumes fit a byte; both
    buffers hold no more than their size; and the playback buffer is empty
    while playback is OFF. *)
Definition device_inv (s : USBAudioState) : Prop :=
  (out_altset (out s) = ALTSET_OFF \/ out_altset (out s) = ALTSET_ON)
  /\ voice_active (out_voice (out s)) = (out_altset (out s) =? ALTSET_ON)
  /\ (in_altset (inp s) = ALTSET_OFF \/ in_altset (inp s) = ALTSET_ON)
  /\ voice_active (in_voice (inp s)) = (in_altset (inp s) =? ALTSET_ON)
  /\ out_voice (out s)
     = AUD_set_volume (out_voice (out s)) (out_mute (out s))
         (vol_at (out_vol (out s)) 0) (vol_at (out_vol (out s)) 1)
  /\ in_voice (inp s)
     = AUD_set_volume (in_voice (inp s)) (in_mute (inp s))
         (in_vol (inp s)) (in_vol (inp s))
  /\ 0 <= vol_at (out_vol (out s)) 0 <= 255
  /\ 0 <= vol_at (out_vol (out s)) 1 <= 255
  /\ 0 <= in_vol (inp s) <= 255
  /\ 0 <= buffer s < 2 ^ 32
  /\ sb_inv (out_buf (out s))
  /\ sb_inv (in_buf (inp s))
  /\ (out_altset (out s) = ALTSET_OFF -> sb_used (out_buf (out s)) = 0).

(** The playback half and the capture half of it. *)
Definition out_inv (o : out_state) : Prop :=
  (out_altset o = ALTSET_OFF \/ out_altset o = ALTSET_ON)
  /\ voice_active (out_voice o) = (out_altset o =? ALTSET_ON)
  /\ out_voice o
     = AUD_set_volume (out_voice o) (out_mute o)
         (vol_at (out_vol o) 0) (vol_at (out_vol o) 1)
  /\ 0 <= vol_at (out_vol o) 0 <= 255
  /\ 0 <= vol_at (out_vol o) 1 <= 255
  /\ sb_inv (out_buf o)
  /\ (out_altset o = ALTSET_OFF -> sb_used (out_buf o) = 0).

Definition in_inv (i : in_state) : Prop :=
  (in_altset i = ALTSET_OFF \/ in_altset i = ALTSET_ON)
  /\ voice_active (in_voice i) = (in_altset i =? ALTSET_ON)
  /\ in_voice i
     = AUD_set_volume (in_voice i) (in_mute i) (in_vol i) (in_vol i)
  /\ 0 <= in_vol i <= 255
  /\ sb_inv (in_buf i).

(** *** The buffers as queues of packets *)

(** The packets a buffer on the packet path holds, oldest first. *)
Definition queue (buf : streambuf) : list (list Z) :=
  packets_from buf (sb_cons buf)
    (Z.to_nat (sb_used buf / USBAUDIO_PACKET_SIZE)).

(** The buffer after a chunk of one packet has been stored at the
    producer cursor and the cursor moved on. *)
Definition enqueued (buf : streambuf) (chunk : list Z) : streambuf :=
  set_prod buf
    (firstn (Z.to_nat (sb_prod buf mod sb_size buf)) (sb_data buf) ++ chunk
     ++ skipn (Z.to_nat (sb_prod buf mod sb_size buf + USBAUDIO_PACKET_SIZE))
          (sb_data buf))
    (u32 (sb_prod buf + USBAUDIO_PACKET_SIZE)).

(** The buffer after its [m] oldest packets have been taken. *)
Definition drained (buf : streambuf) (m : nat) : streambuf :=
  set_cons buf (sb_cons buf + USBAUDIO_PACKET_SIZE * Z.of_nat m).

(** The device with the playback buffer [b]. *)
Definition with_out_buf (s : USBAudioState) (b : streambuf) : USBAudioState :=
  with_out s (set_out_buf (out s) b).

(** The payload of a device-to-host packet after its first [n] bytes
    have been filled with [chunk]. *)
Definition filled (p : USBPacket) (chunk : list Z) (n : Z) : USBPacket :=
  {| pid := pid p;
     iov := chunk ++ skipn (Z.to_nat n) (iov p);
     actual_length := n;
     status := status p |}.

(** The device with the capture buffer [b]. *)
Definition with_in_buf (s : USBAudioState) (b : streambuf) : USBAudioState :=
  with_inp s (set_in_buf (inp s) b).

(** The packets the capture callback can take: one per 192 bytes of
    [avail] beyond the first 192, as far as the buffer has room. *)
Definition capture_count (buf : streambuf) (avail : Z) : nat :=
  Z.to_nat (Z.min ((avail - 1) / 192) (sb_free buf / 192)).

(** The host reading [k] packets of 192 bytes one after the other, up to
    the first stall; the payloads it got. *)
Fixpoint datain_all (k : nat) (s : USBAudioState)
  : result (USBAudioState * list (list Z)) :=
  match k with
  | O => Done (s, [])
  | S k' =>
      '(s1, p1) <- usb_audio_handle_datain s (in_packet 192) ;;
      if status p1 =? USB_RET_STALL then Done (s1, [])
      else
        '(s2, rest) <- datain_all k' s1 ;;
        Done (s2, iov p1 :: rest)
  end.

(** *** Devices and packets of the further statements *)

(** Three chunks of one packet each. *)
Definition three_chunks : list (list Z) :=
  [ repeat 1 192; repeat 2 192; repeat 3 192 ].

(** The started device with capture switched on. *)
Definition capturing : USBAudioState := usb_audio_set_interface started 2 0 1.

(** The capturing device after the backend has delivered two packets. *)
Definition captured : USBAudioState :=
  match input_callback capturing 400 three_chunks with
  | Done (s, _) => s
  | Fault _ => capturing
  end.

(** A snapshot taken while playing, muted, at unequal volumes. *)
Definition playing_snapshot : snapshot :=
  {| snap_out_altset := ALTSET_ON; snap_out_mute := true;
     snap_out_vol0 := 200; snap_out_vol1 := 100;
     snap_in_altset := ALTSET_OFF; snap_in_mute := false;
     snap_in_vol := 255 |}.

(** A snapshot with an alt-setting that is neither OFF nor ON. *)
Definition stray_snapshot : snapshot :=
  {| snap_out_altset := 2; snap_out_mute := false;
     snap_out_vol0 := 240; snap_out_vol1 := 240;
     snap_in_altset := ALTSET_OFF; snap_in_mute := false;
     snap_in_vol := 240 |}.

(** A short life of the device: reset, playback on, one packet written,
    one played, capture on, a volume request, a restore. *)
Definition short_life : list event :=
  [ EvReset; EvSetInterface 1 0 1; EvDataOut (out_packet 7);
    EvOutputCallback 192; EvSetInterface 2 0 1;
    EvInputCallback 400 three_chunks; EvDataIn (in_packet 192);
    EvSetControl CR_SET_CUR 0x0201 0x0200 2 (code_bytes 0x00 0x08);
    EvRestore playing_snapshot 1 ].

(** * Properties *)

(** ** Machine integers and the packed request key *)

Lemma u8_small (x : Z) : 0 <= x < 256 -> u8 x = x.
Proof. intros H. unfold u8. apply Z.mod_small. simpl. lia. Qed.

Lemma u16_small (x : Z) : 0 <= x < 65536 -> u16 x = x.
Proof. intros H. unfold u16. apply Z.mod_small. simpl. lia. Qed.

Lemma u32_small (x : Z) : 0 <= x < 4294967296 -> u32 x = x.
Proof. intros H. unfold u32. apply Z.mod_small. simpl. lia. Qed.

Lemma u32_range (x : Z) : 0 <= u32 x < 4294967296.
Proof. unfold u32. change (2 ^ 32) with 4294967296. apply Z.mod_pos_bound. lia. Qed.

Lemma u8_range (x : Z) : 0 <= u8 x < 256.
Proof. unfold u8. change (2 ^ 8) with 256. apply Z.mod_pos_bound. lia. Qed.

(** Fields that do not overlap are added by the bitwise or. *)
Lemma lor_shiftl_add (hi lo n : Z) :
  0 <= n -> 0 <= lo < 2 ^ n -> Z.lor (Z.shiftl hi n) lo = hi * 2 ^ n + lo.
Proof.
  intros Hn Hlo.
  rewrite <- Z.shiftl_mul_pow2 by assumption.
  rewrite <- Z.lxor_lor, <- Z.add_nocarry_lxor; trivial;
    apply Z.bits_inj'; intros i Hi; rewrite Z.land_spec, Z.bits_0;
    (destruct (Z.lt_ge_cases i n) as [Hlt | Hge];
     [ rewrite Z.shiftl_spec_low by assumption; reflexivity
     | replace lo with (lo mod 2 ^ n) by (apply Z.mod_small; assumption);
       rewrite Z.mod_pow2_bits_high by lia; apply andb_false_r ]).
Qed.

Lemma ATTRIB_ID_sum (cs attrib idif : Z) :
  0 <= cs < 256 -> 0 <= attrib < 256 -> 0 <= idif < 65536 ->
  ATTRIB_ID cs attrib idif = cs * 16777216 + attrib * 65536 + idif.
Proof.
  intros Hcs Ha Hi. unfold ATTRIB_ID.
  assert (Hin : Z.lor (Z.shiftl cs 24) (Z.shiftl attrib 16)
                = Z.shiftl (cs * 256 + attrib) 16).
  { rewrite lor_shiftl_add; rewrite ?Z.shiftl_mul_pow2 by lia;
      change (2 ^ 24) with 16777216; change (2 ^ 16) with 65536; lia. }
  rewrite Hin, lor_shiftl_add; change (2 ^ 16) with 65536; lia.
Qed.

(** The key of a request equals the key of a case label exactly when the
    three fields agree. *)
Lemma aid_eqb (cs attrib idif k1 k2 k3 : Z) :
  0 <= cs < 256 -> 0 <= attrib < 256 -> 0 <= idif < 65536 ->
  0 <= k1 < 256 -> 0 <= k2 < 256 -> 0 <= k3 < 65536 ->
  (u32 (ATTRIB_ID cs attrib idif) =? ATTRIB_ID k1 k2 k3)
  = (cs =? k1) && (attrib =? k2) && (idif =? k3).
Proof.
  intros. rewrite !ATTRIB_ID_sum by assumption.
  rewrite u32_small by lia.
  destruct (Z.eqb_spec cs k1), (Z.eqb_spec attrib k2), (Z.eqb_spec idif k3);
    simpl; try (apply Z.eqb_eq; lia); apply Z.eqb_neq; lia.
Qed.

(** ** Requests the control surface rejects *)

Ltac const_range :=
  unfold MUTE_CONTROL, VOLUME_CONTROL, CR_GET_CUR, CR_GET_MIN, CR_GET_MAX,
    CR_GET_RES, CR_SET_CUR; lia.

Ltac split_tests :=
  repeat match goal with
         | |- context [if ?b then _ else _] => destruct b eqn:?
         end.

Lemma get_control_stall (s : USBAudioState) (attrib cscn idif length : Z)
    (data : bytes) :
  0 <= attrib < 256 -> 0 <= idif < 65536 ->
  supported get_cases (u8 (Z.shiftr cscn 8)) attrib idif = false
  \/ (u8 (Z.shiftr cscn 8) = VOLUME_CONTROL /\ 2 <= u8 (cscn - 1)) ->
  usb_audio_get_control s attrib cscn idif length data = (USB_RET_STALL, data).
Proof.
  intros Ha Hi H. unfold usb_audio_get_control.
  pose proof (u8_range (Z.shiftr cscn 8)) as Hcs.
  rewrite !aid_eqb by (assumption || const_range).
  destruct H as [Hns | [Hv Hcn]].
  - unfold supported, get_cases in Hns. simpl in Hns.
    repeat match goal with
           | |- context [if ?b && ?c && ?d then _ else _] =>
               destruct (b && c && d) eqn:?;
               [ simpl in Hns; discriminate Hns | simpl in Hns ]
           end.
    reflexivity.
  - rewrite Hv. apply Z.ltb_ge in Hcn. rewrite Hcn.
    split_tests; first [ reflexivity | discriminate ].
Qed.

Lemma set_control_stall (s : USBAudioState) (attrib cscn idif length : Z)
    (data : bytes) :
  0 <= attrib < 256 -> 0 <= idif < 65536 ->
  supported set_cases (u8 (Z.shiftr cscn 8)) attrib idif = false
  \/ (u8 (Z.shiftr cscn 8) = VOLUME_CONTROL /\ 2 <= u8 (cscn - 1)) ->
  usb_audio_set_control s attrib cscn idif length data = (USB_RET_STALL, s).
Proof.
  intros Ha Hi H. unfold usb_audio_set_control.
  pose proof (u8_range (Z.shiftr cscn 8)) as Hcs.
  rewrite !aid_eqb by (assumption || const_range).
  destruct H as [Hns | [Hv Hcn]].
  - unfold supported, set_cases in Hns. simpl in Hns.
    repeat match goal with
           | |- context [if ?b && ?c && ?d then _ else _] =>
               destruct (b && c && d) eqn:?;
               [ simpl in Hns; discriminate Hns | simpl in Hns ]
           end.
    reflexivity.
  - rewrite Hv. apply Z.ltb_ge in Hcn. rewrite Hcn.
    split_tests; first [ reflexivity | discriminate ].
Qed.

(** ** The volume code mapping *)

Lemma volume_code_range (v : Z) : 0 <= volume_code v < 65536.
Proof. unfold volume_code. apply Z.mod_pos_bound. lia. Qed.

(** What the GET CUR arm computes in [int] and [uint16_t] is the closed
    form, for a stored volume that fits its [uint8_t]. *)
Lemma get_cur_code (v : Z) :
  0 <= v <= 255 ->
  u16 (Z.quot (v * 0x8800 + 127) 255 + 0x8000) = volume_code v.
Proof.
  intros Hv. unfold volume_code, u16.
  rewrite Z.quot_div_nonneg by lia. reflexivity.
Qed.

(** What the SET CUR arm computes from the two data bytes. *)
Lemma set_cur_volume (d0 d1 : Z) :
  0 <= d0 < 256 -> 0 <= d1 < 256 ->
  (let vol := u16 (d0 + Z.shiftl d1 8) in
   let vol := u16 (vol - 0x8000) in
   let vol := u16 (Z.quot (vol * 255 + 0x4400) 0x8800) in
   u8 (if 255 <? vol then 255 else vol))
  = volume_of_code (d0 + 256 * d1).
Proof.
  intros H0 H1. cbv zeta. rewrite Z.shiftl_mul_pow2 by lia.
  change (2 ^ 8) with 256.
  rewrite (u16_small (d0 + d1 * 256)) by lia.
  unfold volume_of_code.
  replace (d0 + 256 * d1) with (d0 + d1 * 256) by lia.
  unfold u16. change (2 ^ 16) with 65536.
  set (w := (d0 + d1 * 256 - 32768) mod 65536).
  assert (Hw : 0 <= w < 65536) by (apply Z.mod_pos_bound; lia).
  rewrite !Z.quot_div_nonneg by lia.
  set (q := (w * 255 + 17408) / 34816).
  assert (Hq : 0 <= q <= 481).
  { split.
    - apply Z.div_pos; lia.
    - apply Z.div_le_upper_bound; lia. }
  rewrite !(Z.mod_small q 65536) by lia.
  destruct (Z.ltb_spec 255 q).
  - rewrite Z.min_l by lia. reflexivity.
  - rewrite Z.min_r by lia. apply u8_small. lia.
Qed.

Lemma volume_of_code_range (code : Z) : 0 <= volume_of_code code <= 255.
Proof.
  unfold volume_of_code.
  assert (0 <= (code - 0x8000) mod 0x10000 < 0x10000)
    by (apply Z.mod_pos_bound; lia).
  assert (0 <= (((code - 0x8000) mod 0x10000) * 255 + 0x4400) / 0x8800)
    by (apply Z.div_pos; lia).
  lia.
Qed.

(** Decoding the code of a linear volume gives the volume back. *)
Lemma volume_of_code_volume_code (v : Z) :
  0 <= v <= 255 -> volume_of_code (volume_code v) = v.
Proof.
  intros Hv. unfold volume_of_code, volume_code.
  set (e := (v * 0x8800 + 127) / 255).
  assert (He : v * 34816 - 127 <= e * 255 <= v * 34816 + 127).
  { pose proof (Z.div_mod (v * 0x8800 + 127) 255 ltac:(lia)) as Hdm.
    pose proof (Z.mod_pos_bound (v * 0x8800 + 127) 255 ltac:(lia)) as Hm.
    fold e in Hdm. lia. }
  assert (He0 : 0 <= e <= 34816) by lia.
  rewrite Zminus_mod_idemp_l.
  replace (e + 0x8000 - 0x8000) with e by lia.
  rewrite (Z.mod_small e) by lia.
  assert (Hd : (e * 255 + 0x4400) / 0x8800 = v).
  { symmetry. apply (Z.div_unique _ _ _ (e * 255 + 0x4400 - 0x8800 * v)); lia. }
  rewrite Hd. lia.
Qed.

(** A 16-bit code is the little-endian value of its two bytes. *)
Lemma code_of_bytes (c : Z) :
  0 <= c < 65536 -> u8 c + 256 * u8 (Z.shiftr c 8) = c.
Proof.
  intros Hc. rewrite Z.shiftr_div_pow2 by lia. change (2 ^ 8) with 256.
  unfold u8. change (2 ^ 8) with 256.
  rewrite (Z.mod_small (c / 256)).
  - pose proof (Z.div_mod c 256 ltac:(lia)). lia.
  - split; [ apply Z.div_pos; lia | apply Z.div_lt_upper_bound; lia ].
Qed.

(** ** The volume arms of the control functions *)

(** Decides the comparisons of a request key made of constants with the
    case labels. *)
Ltac eval_closed_tests :=
  repeat match goal with
         | |- context [u32 (ATTRIB_ID ?a ?b ?c) =? ATTRIB_ID ?x ?y ?z] =>
             let t := constr:(u32 (ATTRIB_ID a b c) =? ATTRIB_ID x y z) in
             let r := eval vm_compute in t in
             match r with
             | true => change t with true
             | false => change t with false
             end; cbv iota
         end.

Lemma get_control_volume_cur (s : USBAudioState) (cscn idif length : Z)
    (data : bytes) :
  idif = 0x0200 \/ idif = 0x0500 ->
  u8 (Z.shiftr cscn 8) = VOLUME_CONTROL ->
  u8 (cscn - 1) < 2 ->
  0 <= vol_at (out_vol (out s)) (u8 (cscn - 1)) <= 255 ->
  usb_audio_get_control s CR_GET_CUR cscn idif length data
  = let code := volume_code (vol_at (out_vol (out s)) (u8 (cscn - 1))) in
    (2, store (store data 0 (u8 code)) 1 (u8 (Z.shiftr code 8))).
Proof.
  intros Hi Hv Hcn Hvol. unfold usb_audio_get_control.
  rewrite Hv. apply Z.ltb_lt in Hcn. rewrite Hcn.
  rewrite get_cur_code by assumption.
  destruct Hi; subst idif; eval_closed_tests; reflexivity.
Qed.

Lemma out_set_vol_diag (s : USBAudioState) : out (set_vol_diag s) = out s.
Proof. unfold set_vol_diag. destruct (debug s =? 0); reflexivity. Qed.

Lemma inp_set_vol_diag (s : USBAudioState) : inp (set_vol_diag s) = inp s.
Proof. unfold set_vol_diag. destruct (debug s =? 0); reflexivity. Qed.

Lemma vol_at_vol_set (v : Z * Z) (cn x : Z) : vol_at (vol_set v cn x) cn = x.
Proof. unfold vol_at, vol_set. destruct (cn =? 0); reflexivity. Qed.

(** SET CUR (VOLUME) on the playback unit: the request succeeds and the
    addressed channel holds the decoded code; the other channel, the mute
    flag and the capture unit keep their values. *)
Lemma set_control_volume_cur_out (s : USBAudioState) (cscn length : Z)
    (data : bytes) :
  u8 (Z.shiftr cscn 8) = VOLUME_CONTROL ->
  u8 (cscn - 1) < 2 ->
  0 <= data 0 < 256 -> 0 <= data 1 < 256 ->
  let r := usb_audio_set_control s CR_SET_CUR cscn 0x0200 length data in
  fst r = 0
  /\ out_vol (out (snd r))
     = vol_set (out_vol (out s)) (u8 (cscn - 1))
         (volume_of_code (data 0 + 256 * data 1))
  /\ out_mute (out (snd r)) = out_mute (out s)
  /\ inp (snd r) = inp s.
Proof.
  intros Hv Hcn H0 H1. unfold usb_audio_set_control.
  rewrite Hv. apply Z.ltb_lt in Hcn. rewrite Hcn.
  eval_closed_tests. cbv zeta.
  pose proof (set_cur_volume (data 0) (data 1) H0 H1) as Hd.
  cbv zeta in Hd. rewrite Hd.
  cbn [fst snd]. rewrite out_set_vol_diag, inp_set_vol_diag.
  destruct (debug s =? 0); cbn; auto.
Qed.

(** On the codes from 0x8000 up the stored volume is the specification's
    value, and no clamping takes place. *)
Lemma volume_of_code_upper (code : Z) :
  0x8000 <= code < 0x10000 ->
  volume_of_code code = spec_volume_of_code code /\ volume_of_code code <= 240.
Proof.
  intros Hc. unfold volume_of_code, spec_volume_of_code.
  rewrite (Z.mod_small (code - 0x8000)) by lia.
  set (q := ((code - 0x8000) * 255 + 0x4400) / 0x8800).
  assert (Hq : 0 <= q <= 240).
  { split.
    - apply Z.div_pos; lia.
    - assert (q < 241) by (apply Z.div_lt_upper_bound; lia). lia. }
  lia.
Qed.

(** Below 0x8000 the 16-bit subtraction wraps: the code is taken 0x8000
    higher, and what is stored lies between 240 and 255. *)
Lemma volume_of_code_lower (code : Z) :
  0 <= code < 0x8000 ->
  volume_of_code code = Z.min 255 (((code + 0x8000) * 255 + 0x4400) / 0x8800)
  /\ 240 <= volume_of_code code.
Proof.
  intros Hc. unfold volume_of_code.
  replace ((code - 0x8000) mod 0x10000) with (code + 0x8000).
  - split; [ reflexivity | ].
    assert (240 <= ((code + 0x8000) * 255 + 0x4400) / 0x8800)
      by (apply Z.div_le_lower_bound; lia).
    lia.
  - apply (Z.mod_unique _ _ (-1)); lia.
Qed.

(** Unless it is clamped, the stored volume is the multiple of 0x8800/255
    nearest to the wrapped offset. *)
Lemma volume_of_code_nearest (code : Z) :
  let w := (code - 0x8000) mod 0x10000 in
  let v := volume_of_code code in
  v = 255 \/ - 0x4400 <= w * 255 - v * 0x8800 < 0x4400.
Proof.
  cbv zeta. unfold volume_of_code.
  set (w := (code - 0x8000) mod 0x10000).
  pose proof (Z.div_mod (w * 255 + 0x4400) 0x8800 ltac:(lia)) as Hdm.
  pose proof (Z.mod_pos_bound (w * 255 + 0x4400) 0x8800 ltac:(lia)) as Hm.
  destruct (Z.le_gt_cases 255 ((w * 255 + 0x4400) / 0x8800)).
  - left. lia.
  - right. rewrite Z.min_r by lia. lia.
Qed.

(** ** SET CUR and GET CUR for the playback volume *)

(** C1, as the code has it.  A SET CUR volume request to the playback unit
    with a channel index below 2 and the two code bytes [data 0], [data 1]
    returns 0 and stores, for the addressed channel, the smaller of 255 and
    [((code - 0x8000) mod 0x10000 * 255 + 0x4400) / 0x8800]: the offset from
    0x8000 is taken in 16 bits with wrap-around, scaled with rounding to
    nearest, and clamped from above only.  From 0x8000 up this is the
    specification's value; below 0x8000 it is at least 240. *)
Theorem set_cur_volume_stored (s : USBAudioState) (cscn length : Z)
    (data : bytes) :
  u8 (Z.shiftr cscn 8) = VOLUME_CONTROL ->
  u8 (cscn - 1) < 2 ->
  0 <= data 0 < 256 -> 0 <= data 1 < 256 ->
  let cn := u8 (cscn - 1) in
  let code := data 0 + 256 * data 1 in
  let r := usb_audio_set_control s CR_SET_CUR cscn 0x0200 length data in
  let v := vol_at (out_vol (out (snd r))) cn in
  fst r = 0
  /\ v = Z.min 255 ((((code - 0x8000) mod 0x10000) * 255 + 0x4400) / 0x8800)
  /\ (v = 255 \/
      - 0x4400 <= ((code - 0x8000) mod 0x10000) * 255 - v * 0x8800 < 0x4400)
  /\ (0x8000 <= code -> v = spec_volume_of_code code /\ v <= 240)
  /\ (code < 0x8000 ->
      v = Z.min 255 (((code + 0x8000) * 255 + 0x4400) / 0x8800) /\ 240 <= v).
Proof.
  intros Hv Hcn H0 H1 cn code r v.
  destruct (set_control_volume_cur_out s cscn length data Hv Hcn H0 H1)
    as (Hret & Hvol & _).
  fold r in Hret, Hvol.
  assert (Hstored : v = volume_of_code code).
  { unfold v. rewrite Hvol. apply vol_at_vol_set. }
  assert (Hcode : 0 <= code < 0x10000) by (unfold code; lia).
  split; [ exact Hret | ].
  split; [ exact Hstored | ].
  split; [ rewrite Hstored; apply volume_of_code_nearest | ].
  split; intros Hc; rewrite Hstored.
  - apply volume_of_code_upper. lia.
  - apply volume_of_code_lower. lia.
Qed.

Lemma set_cur_volume_stored_witness :
  let s := started in
  let data := code_bytes 0x34 0x92 in
  let r := usb_audio_set_control s CR_SET_CUR 0x0202 0x0200 2 data in
  u8 (Z.shiftr 0x0202 8) = VOLUME_CONTROL
  /\ u8 (0x0202 - 1) < 2
  /\ fst r = 0
  /\ vol_at (out_vol (out (snd r))) (u8 (0x0202 - 1))
     = Z.min 255 ((((0x9234 - 0x8000) mod 0x10000) * 255 + 0x4400) / 0x8800).
Proof.
  cbv zeta.
  assert (Hcs : u8 (Z.shiftr 0x0202 8) = VOLUME_CONTROL) by reflexivity.
  assert (Hcn : u8 (0x0202 - 1) < 2) by reflexivity.
  assert (H0 : 0 <= code_bytes 0x34 0x92 0 < 256) by (cbn; lia).
  assert (H1 : 0 <= code_bytes 0x34 0x92 1 < 256) by (cbn; lia).
  pose proof (set_cur_volume_stored started 0x0202 2 (code_bytes 0x34 0x92)
                Hcs Hcn H0 H1) as H.
  cbv zeta in H. destruct H as (Hret & Hv & _).
  split; [ exact Hcs | split; [ exact Hcn | split; [ exact Hret | exact Hv ] ] ].
Defined.

(** C1 as worded fails: after channel 0 has been set to 0 with the code
    bytes {0x00,0x80}, the code bytes {0x00,0x00} store 240 (0 dB), where
    the specification's formula gives 0. *)
Lemma set_cur_volume_zero_code_stores_240 :
  let s0 := snd (usb_audio_set_control started CR_SET_CUR 0x0201 0x0200 2
                   (code_bytes 0x00 0x80)) in
  let r := usb_audio_set_control s0 CR_SET_CUR 0x0201 0x0200 2
             (code_bytes 0x00 0x00) in
  vol_at (out_vol (out s0)) 0 = 0
  /\ fst r = 0
  /\ vol_at (out_vol (out (snd r))) 0 = 240
  /\ spec_volume_of_code 0 = 0
  /\ vol_at (out_vol (out (snd r))) 0 <> spec_volume_of_code 0.
Proof. vm_compute. repeat split; discriminate. Qed.

(** C3.  Whatever linear volume [v] in [0,255] a playback channel holds,
    the two bytes GET CUR returns for it, handed to SET CUR for the same
    channel (in any device state), are accepted and store a volume that
    differs from [v] by at most 1. *)
Theorem volume_code_roundtrip (s s' : USBAudioState) (cscn length length' : Z)
    (data : bytes) :
  u8 (Z.shiftr cscn 8) = VOLUME_CONTROL ->
  u8 (cscn - 1) < 2 ->
  0 <= vol_at (out_vol (out s)) (u8 (cscn - 1)) <= 255 ->
  let cn := u8 (cscn - 1) in
  let v := vol_at (out_vol (out s)) cn in
  let g := usb_audio_get_control s CR_GET_CUR cscn 0x0200 length data in
  let r := usb_audio_set_control s' CR_SET_CUR cscn 0x0200 length' (snd g) in
  fst g = 2 /\ fst r = 0
  /\ Z.abs (vol_at (out_vol (out (snd r))) cn - v) <= 1.
Proof.
  intros Hv Hcn Hvol cn v g r.
  assert (Hg : g = (2, store (store data 0 (u8 (volume_code v)))
                         1 (u8 (Z.shiftr (volume_code v) 8)))).
  { unfold g. rewrite get_control_volume_cur by (auto; left; reflexivity).
    reflexivity. }
  assert (H0 : snd g 0 = u8 (volume_code v)) by (rewrite Hg; reflexivity).
  assert (H1 : snd g 1 = u8 (Z.shiftr (volume_code v) 8))
    by (rewrite Hg; reflexivity).
  pose proof (u8_range (volume_code v)) as R0.
  pose proof (u8_range (Z.shiftr (volume_code v) 8)) as R1.
  rewrite <- H0 in R0. rewrite <- H1 in R1.
  destruct (set_control_volume_cur_out s' cscn length' (snd g) Hv Hcn R0 R1)
    as (Hret & Hst & _).
  fold r in Hret, Hst.
  split; [ rewrite Hg; reflexivity | ].
  split; [ exact Hret | ].
  rewrite Hst, vol_at_vol_set, H0, H1.
  rewrite code_of_bytes by apply volume_code_range.
  rewrite volume_of_code_volume_code by exact Hvol.
  rewrite Z.sub_diag. simpl. lia.
Qed.

Lemma volume_code_roundtrip_witness :
  let cscn := 0x0201 in
  let s := snd (usb_audio_set_control started CR_SET_CUR cscn 0x0200 2
                  (code_bytes 0xcd 0xab)) in
  let g := usb_audio_get_control s CR_GET_CUR cscn 0x0200 2 (code_bytes 0 0) in
  let r := usb_audio_set_control started CR_SET_CUR cscn 0x0200 2 (snd g) in
  u8 (Z.shiftr cscn 8) = VOLUME_CONTROL
  /\ u8 (cscn - 1) < 2
  /\ 0 <= vol_at (out_vol (out s)) (u8 (cscn - 1)) <= 255
  /\ fst g = 2 /\ fst r = 0
  /\ Z.abs (vol_at (out_vol (out (snd r))) (u8 (cscn - 1))
            - vol_at (out_vol (out s)) (u8 (cscn - 1))) <= 1.
Proof.
  cbv zeta.
  assert (Hcs : u8 (Z.shiftr 0x0201 8) = VOLUME_CONTROL) by reflexivity.
  assert (Hcn : u8 (0x0201 - 1) < 2) by reflexivity.
  assert (Hvol : 0 <= vol_at (out_vol (out
             (snd (usb_audio_set_control started CR_SET_CUR 0x0201 0x0200 2
                     (code_bytes 0xcd 0xab))))) (u8 (0x0201 - 1)) <= 255)
    by (vm_compute; split; discriminate).
  split; [ exact Hcs | split; [ exact Hcn | split; [ exact Hvol | ] ] ].
  exact (volume_code_roundtrip _ started 0x0201 2 2 (code_bytes 0 0)
           Hcs Hcn Hvol).
Defined.

(** ** The capture unit's volume answer *)

(** C9.  GET CUR (VOLUME) addressed to the capture unit (wIndex 0x0500)
    with a channel index [cn] below 2 returns 2 and the little-endian code
    of the playback volume [out.vol[cn]]: the answer is the one the playback
    unit (wIndex 0x0200) gives, and it does not depend on the capture
    unit's own volume field. *)
Theorem capture_get_cur_reads_playback_volume (s : USBAudioState)
    (cscn length : Z) (data : bytes) :
  u8 (Z.shiftr cscn 8) = VOLUME_CONTROL ->
  u8 (cscn - 1) < 2 ->
  0 <= vol_at (out_vol (out s)) (u8 (cscn - 1)) <= 255 ->
  let cn := u8 (cscn - 1) in
  let g := usb_audio_get_control s CR_GET_CUR cscn 0x0500 length data in
  fst g = 2
  /\ 0 <= snd g 0 < 256 /\ 0 <= snd g 1 < 256
  /\ snd g 0 + 256 * snd g 1 = volume_code (vol_at (out_vol (out s)) cn)
  /\ g = usb_audio_get_control s CR_GET_CUR cscn 0x0200 length data
  /\ forall v : Z,
       usb_audio_get_control (with_inp s (set_in_vol (inp s) v))
         CR_GET_CUR cscn 0x0500 length data = g.
Proof.
  intros Hv Hcn Hvol cn g.
  assert (Hg : g = (2, store (store data 0
                                (u8 (volume_code (vol_at (out_vol (out s)) cn))))
                         1 (u8 (Z.shiftr
                                  (volume_code (vol_at (out_vol (out s)) cn)) 8)))).
  { unfold g. rewrite get_control_volume_cur by (auto; right; reflexivity).
    reflexivity. }
  rewrite Hg. cbn [fst snd].
  change (store (store data 0 ?a) 1 ?b 0) with a.
  split; [ reflexivity | ].
  split; [ apply u8_range | ].
  split; [ apply u8_range | ].
  split; [ apply code_of_bytes, volume_code_range | ].
  split.
  - rewrite get_control_volume_cur by (auto; left; reflexivity). reflexivity.
  - intros v.
    rewrite get_control_volume_cur by (auto; right; reflexivity). reflexivity.
Qed.

Lemma capture_get_cur_reads_playback_volume_witness :
  let s := with_inp started (set_in_vol (inp started) 17) in
  let g := usb_audio_get_control s CR_GET_CUR 0x0202 0x0500 2 (code_bytes 9 9) in
  u8 (Z.shiftr 0x0202 8) = VOLUME_CONTROL
  /\ u8 (0x0202 - 1) < 2
  /\ 0 <= vol_at (out_vol (out s)) (u8 (0x0202 - 1)) <= 255
  /\ fst g = 2
  /\ snd g 0 + 256 * snd g 1 = volume_code 240
  /\ volume_code 240 <> volume_code 17.
Proof.
  cbv zeta.
  assert (Hcs : u8 (Z.shiftr 0x0202 8) = VOLUME_CONTROL) by reflexivity.
  assert (Hcn : u8 (0x0202 - 1) < 2) by reflexivity.
  assert (Hvol : 0 <= vol_at (out_vol (out
                   (with_inp started (set_in_vol (inp started) 17))))
                   (u8 (0x0202 - 1)) <= 255)
    by (vm_compute; split; discriminate).
  destruct (capture_get_cur_reads_playback_volume
              (with_inp started (set_in_vol (inp started) 17)) 0x0202 2
              (code_bytes 9 9) Hcs Hcn Hvol) as (Hret & _ & _ & Hcode & _).
  split; [ exact Hcs | split; [ exact Hcn | split; [ exact Hvol | ] ] ].
  split; [ exact Hret | split; [ exact Hcode | ] ].
  vm_compute. discriminate.
Defined.

(** ** Rejected requests *)

(** C2, as the code has it.  A control request whose (selector, attribute,
    target) triple has no case label, or whose selector is VOLUME and whose
    derived channel index is 2 or more, is answered with the stall result:
    usb_audio_get_control leaves the data buffer as it was, and
    usb_audio_set_control leaves the whole device state as it was.  (The
    MUTE cases do not look at the channel index.) *)
Theorem unsupported_control_stalls (s : USBAudioState)
    (attrib cscn idif length : Z) (data : bytes) :
  0 <= attrib < 256 -> 0 <= idif < 65536 ->
  let cs := u8 (Z.shiftr cscn 8) in
  let cn := u8 (cscn - 1) in
  (supported get_cases cs attrib idif = false
   \/ (cs = VOLUME_CONTROL /\ 2 <= cn) ->
   usb_audio_get_control s attrib cscn idif length data = (USB_RET_STALL, data))
  /\ (supported set_cases cs attrib idif = false
      \/ (cs = VOLUME_CONTROL /\ 2 <= cn) ->
      usb_audio_set_control s attrib cscn idif length data = (USB_RET_STALL, s)).
Proof.
  intros Ha Hi cs cn. split; intros H.
  - apply get_control_stall; assumption.
  - apply set_control_stall; assumption.
Qed.

Lemma unsupported_control_stalls_witness :
  (* BASS_CONTROL (0x03) has no case; VOLUME, channel 3 is out of range *)
  0 <= CR_GET_CUR < 256 /\ 0 <= 0x0200 < 65536
  /\ usb_audio_get_control started CR_GET_CUR 0x0301 0x0200 1 (code_bytes 5 6)
     = (USB_RET_STALL, code_bytes 5 6)
  /\ usb_audio_set_control started CR_GET_CUR 0x0203 0x0200 2 (code_bytes 5 6)
     = (USB_RET_STALL, started).
Proof.
  assert (Ha : 0 <= CR_GET_CUR < 256) by (unfold CR_GET_CUR; lia).
  assert (Hi : 0 <= 0x0200 < 65536) by lia.
  split; [ exact Ha | split; [ exact Hi | split ] ].
  - apply (unsupported_control_stalls started CR_GET_CUR 0x0301 0x0200 1
             (code_bytes 5 6) Ha Hi).
    left. reflexivity.
  - apply (unsupported_control_stalls started CR_GET_CUR 0x0203 0x0200 2
             (code_bytes 5 6) Ha Hi).
    right. split; [ reflexivity | vm_compute; discriminate ].
Defined.

(** C2 as worded fails for the MUTE selector: a request with the wire
    channel number 0 has the channel index 255, beyond both channel counts,
    and yet GET CUR (MUTE) answers with one byte and SET CUR (MUTE) changes
    the mute flag. *)
Lemma mute_ignores_channel_index :
  let g := usb_audio_get_control started CR_GET_CUR 0x0100 0x0200 1
             (code_bytes 5 6) in
  let r := usb_audio_set_control started CR_SET_CUR 0x0100 0x0200 1
             (code_bytes 1 0) in
  u8 (0x0100 - 1) = 255
  /\ fst g = 1 /\ fst g <> USB_RET_STALL
  /\ fst r = 0 /\ fst r <> USB_RET_STALL
  /\ out_mute (out started) = false
  /\ out_mute (out (snd r)) = true.
Proof. vm_compute. repeat split; discriminate. Qed.

(** The capture unit has one channel (mono, [nchannels = 1]), yet its
    VOLUME cases accept the channel index 1 as the playback cases do. *)
Example capture_volume_accepts_channel_index_1 :
  let r := usb_audio_set_control started CR_SET_CUR 0x0202 0x0500 2
             (code_bytes 0x00 0x80) in
  nchannels (in_as (inp started)) = 1
  /\ u8 (0x0202 - 1) = 1
  /\ fst r = 0
  /\ in_vol (inp started) = 240 /\ in_vol (inp (snd r)) = 0.
Proof. vm_compute. repeat split; reflexivity. Qed.

(** C10.  A GET or SET request for the VOLUME selector whose wire channel
    number (the low byte of [cscn]) is 0 has the channel index 255; it is
    answered with the stall result, with the data buffer (GET) and the
    device state (SET) left as they were, whatever the attribute and the
    target. *)
Theorem master_channel_volume_stalls (s : USBAudioState)
    (attrib cscn idif length : Z) (data : bytes) :
  0 <= attrib < 256 -> 0 <= cscn < 65536 -> 0 <= idif < 65536 ->
  u8 (Z.shiftr cscn 8) = VOLUME_CONTROL ->
  u8 cscn = 0 ->
  u8 (cscn - 1) = 255
  /\ ~ u8 (cscn - 1) < 2
  /\ usb_audio_get_control s attrib cscn idif length data = (USB_RET_STALL, data)
  /\ usb_audio_set_control s attrib cscn idif length data = (USB_RET_STALL, s).
Proof.
  intros Ha Hc Hi Hv Hlow.
  assert (Hcn : u8 (cscn - 1) = 255).
  { unfold u8 in *. change (2 ^ 8) with 256 in *.
    symmetry. apply (Z.mod_unique _ _ (cscn / 256 - 1)); [ lia | ].
    pose proof (Z.div_mod cscn 256 ltac:(lia)). lia. }
  split; [ exact Hcn | ].
  split; [ lia | ].
  split.
  - apply get_control_stall; trivial. right. split; [ exact Hv | lia ].
  - apply set_control_stall; trivial. right. split; [ exact Hv | lia ].
Qed.

Lemma master_channel_volume_stalls_witness :
  0 <= CR_SET_CUR < 256 /\ 0 <= 0x0200 < 65536
  /\ u8 (Z.shiftr 0x0200 8) = VOLUME_CONTROL
  /\ u8 0x0200 = 0
  /\ usb_audio_get_control started CR_GET_CUR 0x0200 0x0200 2 (code_bytes 5 6)
     = (USB_RET_STALL, code_bytes 5 6)
  /\ usb_audio_set_control started CR_SET_CUR 0x0200 0x0500 2 (code_bytes 5 6)
     = (USB_RET_STALL, started).
Proof.
  assert (Hs : 0 <= CR_SET_CUR < 256) by (unfold CR_SET_CUR; lia).
  assert (Hg : 0 <= CR_GET_CUR < 256) by (unfold CR_GET_CUR; lia).
  assert (Hc : 0 <= 0x0200 < 65536) by lia.
  assert (Hi : 0 <= 0x0500 < 65536) by lia.
  assert (Hv : u8 (Z.shiftr 0x0200 8) = VOLUME_CONTROL) by reflexivity.
  assert (Hl : u8 0x0200 = 0) by reflexivity.
  split; [ exact Hs | split; [ exact Hc | split; [ exact Hv | ] ] ].
  split; [ exact Hl | split ].
  - exact (proj1 (proj2 (proj2 (master_channel_volume_stalls started CR_GET_CUR
             0x0200 0x0200 2 (code_bytes 5 6) Hg Hc Hc Hv Hl)))).
  - exact (proj2 (proj2 (proj2 (master_channel_volume_stalls started CR_SET_CUR
             0x0200 0x0500 2 (code_bytes 5 6) Hs Hc Hi Hv Hl)))).
Defined.

(** ** Alt-setting transitions *)

(** C8, as the code has it.  For every requested value other than OFF (0)
    and ON (1) both transition functions return -1 and leave the whole
    device state as it was (alt-setting, ring buffer, voice, diagnostics);
    usb_audio_set_interface, which routes interface 1 and 2 to them and
    returns nothing, leaves the state as it was too. *)
Theorem invalid_altset_rejected (s : USBAudioState) (altset old : Z) :
  altset <> ALTSET_OFF -> altset <> ALTSET_ON ->
  usb_audio_set_output_altset s altset = (-1, s)
  /\ usb_audio_set_input_altset s altset = (-1, s)
  /\ usb_audio_set_interface s 1 old altset = s
  /\ usb_audio_set_interface s 2 old altset = s.
Proof.
  intros Hoff Hon.
  assert (Ho : usb_audio_set_output_altset s altset = (-1, s)).
  { destruct altset as [ | [ q | q | ] | q ]; try reflexivity.
    - contradiction Hoff; reflexivity.
    - contradiction Hon; reflexivity. }
  assert (Hi : usb_audio_set_input_altset s altset = (-1, s)).
  { destruct altset as [ | [ q | q | ] | q ]; try reflexivity.
    - contradiction Hoff; reflexivity.
    - contradiction Hon; reflexivity. }
  unfold usb_audio_set_interface. cbn [Z.eqb Pos.eqb].
  rewrite Ho, Hi. auto.
Qed.

Lemma invalid_altset_rejected_witness :
  2 <> ALTSET_OFF /\ 2 <> ALTSET_ON
  /\ usb_audio_set_output_altset started 2 = (-1, started)
  /\ usb_audio_set_interface started 1 0 2 = started.
Proof.
  assert (Hoff : 2 <> ALTSET_OFF) by discriminate.
  assert (Hon : 2 <> ALTSET_ON) by discriminate.
  destruct (invalid_altset_rejected started 2 0 Hoff Hon) as (Ho & _ & Hi & _).
  split; [ exact Hoff | split; [ exact Hon | split; [ exact Ho | exact Hi ] ] ].
Defined.

(** C8 as worded fails in its last part: usb_audio_set_interface is a
    [void] function that drops what the transition returns.  With playback
    switched on, the rejected setInterface(1,2) and the accepted
    setInterface(1,1) leave exactly the same behind, although the
    transition returned -1 for the one and 0 for the other: nothing tells
    the caller of the rejection. *)
Lemma set_interface_drops_error :
  let s := usb_audio_set_interface started 1 0 1 in
  out_altset (out s) = ALTSET_ON
  /\ fst (usb_audio_set_output_altset s 2) = -1
  /\ fst (usb_audio_set_output_altset s 1) = 0
  /\ usb_audio_set_interface s 1 1 2 = usb_audio_set_interface s 1 1 1
  /\ usb_audio_set_interface s 1 1 2 = s.
Proof. cbv zeta. repeat split; vm_compute; reflexivity. Qed.

(** ** The ring buffer *)

Lemma u32_sub_idemp_l (a b : Z) : u32 (u32 a - b) = u32 (a - b).
Proof. unfold u32. apply Zminus_mod_idemp_l. Qed.

Lemma u32_sub_idemp_r (a b : Z) : u32 (a - u32 b) = u32 (a - b).
Proof. unfold u32. apply Zminus_mod_idemp_r. Qed.

Lemma u32_add_idemp_l (a b : Z) : u32 (u32 a + b) = u32 (a + b).
Proof. unfold u32. apply Zplus_mod_idemp_l. Qed.

(** The bytes in use after the producer has moved on by [k]. *)
Lemma used_after_prod (prod cons k : Z) :
  0 <= k -> u32 (prod - cons) + k < 4294967296 ->
  u32 (u32 (prod + k) - cons) = u32 (prod - cons) + k.
Proof.
  intros Hk Hlt. rewrite u32_sub_idemp_l.
  replace (prod + k - cons) with (prod - cons + k) by lia.
  rewrite <- u32_add_idemp_l. apply u32_small.
  pose proof (u32_range (prod - cons)). lia.
Qed.

(** The bytes in use after the consumer has moved on by [k]. *)
Lemma used_after_cons (prod cons k : Z) :
  0 <= k <= u32 (prod - cons) ->
  u32 (prod - u32 (cons + k)) = u32 (prod - cons) - k.
Proof.
  intros Hk. rewrite u32_sub_idemp_r.
  replace (prod - (cons + k)) with (prod - cons - k) by lia.
  rewrite <- u32_sub_idemp_l. apply u32_small.
  pose proof (u32_range (prod - cons)). lia.
Qed.

(** C6, as the code has it.  For a buffer holding no more than its size
    and a requested length [len]: if the buffer is not empty and holds at
    least [len] bytes, streambuf_get returns the view at offset
    [cons mod size] and moves the consumer cursor on by [len] (so [len]
    bytes fewer are in use, the producer cursor and the storage being
    untouched); if the buffer is empty or holds fewer than [len] bytes, it
    returns NULL and the buffer is as it was. *)
Theorem streambuf_get_spec (buf : streambuf) (len : Z) :
  0 <= len ->
  sb_used buf <= sb_size buf ->
  (sb_used buf <> 0 /\ len <= sb_used buf ->
   streambuf_get buf len
   = Done (Some (sb_cons buf mod sb_size buf),
           set_cons buf (u32 (sb_cons buf + len)))
   /\ sb_used (set_cons buf (u32 (sb_cons buf + len))) = sb_used buf - len)
  /\ (sb_used buf = 0 \/ sb_used buf < len ->
      streambuf_get buf len = Done (None, buf)).
Proof.
  intros Hlen Hinv. unfold streambuf_get. fold (sb_used buf).
  pose proof (u32_range (sb_prod buf - sb_cons buf)) as Hu.
  fold (sb_used buf) in Hu.
  split.
  - intros [Hne Hle].
    destruct (Z.eqb_spec (sb_used buf) 0) as [ | _ ]; [ contradiction | ].
    destruct (Z.ltb_spec (sb_used buf) len) as [ | _ ]; [ lia | ].
    destruct (Z.eqb_spec (sb_size buf) 0) as [ | _ ]; [ lia | ].
    split; [ reflexivity | ].
    unfold sb_used, set_cons. cbn [sb_prod sb_cons].
    apply used_after_cons. fold (sb_used buf). lia.
  - intros [Hz | Hlt].
    + rewrite Hz. reflexivity.
    + destruct (Z.eqb_spec (sb_used buf) 0); [ reflexivity | ].
      destruct (Z.ltb_spec (sb_used buf) len); [ reflexivity | lia ].
Qed.

Lemma streambuf_get_spec_witness :
  0 <= 100
  /\ sb_used one_written <= sb_size one_written
  /\ sb_used one_written = 192
  /\ streambuf_get one_written 100
     = Done (Some 0, set_cons one_written 100)
  /\ streambuf_get one_written 193 = Done (None, one_written).
Proof.
  assert (Hlen : 0 <= 100) by lia.
  assert (Hlen' : 0 <= 193) by lia.
  assert (Hinv : sb_used one_written <= sb_size one_written)
    by (vm_compute; discriminate).
  assert (Hu : sb_used one_written = 192) by reflexivity.
  split; [ exact Hlen | split; [ exact Hinv | split; [ exact Hu | split ] ] ].
  - apply (proj1 (streambuf_get_spec one_written 100 Hlen Hinv)).
    rewrite Hu. split; [ discriminate | lia ].
  - apply (proj2 (streambuf_get_spec one_written 193 Hlen' Hinv)).
    right. rewrite Hu. lia.
Defined.

(** C6 as worded fails for the length 0 on an empty buffer: the buffer
    holds at least 0 bytes, yet the call returns NULL and not a view. *)
Lemma streambuf_get_empty_zero_length :
  sb_prod two_packets - sb_cons two_packets >= 0
  /\ streambuf_get two_packets 0 = Done (None, two_packets)
  /\ streambuf_get two_packets 0
     <> Done (Some (sb_cons two_packets mod sb_size two_packets),
              set_cons two_packets (u32 (sb_cons two_packets + 0))).
Proof.
  split; [ vm_compute; discriminate | ].
  split; [ reflexivity | ].
  change (streambuf_get two_packets 0) with (Done (@None Z, two_packets)).
  discriminate.
Qed.

Lemma mem_read_ok (m : list Z) (off n : Z) :
  0 <= off -> 0 <= n -> off + n <= len m ->
  mem_read m off n = Done (firstn (Z.to_nat n) (skipn (Z.to_nat off) m)).
Proof.
  intros H1 H2 H3. unfold mem_read.
  destruct (Z.leb_spec 0 off); [ | lia ].
  destruct (Z.leb_spec 0 n); [ | lia ].
  destruct (Z.leb_spec (off + n) (len m)); [ reflexivity | lia ].
Qed.

Lemma mem_write_ok (m : list Z) (off : Z) (chunk : list Z) :
  0 <= off -> off + len chunk <= len m ->
  mem_write m off chunk
  = Done (firstn (Z.to_nat off) m ++ chunk
          ++ skipn (Z.to_nat (off + len chunk)) m).
Proof.
  intros H1 H2. unfold mem_write.
  destruct (Z.leb_spec 0 off); [ | lia ].
  destruct (Z.leb_spec (off + len chunk) (len m)); [ reflexivity | lia ].
Qed.

Lemma len_firstn_skipn (m : list Z) (off n : Z) :
  0 <= off -> 0 <= n -> off + n <= len m ->
  len (firstn (Z.to_nat n) (skipn (Z.to_nat off) m)) = n.
Proof.
  unfold len. intros H1 H2 H3.
  rewrite length_firstn, length_skipn. lia.
Qed.

(** What a returning usb_packet_copy leaves in the packet. *)
Lemma usb_packet_copy_done (p p' : USBPacket) (m m' : list Z) (off n : Z) :
  usb_packet_copy p m off n = Done (p', m') ->
  actual_length p' = actual_length p + n /\ status p' = status p
  /\ pid p' = pid p.
Proof.
  unfold usb_packet_copy, bind. intros H.
  destruct (negb _); [ discriminate | ].
  destruct (pid p) eqn:Hpid;
    repeat match type of H with
           | match ?r with Done _ => _ | Fault _ => _ end = _ =>
               destruct r; [ | discriminate ]
           end;
    injection H as <- <-; cbn; rewrite ?Hpid; auto.
Qed.

(** A streambuf_put that returns has either found no free byte and
    changed nothing, or found a whole packet free and advanced by it. *)
Lemma streambuf_put_done (buf buf' : streambuf) (p p' : USBPacket) (n : Z) :
  streambuf_put buf p = Done (n, buf', p') ->
  (sb_free buf = 0 /\ n = 0 /\ buf' = buf /\ p' = p)
  \/ (USBAUDIO_PACKET_SIZE <= sb_free buf
      /\ n = USBAUDIO_PACKET_SIZE
      /\ sb_prod buf' = u32 (sb_prod buf + USBAUDIO_PACKET_SIZE)
      /\ sb_cons buf' = sb_cons buf /\ sb_size buf' = sb_size buf
      /\ actual_length p' = actual_length p + USBAUDIO_PACKET_SIZE
      /\ status p' = status p).
Proof.
  unfold streambuf_put. fold (sb_used buf). fold (sb_free buf).
  unfold USBAUDIO_PACKET_SIZE. intros H.
  destruct (Z.eqb_spec (sb_free buf) 0).
  - left. injection H as <- <- <-. auto.
  - destruct (Z.leb_spec 192 (sb_free buf)); [ | discriminate ].
    cbn [negb] in H.
    destruct (Z.eqb_spec (sb_size buf) 0); [ discriminate | ].
    unfold bind in H.
    destruct (usb_packet_copy p (sb_data buf) (sb_prod buf mod sb_size buf) 192)
      as [ [q m] | ] eqn:Hcopy; [ | discriminate ].
    apply usb_packet_copy_done in Hcopy. destruct Hcopy as (Hal & Hst & _).
    injection H as <- <- <-. right. cbn. repeat split; assumption.
Qed.

Lemma streambuf_put_full (buf : streambuf) (p : USBPacket) :
  sb_free buf = 0 -> streambuf_put buf p = Done (0, buf, p).
Proof.
  unfold streambuf_put. fold (sb_used buf). fold (sb_free buf).
  intros ->. reflexivity.
Qed.


Lemma streambuf_put_copies (buf : streambuf) (p : USBPacket) :
  USBAUDIO_PACKET_SIZE <= sb_free buf ->
  0 < sb_size buf ->
  sb_prod buf mod sb_size buf + USBAUDIO_PACKET_SIZE <= len (sb_data buf) ->
  pid p = USB_TOKEN_OUT ->
  0 <= actual_length p ->
  actual_length p + USBAUDIO_PACKET_SIZE <= len (iov p) ->
  let off := sb_prod buf mod sb_size buf in
  let chunk := firstn (Z.to_nat USBAUDIO_PACKET_SIZE)
                 (skipn (Z.to_nat (actual_length p)) (iov p)) in
  len chunk = USBAUDIO_PACKET_SIZE
  /\ streambuf_put buf p
     = Done (USBAUDIO_PACKET_SIZE,
             set_prod buf
               (firstn (Z.to_nat off) (sb_data buf) ++ chunk
                ++ skipn (Z.to_nat (off + USBAUDIO_PACKET_SIZE)) (sb_data buf))
               (u32 (sb_prod buf + USBAUDIO_PACKET_SIZE)),
             advance p USBAUDIO_PACKET_SIZE).
Proof.
  intros Hfree Hsize Hoff Hpid Hal Hiov off chunk.
  unfold streambuf_put. fold (sb_used buf). fold (sb_free buf).
  unfold USBAUDIO_PACKET_SIZE in *.
  assert (Hchunk : len chunk = 192) by (apply len_firstn_skipn; lia).
  split; [ exact Hchunk | ].
  destruct (Z.eqb_spec (sb_free buf) 0); [ lia | ].
  destruct (Z.leb_spec 192 (sb_free buf)); [ | lia ].
  destruct (Z.eqb_spec (sb_size buf) 0); [ lia | ].
  cbn [negb].
  pose proof (Z.mod_pos_bound (sb_prod buf) (sb_size buf) Hsize).
  unfold usb_packet_copy.
  destruct (Z.leb_spec 0 (actual_length p)); [ | lia ].
  destruct (Z.leb_spec (actual_length p + 192) (len (iov p))); [ | lia ].
  cbn [andb negb]. rewrite Hpid.
  rewrite mem_read_ok by lia. cbn [bind]. fold chunk.
  rewrite mem_write_ok by (rewrite ?Hchunk; fold off; lia).
  cbn [bind]. rewrite Hchunk. rewrite <- Hpid. reflexivity.
Qed.




(** The assertion of streambuf_put at work: with 100 bytes free, less than
    a packet but not zero, the call does not return 0; the assertion fails.
    Such a buffer takes a read of 100 bytes; the device reads its playback
    buffer in whole packets only. *)
Lemma streambuf_put_partly_free_asserts :
  sb_run partly_free_ops two_packets = Done partly_free
  /\ sb_size partly_free - (sb_prod partly_free - sb_cons partly_free) = 100
  /\ streambuf_put partly_free (out_packet 9) = Fault AssertionFailed
  /\ streambuf_put partly_free (out_packet 9)
     <> Done (0, partly_free, out_packet 9).
Proof.
  split; [ vm_compute; reflexivity | ].
  split; [ reflexivity | ].
  assert (H : streambuf_put partly_free (out_packet 9) = Fault AssertionFailed)
    by (vm_compute; reflexivity).
  split; [ exact H | rewrite H; discriminate ].
Qed.

(** ** Sequences of buffer operations *)

Lemma streambuf_init_inv (buf : streambuf) (c : Z) :
  0 <= c < 2 ^ 32 -> sb_inv (streambuf_init buf c).
Proof.
  intros Hc. unfold sb_inv, streambuf_init, USBAUDIO_PACKET_SIZE.
  cbn [sb_size sb_prod sb_cons].
  pose proof (Z.mod_pos_bound c 192 ltac:(lia)).
  pose proof (Z.mod_le c 192 ltac:(lia) ltac:(lia)).
  change (u32 (0 - 0)) with 0. lia.
Qed.

Lemma streambuf_get_done (buf buf' : streambuf) (n : Z) (r : option Z) :
  streambuf_get buf n = Done (r, buf') ->
  (r = None /\ buf' = buf)
  \/ (sb_used buf <> 0 /\ n <= sb_used buf
      /\ r = Some (sb_cons buf mod sb_size buf)
      /\ buf' = set_cons buf (u32 (sb_cons buf + n))).
Proof.
  unfold streambuf_get. fold (sb_used buf). intros H.
  destruct (Z.eqb_spec (sb_used buf) 0).
  - left. injection H as <- <-. auto.
  - destruct (Z.ltb_spec (sb_used buf) n).
    + left. injection H as <- <-. auto.
    + cbn [orb] in H.
      destruct (sb_size buf =? 0); [ discriminate | ].
      right. injection H as <- <-. auto.
Qed.

Lemma streambuf_alloc_done (buf buf' : streambuf) (n : Z) (r : option Z) :
  streambuf_alloc buf n = Done (r, buf') ->
  (r = None /\ buf' = buf)
  \/ (sb_free buf <> 0 /\ u32 n <= sb_free buf
      /\ r = Some (sb_prod buf mod sb_size buf)
      /\ buf' = set_prod buf (sb_data buf) (u32 (sb_prod buf + u32 n))).
Proof.
  unfold streambuf_alloc. fold (sb_used buf). fold (sb_free buf). intros H.
  destruct (Z.eqb_spec (sb_free buf) 0).
  - left. injection H as <- <-. auto.
  - destruct (Z.ltb_spec (sb_free buf) (u32 n)).
    + left. injection H as <- <-. auto.
    + cbn [orb] in H.
      destruct (sb_size buf =? 0); [ discriminate | ].
      right. injection H as <- <-. auto.
Qed.

(** With the invariant, the free bytes are the size less the bytes used. *)
Lemma sb_free_inv (buf : streambuf) :
  sb_inv buf -> sb_free buf = sb_size buf - sb_used buf.
Proof.
  unfold sb_inv, sb_free, sb_used. intros (Hs & _ & _ & Hu).
  pose proof (u32_range (sb_prod buf - sb_cons buf)).
  apply u32_small. change (2 ^ 32) with 4294967296 in Hs. lia.
Qed.

Lemma sb_step_inv (buf buf' : streambuf) (op : sb_op) :
  op_typed op -> sb_inv buf -> sb_step buf op = Done buf' -> sb_inv buf'.
Proof.
  intros Hty Hinv H.
  pose proof (sb_free_inv buf Hinv) as Hfree.
  pose proof (u32_range (sb_prod buf - sb_cons buf)) as Hu.
  destruct Hinv as (Hs & Hp & Hc & Hle).
  fold (sb_used buf) in Hle, Hu.
  change (2 ^ 32) with 4294967296 in *.
  destruct op as [ p | n | n ]; cbn [sb_step] in H; unfold bind in H.
  - destruct (streambuf_put buf p) as [ [[k b] q] | ] eqn:Hput;
      [ | discriminate ].
    injection H as <-.
    destruct (streambuf_put_done _ _ _ _ _ Hput)
      as [ (_ & _ & -> & _) | (Hf & _ & Hp' & Hc' & Hs' & _) ].
    + unfold sb_inv. change (2 ^ 32) with 4294967296. auto.
    + unfold sb_inv, USBAUDIO_PACKET_SIZE in *.
      change (2 ^ 32) with 4294967296.
      rewrite Hp', Hc', Hs'.
      rewrite used_after_prod by (fold (sb_used buf); lia).
      pose proof (u32_range (sb_prod buf + 192)).
      fold (sb_used buf). lia.
  - destruct (streambuf_get buf n) as [ [r b] | ] eqn:Hget; [ | discriminate ].
    injection H as <-.
    destruct (streambuf_get_done _ _ _ _ Hget)
      as [ (_ & ->) | (Hne & Hn & _ & ->) ].
    + unfold sb_inv. change (2 ^ 32) with 4294967296. auto.
    + unfold sb_inv, set_cons. cbn [sb_size sb_prod sb_cons].
      change (2 ^ 32) with 4294967296.
      cbn [op_typed] in Hty.
      rewrite used_after_cons by (fold (sb_used buf); lia).
      pose proof (u32_range (sb_cons buf + n)).
      fold (sb_used buf). lia.
  - destruct (streambuf_alloc buf n) as [ [r b] | ] eqn:Hal; [ | discriminate ].
    injection H as <-.
    destruct (streambuf_alloc_done _ _ _ _ Hal)
      as [ (_ & ->) | (Hne & Hn & _ & ->) ].
    + unfold sb_inv. change (2 ^ 32) with 4294967296. auto.
    + unfold sb_inv, set_prod. cbn [sb_size sb_prod sb_cons].
      change (2 ^ 32) with 4294967296.
      pose proof (u32_range n).
      rewrite used_after_prod by (fold (sb_used buf); lia).
      pose proof (u32_range (sb_prod buf + u32 n)).
      fold (sb_used buf). lia.
Qed.

Lemma sb_run_inv (ops : list sb_op) :
  Forall op_typed ops ->
  forall buf buf' : streambuf,
    sb_inv buf -> sb_run ops buf = Done buf' -> sb_inv buf'.
Proof.
  induction 1 as [ | op ops Hop Hops IH ]; intros buf buf' Hinv H.
  - injection H as <-. exact Hinv.
  - cbn [sb_run] in H. unfold bind in H.
    destruct (sb_step buf op) as [ b | ] eqn:Hstep; [ | discriminate ].
    apply (IH b buf'); [ | exact H ].
    exact (sb_step_inv buf b op Hop Hinv Hstep).
Qed.

(** C4.  After streambuf_init with a 32-bit [capacity] both cursors are 0
    and the size is [capacity - capacity mod 192]; and after every sequence
    of streambuf_put, streambuf_get and streambuf_alloc calls that return,
    started from there, the bytes in use, [prod - cons] taken modulo 2^32,
    lie between 0 and the size: [cons <= prod <= cons + size] in cursor
    arithmetic modulo 2^32, and literally so whenever the producer cursor
    has not wrapped past the consumer cursor. *)
Theorem streambuf_cursor_invariant (buf0 buf : streambuf) (capacity : Z)
    (ops : list sb_op) :
  0 <= capacity < 2 ^ 32 ->
  Forall op_typed ops ->
  (sb_prod (streambuf_init buf0 capacity) = 0
   /\ sb_cons (streambuf_init buf0 capacity) = 0
   /\ sb_size (streambuf_init buf0 capacity)
      = capacity - capacity mod USBAUDIO_PACKET_SIZE
   /\ len (sb_data (streambuf_init buf0 capacity))
      = sb_size (streambuf_init buf0 capacity))
  /\ (sb_run ops (streambuf_init buf0 capacity) = Done buf ->
      0 <= (sb_prod buf - sb_cons buf) mod 2 ^ 32 <= sb_size buf
      /\ (sb_cons buf <= sb_prod buf ->
          sb_prod buf <= sb_cons buf + sb_size buf)).
Proof.
  intros Hc Hops. split.
  - cbn [streambuf_init sb_prod sb_cons sb_size sb_data].
    repeat split. unfold g_malloc, len. rewrite repeat_length.
    unfold USBAUDIO_PACKET_SIZE.
    pose proof (Z.mod_le capacity 192 ltac:(lia) ltac:(lia)). lia.
  - intros Hrun.
    pose proof (sb_run_inv ops Hops _ _ (streambuf_init_inv buf0 capacity Hc) Hrun)
      as (Hs & Hp & Hcs & Hle).
    fold (u32 (sb_prod buf - sb_cons buf)).
    pose proof (u32_range (sb_prod buf - sb_cons buf)).
    split; [ lia | ].
    intros Hord. rewrite u32_small in Hle by (change (2 ^ 32) with 4294967296 in *; lia).
    lia.
Qed.

Lemma streambuf_cursor_invariant_witness :
  0 <= 2 * USBAUDIO_PACKET_SIZE + 5 < 2 ^ 32
  /\ Forall op_typed (partly_free_ops ++ [ OpAlloc 50 ])
  /\ sb_run (partly_free_ops ++ [ OpAlloc 50 ]) two_packets
     = Done (set_prod partly_free (sb_data partly_free) 434)
  /\ sb_size two_packets = 384
  /\ 0 <= (434 - 100) mod 2 ^ 32 <= 384.
Proof.
  assert (Hc : 0 <= 2 * USBAUDIO_PACKET_SIZE + 5 < 2 ^ 32)
    by (vm_compute; split; [ discriminate | reflexivity ]).
  assert (Hops : Forall op_typed (partly_free_ops ++ [ OpAlloc 50 ])).
  { repeat constructor; cbn; lia. }
  assert (Hrun : sb_run (partly_free_ops ++ [ OpAlloc 50 ]) two_packets
                 = Done (set_prod partly_free (sb_data partly_free) 434))
    by (vm_compute; reflexivity).
  destruct (streambuf_cursor_invariant (mkstreambuf [] 0 0 0)
              (set_prod partly_free (sb_data partly_free) 434)
              (2 * USBAUDIO_PACKET_SIZE + 5) (partly_free_ops ++ [ OpAlloc 50 ])
              Hc Hops) as ((_ & _ & Hs & _) & Hinv).
  split; [ exact Hc | split; [ exact Hops | split; [ exact Hrun | ] ] ].
  split; [ exact Hs | ].
  exact (proj1 (Hinv Hrun)).
Defined.

(** ** Data-out transfers *)

Lemma with_out_same (s : USBAudioState) :
  with_out s (set_out_buf (out s) (out_buf (out s))) = s.
Proof. destruct s as [ [ a b c d e f ] i dbg bf log ]. reflexivity. Qed.






(** * Further properties *)

(** ** Mute and volume requests *)

(** The answers of usb_audio_get_control depend on the playback unit's
    fields and on the capture unit's mute flag only. *)
Lemma get_control_ext (s s' : USBAudioState) (attrib cscn idif length : Z)
    (data : bytes) :
  out_mute (out s) = out_mute (out s') ->
  out_vol (out s) = out_vol (out s') ->
  in_mute (inp s) = in_mute (inp s') ->
  usb_audio_get_control s attrib cscn idif length data
  = usb_audio_get_control s' attrib cscn idif length data.
Proof.
  intros Hm Hv Hi. unfold usb_audio_get_control. rewrite Hm, Hv, Hi.
  reflexivity.
Qed.

(** X1.  SET CUR (MUTE) on either unit, whatever the channel byte, returns
    0 and sets the unit's mute flag to bit 0 of the data byte; it hands the
    flag to the unit's voice, leaves all volumes alone, and a GET CUR
    (MUTE) on the unit then answers with one byte holding that bit. *)
Theorem mute_set_then_get (s : USBAudioState) (cscn cscn' idif length length' : Z)
    (data data' : bytes) :
  u8 (Z.shiftr cscn 8) = MUTE_CONTROL ->
  u8 (Z.shiftr cscn' 8) = MUTE_CONTROL ->
  idif = 0x0200 \/ idif = 0x0500 ->
  let r := usb_audio_set_control s CR_SET_CUR cscn idif length data in
  let g := usb_audio_get_control (snd r) CR_GET_CUR cscn' idif length' data' in
  fst r = 0
  /\ fst g = 1
  /\ snd g 0 = Z.land (data 0) 1
  /\ (forall j : Z, j <> 0 -> snd g j = data' j)
  /\ out_vol (out (snd r)) = out_vol (out s)
  /\ in_vol (inp (snd r)) = in_vol (inp s)
  /\ (idif = 0x0200 ->
      voice_mute (out_voice (out (snd r))) = (Z.land (data 0) 1 =? 1)
      /\ inp (snd r) = inp s)
  /\ (idif = 0x0500 ->
      voice_mute (in_voice (inp (snd r))) = (Z.land (data 0) 1 =? 1)
      /\ out (snd r) = out s).
Proof.
  intros Hcs Hcs' Hi r g.
  assert (Hbit : forall x : Z, Z.b2z (Z.land x 1 =? 1) = Z.land x 1).
  { intros x.
    replace (Z.land x 1) with (x mod 2)
      by (symmetry; apply (Z.land_ones x 1); lia).
    pose proof (Z.mod_pos_bound x 2 ltac:(lia)).
    destruct (Z.eqb_spec (x mod 2) 1) as [ -> | Hne ]; simpl; lia. }
  assert (Hst : forall (d : bytes) (v j : Z), j <> 0 -> store d 0 v j = d j).
  { intros d v j Hj. unfold store. destruct (Z.eqb_spec j 0); [ lia | reflexivity ]. }
  unfold g, r, usb_audio_get_control, usb_audio_set_control.
  rewrite Hcs, Hcs'.
  destruct Hi; subst idif; eval_closed_tests; cbn [fst snd];
    rewrite ?out_set_vol_diag, ?inp_set_vol_diag; cbn;
    (split; [ reflexivity | ]); (split; [ reflexivity | ]);
    (split; [ apply Hbit | ]); (split; [ apply Hst | ]);
    repeat split; try discriminate.
Qed.

Lemma mute_set_then_get_witness :
  let r := usb_audio_set_control started CR_SET_CUR 0x0100 0x0500 1
             (code_bytes 0x03 0) in
  let g := usb_audio_get_control (snd r) CR_GET_CUR 0x0100 0x0500 1
             (code_bytes 9 9) in
  u8 (Z.shiftr 0x0100 8) = MUTE_CONTROL
  /\ fst r = 0 /\ fst g = 1 /\ snd g 0 = 1.
Proof.
  assert (Hcs : u8 (Z.shiftr 0x0100 8) = MUTE_CONTROL) by reflexivity.
  destruct (mute_set_then_get started 0x0100 0x0100 0x0500 1 1
              (code_bytes 0x03 0) (code_bytes 9 9) Hcs Hcs
              (or_intror eq_refl)) as (Hr & Hg & Hb & _).
  split; [ exact Hcs | split; [ exact Hr | split; [ exact Hg | exact Hb ] ] ].
Defined.

(** The signed value of the code of a linear volume. *)
Lemma signed16_volume_code (v : Z) :
  0 <= v <= 255 ->
  signed16 (volume_code v) = (v * 0x8800 + 127) / 255 - 0x8000.
Proof.
  intros Hv. unfold signed16, volume_code.
  set (e := (v * 0x8800 + 127) / 255).
  assert (He : 0 <= e <= 0x8800).
  { split.
    - apply Z.div_pos; lia.
    - assert (e < 0x8801) by (apply Z.div_lt_upper_bound; lia). lia. }
  destruct (Z.lt_ge_cases e 0x8000).
  - rewrite (Z.mod_small (e + 0x8000)) by lia.
    destruct (Z.ltb_spec (e + 0x8000) 0x8000); lia.
  - replace ((e + 0x8000) mod 0x10000) with (e - 0x8000)
      by (apply (Z.mod_unique _ _ 1); lia).
    destruct (Z.ltb_spec (e - 0x8000) 0x8000); lia.
Qed.

(** The code the two answer bytes of GET CUR (VOLUME) spell. *)
Lemma get_cur_answer_code (s : USBAudioState) (cscn idif length : Z)
    (data : bytes) :
  idif = 0x0200 \/ idif = 0x0500 ->
  u8 (Z.shiftr cscn 8) = VOLUME_CONTROL ->
  u8 (cscn - 1) < 2 ->
  0 <= vol_at (out_vol (out s)) (u8 (cscn - 1)) <= 255 ->
  let g := usb_audio_get_control s CR_GET_CUR cscn idif length data in
  fst g = 2
  /\ snd g 0 + 256 * snd g 1
     = volume_code (vol_at (out_vol (out s)) (u8 (cscn - 1))).
Proof.
  intros Hi Hv Hcn Hvol g. unfold g.
  rewrite get_control_volume_cur by assumption. cbv zeta. cbn [fst snd].
  split; [ reflexivity | ].
  change (store (store data 0 ?a) 1 ?b 0) with a.
  change (store (store data 0 ?a) 1 ?b 1) with b.
  apply code_of_bytes, volume_code_range.
Qed.

(** X2.  Read as signed 16-bit values, the codes GET CUR (VOLUME) answers
    with grow strictly with the stored linear volume: one step of the
    volume raises the code by 136 or 137, the advertised resolution 0x0088
    being 136; and all of them lie between -32768 (volume 0, the code
    0x8000) and 2048 (volume 255, the code 0x0800 that GET MAX gives). *)
Theorem get_cur_code_monotone (s1 s2 : USBAudioState) (cscn length : Z)
    (data : bytes) :
  u8 (Z.shiftr cscn 8) = VOLUME_CONTROL ->
  u8 (cscn - 1) < 2 ->
  let cn := u8 (cscn - 1) in
  let v1 := vol_at (out_vol (out s1)) cn in
  let v2 := vol_at (out_vol (out s2)) cn in
  0 <= v1 -> v1 < v2 -> v2 <= 255 ->
  let g1 := usb_audio_get_control s1 CR_GET_CUR cscn 0x0200 length data in
  let g2 := usb_audio_get_control s2 CR_GET_CUR cscn 0x0200 length data in
  let c1 := signed16 (snd g1 0 + 256 * snd g1 1) in
  let c2 := signed16 (snd g2 0 + 256 * snd g2 1) in
  - 32768 <= c1 /\ c1 < c2 /\ c2 <= 2048
  /\ 136 * (v2 - v1) <= c2 - c1 <= 137 * (v2 - v1)
  /\ (v1 = 0 -> c1 = - 32768) /\ (v2 = 255 -> c2 = 2048).
Proof.
  intros Hv Hcn cn v1 v2 H1 H12 H2 g1 g2 c1 c2.
  destruct (get_cur_answer_code s1 cscn 0x0200 length data
              (or_introl eq_refl) Hv Hcn) as (_ & E1); [ fold cn v1; lia | ].
  destruct (get_cur_answer_code s2 cscn 0x0200 length data
              (or_introl eq_refl) Hv Hcn) as (_ & E2); [ fold cn v2; lia | ].
  fold cn v1 g1 in E1. fold cn v2 g2 in E2.
  unfold c1, c2. rewrite E1, E2.
  rewrite !signed16_volume_code by lia.
  pose proof (Z.div_mod (v1 * 0x8800 + 127) 255 ltac:(lia)) as D1.
  pose proof (Z.mod_pos_bound (v1 * 0x8800 + 127) 255 ltac:(lia)) as M1.
  pose proof (Z.div_mod (v2 * 0x8800 + 127) 255 ltac:(lia)) as D2.
  pose proof (Z.mod_pos_bound (v2 * 0x8800 + 127) 255 ltac:(lia)) as M2.
  set (e1 := (v1 * 0x8800 + 127) / 255) in *.
  set (e2 := (v2 * 0x8800 + 127) / 255) in *.
  repeat split; lia.
Qed.

Lemma get_cur_code_monotone_witness :
  let s1 := snd (usb_audio_set_control started CR_SET_CUR 0x0201 0x0200 2
                   (code_bytes 0x00 0x80)) in
  let g1 := usb_audio_get_control s1 CR_GET_CUR 0x0201 0x0200 2 (code_bytes 0 0) in
  let g2 := usb_audio_get_control started CR_GET_CUR 0x0201 0x0200 2
              (code_bytes 0 0) in
  u8 (Z.shiftr 0x0201 8) = VOLUME_CONTROL
  /\ u8 (0x0201 - 1) < 2
  /\ vol_at (out_vol (out s1)) 0 = 0 /\ vol_at (out_vol (out started)) 0 = 240
  /\ signed16 (snd g1 0 + 256 * snd g1 1)
     < signed16 (snd g2 0 + 256 * snd g2 1).
Proof.
  cbv zeta.
  assert (Hcs : u8 (Z.shiftr 0x0201 8) = VOLUME_CONTROL) by reflexivity.
  assert (Hcn : u8 (0x0201 - 1) < 2) by reflexivity.
  split; [ exact Hcs | split; [ exact Hcn | ] ].
  split; [ reflexivity | split; [ reflexivity | ] ].
  refine (proj1 (proj2 (get_cur_code_monotone
            (snd (usb_audio_set_control started CR_SET_CUR 0x0201 0x0200 2
                    (code_bytes 0x00 0x80)))
            started 0x0201 2 (code_bytes 0 0) Hcs Hcn _ _ _)));
    vm_compute; try reflexivity; discriminate.
Defined.

(** X3.  The advertised range covers the whole linear range: on the
    playback unit the two bytes GET MIN answers with (0x8001), handed to
    SET CUR, store the volume 0, and the two bytes of GET MAX (0x0800)
    store 255. *)
Theorem advertised_range_endpoints (s s' : USBAudioState) (cscn length : Z)
    (data : bytes) :
  u8 (Z.shiftr cscn 8) = VOLUME_CONTROL ->
  u8 (cscn - 1) < 2 ->
  let cn := u8 (cscn - 1) in
  let gmin := usb_audio_get_control s CR_GET_MIN cscn 0x0200 length data in
  let gmax := usb_audio_get_control s CR_GET_MAX cscn 0x0200 length data in
  let rmin := usb_audio_set_control s' CR_SET_CUR cscn 0x0200 length (snd gmin) in
  let rmax := usb_audio_set_control s' CR_SET_CUR cscn 0x0200 length (snd gmax) in
  fst gmin = 2 /\ fst gmax = 2
  /\ fst rmin = 0 /\ vol_at (out_vol (out (snd rmin))) cn = 0
  /\ fst rmax = 0 /\ vol_at (out_vol (out (snd rmax))) cn = 255.
Proof.
  intros Hv Hcn cn gmin gmax rmin rmax.
  assert (Hmin : gmin = (2, store (store data 0 0x01) 1 0x80)).
  { unfold gmin, usb_audio_get_control. rewrite Hv.
    apply Z.ltb_lt in Hcn. rewrite Hcn. eval_closed_tests. reflexivity. }
  assert (Hmax : gmax = (2, store (store data 0 0x00) 1 0x08)).
  { unfold gmax, usb_audio_get_control. rewrite Hv.
    apply Z.ltb_lt in Hcn. rewrite Hcn. eval_closed_tests. reflexivity. }
  destruct (set_control_volume_cur_out s' cscn length (snd gmin) Hv Hcn)
    as (R1 & V1 & _); [ rewrite Hmin; cbn; lia | rewrite Hmin; cbn; lia | ].
  destruct (set_control_volume_cur_out s' cscn length (snd gmax) Hv Hcn)
    as (R2 & V2 & _); [ rewrite Hmax; cbn; lia | rewrite Hmax; cbn; lia | ].
  fold rmin in R1, V1. fold rmax in R2, V2. fold cn in V1, V2.
  rewrite Hmin, Hmax, V1, V2, !vol_at_vol_set.
  repeat split; trivial; rewrite ?Hmin, ?Hmax; reflexivity.
Qed.

Lemma advertised_range_endpoints_witness :
  let gmax := usb_audio_get_control started CR_GET_MAX 0x0202 0x0200 2
                (code_bytes 7 7) in
  let rmax := usb_audio_set_control started CR_SET_CUR 0x0202 0x0200 2
                (snd gmax) in
  u8 (Z.shiftr 0x0202 8) = VOLUME_CONTROL /\ u8 (0x0202 - 1) < 2
  /\ fst gmax = 2 /\ vol_at (out_vol (out (snd rmax))) 1 = 255.
Proof.
  assert (Hcs : u8 (Z.shiftr 0x0202 8) = VOLUME_CONTROL) by reflexivity.
  assert (Hcn : u8 (0x0202 - 1) < 2) by reflexivity.
  destruct (advertised_range_endpoints started started 0x0202 2 (code_bytes 7 7)
              Hcs Hcn) as (_ & Hg & _ & _ & _ & Hv).
  split; [ exact Hcs | split; [ exact Hcn | split; [ exact Hg | exact Hv ] ] ].
Defined.

Lemma signed16_offset (code : Z) :
  0 <= code < 0x10000 ->
  (code - 0x8000) mod 0x10000 = signed16 code + 0x8000.
Proof.
  intros Hc. unfold signed16. destruct (Z.ltb_spec code 0x8000).
  - symmetry. apply (Z.mod_unique _ _ (-1)); lia.
  - symmetry. apply (Z.mod_unique _ _ 0); lia.
Qed.

(** X4.  Setting a playback volume code and reading it back: for a code
    within the device's range (signed value at most 2048, the maximum) the
    code GET CUR answers with differs from the one SET CUR was given by at
    most 69, about a quarter of a dB; a code above the maximum reads back
    as the maximum 0x0800. *)
Theorem set_then_get_code (s : USBAudioState) (cscn length length' : Z)
    (data data' : bytes) :
  u8 (Z.shiftr cscn 8) = VOLUME_CONTROL ->
  u8 (cscn - 1) < 2 ->
  0 <= data 0 < 256 -> 0 <= data 1 < 256 ->
  let code := data 0 + 256 * data 1 in
  let r := usb_audio_set_control s CR_SET_CUR cscn 0x0200 length data in
  let g := usb_audio_get_control (snd r) CR_GET_CUR cscn 0x0200 length' data' in
  let code' := snd g 0 + 256 * snd g 1 in
  fst r = 0 /\ fst g = 2
  /\ (signed16 code <= 2048 -> Z.abs (signed16 code' - signed16 code) <= 69)
  /\ (2048 < signed16 code -> code' = 0x0800).
Proof.
  intros Hv Hcn H0 H1 code r g code'.
  destruct (set_control_volume_cur_out s cscn length data Hv Hcn H0 H1)
    as (Hr & Hvol & _).
  fold r code in Hr, Hvol.
  assert (Hst : vol_at (out_vol (out (snd r))) (u8 (cscn - 1))
                = volume_of_code code)
    by (rewrite Hvol; apply vol_at_vol_set).
  pose proof (volume_of_code_range code) as Hrange.
  destruct (get_cur_answer_code (snd r) cscn 0x0200 length' data'
              (or_introl eq_refl) Hv Hcn) as (Hg & Hc);
    [ rewrite Hst; exact Hrange | ].
  fold g code' in Hg, Hc. rewrite Hst in Hc.
  split; [ exact Hr | split; [ exact Hg | ] ].
  assert (Hcode : 0 <= code < 0x10000) by (unfold code; lia).
  pose proof (signed16_offset code Hcode) as Hw.
  pose proof (signed16_volume_code (volume_of_code code) Hrange) as He.
  rewrite <- Hc in He.
  unfold volume_of_code in *. rewrite Hw in *.
  set (w := signed16 code + 0x8000) in *.
  assert (Hwr : 0 <= w < 0x10000)
    by (rewrite <- Hw; apply Z.mod_pos_bound; lia).
  pose proof (Z.div_mod (w * 255 + 0x4400) 0x8800 ltac:(lia)) as D1.
  pose proof (Z.mod_pos_bound (w * 255 + 0x4400) 0x8800 ltac:(lia)) as M1.
  set (q := (w * 255 + 0x4400) / 0x8800) in *.
  split.
  - intros Hin. assert (Hq : q <= 255) by lia.
    rewrite Z.min_r in * by lia.
    pose proof (Z.div_mod (q * 0x8800 + 127) 255 ltac:(lia)) as D2.
    pose proof (Z.mod_pos_bound (q * 0x8800 + 127) 255 ltac:(lia)) as M2.
    set (e := (q * 0x8800 + 127) / 255) in *. lia.
  - intros Hout. assert (Hq : 255 <= q) by lia.
    rewrite Z.min_l in * by lia. rewrite Hc. reflexivity.
Qed.

Lemma set_then_get_code_witness :
  let data := code_bytes 0x34 0xf2 in
  let r := usb_audio_set_control started CR_SET_CUR 0x0201 0x0200 2 data in
  let g := usb_audio_get_control (snd r) CR_GET_CUR 0x0201 0x0200 2
             (code_bytes 0 0) in
  u8 (Z.shiftr 0x0201 8) = VOLUME_CONTROL /\ u8 (0x0201 - 1) < 2
  /\ signed16 0xf234 <= 2048
  /\ Z.abs (signed16 (snd g 0 + 256 * snd g 1) - signed16 0xf234) <= 69.
Proof.
  cbv zeta.
  assert (Hcs : u8 (Z.shiftr 0x0201 8) = VOLUME_CONTROL) by reflexivity.
  assert (Hcn : u8 (0x0201 - 1) < 2) by reflexivity.
  assert (H0 : 0 <= code_bytes 0x34 0xf2 0 < 256) by (cbn; lia).
  assert (H1 : 0 <= code_bytes 0x34 0xf2 1 < 256) by (cbn; lia).
  assert (Hin : signed16 0xf234 <= 2048) by (vm_compute; discriminate).
  destruct (set_then_get_code started 0x0201 2 2 (code_bytes 0x34 0xf2)
              (code_bytes 0 0) Hcs Hcn H0 H1) as (_ & _ & Hq & _).
  split; [ exact Hcs | split; [ exact Hcn | split; [ exact Hin | ] ] ].
  exact (Hq Hin).
Defined.

(** X5.  SET CUR (VOLUME) on the capture unit, for the channel index 0 or
    1 alike, returns 0, stores the decoded code in the unit's one volume
    field and hands it to the capture voice for both channels; the playback
    unit is untouched, and no GET request is answered differently
    afterwards: the capture volume that was set cannot be read back. *)
Theorem capture_volume_set_not_read_back (s : USBAudioState) (cscn length : Z)
    (data : bytes) :
  u8 (Z.shiftr cscn 8) = VOLUME_CONTROL ->
  u8 (cscn - 1) < 2 ->
  0 <= data 0 < 256 -> 0 <= data 1 < 256 ->
  let r := usb_audio_set_control s CR_SET_CUR cscn 0x0500 length data in
  fst r = 0
  /\ in_vol (inp (snd r)) = volume_of_code (data 0 + 256 * data 1)
  /\ voice_lvol (in_voice (inp (snd r))) = in_vol (inp (snd r))
  /\ voice_rvol (in_voice (inp (snd r))) = in_vol (inp (snd r))
  /\ in_mute (inp (snd r)) = in_mute (inp s)
  /\ out (snd r) = out s
  /\ forall (attrib' cscn' idif' length' : Z) (data' : bytes),
       usb_audio_get_control (snd r) attrib' cscn' idif' length' data'
       = usb_audio_get_control s attrib' cscn' idif' length' data'.
Proof.
  intros Hv Hcn H0 H1 r.
  assert (H : fst r = 0
              /\ in_vol (inp (snd r)) = volume_of_code (data 0 + 256 * data 1)
              /\ voice_lvol (in_voice (inp (snd r))) = in_vol (inp (snd r))
              /\ voice_rvol (in_voice (inp (snd r))) = in_vol (inp (snd r))
              /\ in_mute (inp (snd r)) = in_mute (inp s)
              /\ out (snd r) = out s).
  { unfold r, usb_audio_set_control.
    rewrite Hv. apply Z.ltb_lt in Hcn. rewrite Hcn.
    eval_closed_tests. cbv zeta.
    pose proof (set_cur_volume (data 0) (data 1) H0 H1) as Hd.
    cbv zeta in Hd. rewrite Hd.
    cbn [fst snd]. rewrite out_set_vol_diag, inp_set_vol_diag.
    destruct (debug s =? 0); cbn; repeat split; reflexivity. }
  destruct H as (Hr & Hvol & Hl & Hrv & Hm & Ho).
  repeat (split; [ assumption | ]).
  intros. apply get_control_ext; rewrite ?Ho; auto.
Qed.

Lemma capture_volume_set_not_read_back_witness :
  let r := usb_audio_set_control started CR_SET_CUR 0x0201 0x0500 2
             (code_bytes 0x00 0xc0) in
  u8 (Z.shiftr 0x0201 8) = VOLUME_CONTROL /\ u8 (0x0201 - 1) < 2
  /\ in_vol (inp started) = 240
  /\ in_vol (inp (snd r)) = 120
  /\ usb_audio_get_control (snd r) CR_GET_CUR 0x0201 0x0500 2 (code_bytes 0 0)
     = usb_audio_get_control started CR_GET_CUR 0x0201 0x0500 2 (code_bytes 0 0).
Proof.
  cbv zeta.
  assert (Hcs : u8 (Z.shiftr 0x0201 8) = VOLUME_CONTROL) by reflexivity.
  assert (Hcn : u8 (0x0201 - 1) < 2) by reflexivity.
  assert (H0 : 0 <= code_bytes 0x00 0xc0 0 < 256) by (cbn; lia).
  assert (H1 : 0 <= code_bytes 0x00 0xc0 1 < 256) by (cbn; lia).
  destruct (capture_volume_set_not_read_back started 0x0201 2
              (code_bytes 0x00 0xc0) Hcs Hcn H0 H1)
    as (_ & Hv & _ & _ & _ & _ & Hg).
  split; [ exact Hcs | split; [ exact Hcn | split; [ reflexivity | ] ] ].
  split; [ exact Hv | apply Hg ].
Defined.

(** X6.  usb_audio_get_control writes exactly as many bytes as it
    returns: either it returns the stall result and the buffer is as it
    was, or it returns 1 or 2, the bytes below that index are byte values,
    and every other byte of the buffer is as it was. *)
Theorem get_control_writes_what_it_returns (s : USBAudioState)
    (attrib cscn idif length : Z) (data : bytes) :
  let g := usb_audio_get_control s attrib cscn idif length data in
  (fst g = USB_RET_STALL /\ snd g = data)
  \/ ((fst g = 1 \/ fst g = 2)
      /\ (forall j : Z, 0 <= j < fst g -> 0 <= snd g j < 256)
      /\ (forall j : Z, j < 0 \/ fst g <= j -> snd g j = data j)).
Proof.
  assert (Hb : forall b : bool, 0 <= Z.b2z b < 256) by (intros []; simpl; lia).
  assert (H1 : forall (v j : Z), 0 <= v < 256 -> 0 <= j < 1 ->
               0 <= store data 0 v j < 256).
  { intros v j Hv Hj. unfold store.
    destruct (Z.eqb_spec j 0); [ exact Hv | lia ]. }
  assert (H2 : forall (v w j : Z), 0 <= v < 256 -> 0 <= w < 256 -> 0 <= j < 2 ->
               0 <= store (store data 0 v) 1 w j < 256).
  { intros v w j Hv Hw Hj. unfold store.
    destruct (Z.eqb_spec j 1); [ exact Hw | ].
    destruct (Z.eqb_spec j 0); [ exact Hv | lia ]. }
  assert (F1 : forall (v j : Z), j < 0 \/ 1 <= j -> store data 0 v j = data j).
  { intros v j Hj. unfold store. destruct (Z.eqb_spec j 0); [ lia | trivial ]. }
  assert (F2 : forall (v w j : Z), j < 0 \/ 2 <= j ->
               store (store data 0 v) 1 w j = data j).
  { intros v w j Hj. unfold store.
    destruct (Z.eqb_spec j 1); [ lia | ].
    destruct (Z.eqb_spec j 0); [ lia | trivial ]. }
  pose proof u8_range as Hu.
  cbv zeta. unfold usb_audio_get_control.
  split_tests; cbn [fst snd];
    first [ left; split; reflexivity
          | right; split; [ left; reflexivity | split; [ intros; apply H1; auto; lia | apply F1 ] ]
          | right; split; [ right; reflexivity | split; [ intros; apply H2; auto; lia | apply F2 ] ] ].
Qed.

(** ** Reserving space: streambuf_alloc *)

(** X7.  For a buffer holding no more than its size: if some space is
    free and the requested length, converted to 32 bits unsigned, does not
    exceed it, streambuf_alloc returns the offset [prod mod size] and moves
    the producer cursor on by that length, the storage and the consumer
    cursor being untouched; otherwise it returns NULL and the buffer is as
    it was.  A negative length is converted to a length of 2^31 or more and
    so reserves nothing in a buffer smaller than 2^31 bytes. *)
Theorem streambuf_alloc_spec (buf : streambuf) (n : Z) :
  0 <= sb_size buf < 2 ^ 32 ->
  sb_used buf <= sb_size buf ->
  (sb_free buf <> 0 /\ u32 n <= sb_free buf ->
   streambuf_alloc buf n
   = Done (Some (sb_prod buf mod sb_size buf),
           set_prod buf (sb_data buf) (u32 (sb_prod buf + u32 n)))
   /\ sb_used (set_prod buf (sb_data buf) (u32 (sb_prod buf + u32 n)))
      = sb_used buf + u32 n)
  /\ (sb_free buf = 0 \/ sb_free buf < u32 n ->
      streambuf_alloc buf n = Done (None, buf))
  /\ (- 2 ^ 31 <= n < 0 -> sb_size buf < 2 ^ 31 ->
      streambuf_alloc buf n = Done (None, buf)).
Proof.
  intros Hs Hinv.
  pose proof (u32_range (sb_prod buf - sb_cons buf)) as Hu.
  fold (sb_used buf) in Hu.
  assert (Hfree : sb_free buf = sb_size buf - sb_used buf).
  { unfold sb_free. apply u32_small.
    change (2 ^ 32) with 4294967296 in Hs. lia. }
  assert (Hnull : sb_free buf = 0 \/ sb_free buf < u32 n ->
                  streambuf_alloc buf n = Done (None, buf)).
  { unfold streambuf_alloc. fold (sb_used buf). fold (sb_free buf).
    intros [ Hz | Hlt ].
    - rewrite Hz. reflexivity.
    - destruct (Z.eqb_spec (sb_free buf) 0); [ reflexivity | ].
      destruct (Z.ltb_spec (sb_free buf) (u32 n)); [ reflexivity | lia ]. }
  split; [ | split; [ exact Hnull | ] ].
  - intros [Hne Hle].
    unfold streambuf_alloc. fold (sb_used buf). fold (sb_free buf).
    destruct (Z.eqb_spec (sb_free buf) 0) as [ | _ ]; [ contradiction | ].
    destruct (Z.ltb_spec (sb_free buf) (u32 n)) as [ | _ ]; [ lia | ].
    destruct (Z.eqb_spec (sb_size buf) 0) as [ | _ ]; [ lia | ].
    split; [ reflexivity | ].
    unfold sb_used, set_prod. cbn [sb_prod sb_cons].
    pose proof (u32_range n).
    apply used_after_prod; fold (sb_used buf);
      change (2 ^ 32) with 4294967296 in Hs; lia.
  - intros Hn Hsz. apply Hnull. right.
    assert (u32 n = n + 4294967296).
    { unfold u32. change (2 ^ 32) with 4294967296.
      symmetry. apply (Z.mod_unique _ _ (-1)); [ | lia ].
      change (2 ^ 31) with 2147483648 in Hn. lia. }
    change (2 ^ 31) with 2147483648 in *. lia.
Qed.

Lemma streambuf_alloc_spec_witness :
  0 <= sb_size two_packets < 2 ^ 32
  /\ sb_used two_packets <= sb_size two_packets
  /\ streambuf_alloc two_packets 200
     = Done (Some 0, set_prod two_packets (sb_data two_packets) 200)
  /\ streambuf_alloc two_packets 385 = Done (None, two_packets)
  /\ streambuf_alloc two_packets (-1) = Done (None, two_packets).
Proof.
  assert (Hs : 0 <= sb_size two_packets < 2 ^ 32)
    by (vm_compute; split; [ discriminate | reflexivity ]).
  assert (Hinv : sb_used two_packets <= sb_size two_packets)
    by (vm_compute; discriminate).
  split; [ exact Hs | split; [ exact Hinv | ] ].
  split; [ | split ].
  - apply (proj1 (streambuf_alloc_spec two_packets 200 Hs Hinv)).
    vm_compute. split; discriminate.
  - apply (proj1 (proj2 (streambuf_alloc_spec two_packets 385 Hs Hinv))).
    right. vm_compute. reflexivity.
  - apply (proj2 (proj2 (streambuf_alloc_spec two_packets (-1) Hs Hinv)));
      vm_compute; split; try discriminate; reflexivity.
Defined.

(** ** Buffers on the packet path *)

Lemma aligned_offset (c size : Z) :
  0 < size -> size mod 192 = 0 -> c mod 192 = 0 ->
  0 <= c mod size /\ c mod size + 192 <= size /\ (c mod size) mod 192 = 0.
Proof.
  intros Hs Hsm Hcm.
  apply Z.mod_divide in Hsm; [ | lia ]. destruct Hsm as [k Hk].
  apply Z.mod_divide in Hcm; [ | lia ]. destruct Hcm as [a Ha].
  subst size c.
  replace (a * 192) with (192 * a) by lia.
  replace (k * 192) with (192 * k) in * by lia.
  rewrite Z.mul_mod_distr_l by lia.
  pose proof (Z.mod_pos_bound a k ltac:(lia)).
  repeat split; try lia.
  rewrite Z.mul_comm. apply Z.mod_mul. lia.
Qed.

Lemma aligned_used (buf : streambuf) :
  sb_aligned buf ->
  sb_used buf = sb_prod buf - sb_cons buf
  /\ sb_free buf = sb_size buf - (sb_prod buf - sb_cons buf)
  /\ sb_used buf mod 192 = 0 /\ sb_free buf mod 192 = 0.
Proof.
  unfold sb_aligned, USBAUDIO_PACKET_SIZE.
  change (2 ^ 32) with 4294967296.
  intros (Hs & Hsm & Hl & Hcm & Hpm & Hc & Hp & Hu).
  assert (E : sb_used buf = sb_prod buf - sb_cons buf)
    by (unfold sb_used; apply u32_small; lia).
  assert (F : sb_free buf = sb_size buf - (sb_prod buf - sb_cons buf))
    by (unfold sb_free; rewrite E; apply u32_small; lia).
  rewrite E, F. repeat split.
  - rewrite Zminus_mod, Hpm, Hcm. reflexivity.
  - rewrite Zminus_mod, (Zminus_mod (sb_prod buf)), Hsm, Hpm, Hcm. reflexivity.
Qed.

(** Reading back the region that was written. *)
Lemma read_after_write (m chunk : list Z) (o : nat) :
  (o + length chunk <= length m)%nat ->
  firstn (length chunk)
    (skipn o (firstn o m ++ chunk ++ skipn (o + length chunk) m)) = chunk.
Proof.
  intros H.
  rewrite skipn_app, length_firstn, Nat.min_l by lia.
  rewrite (skipn_all2 (firstn o m)) by (rewrite length_firstn; lia).
  rewrite Nat.sub_diag. cbn [skipn app].
  rewrite firstn_app, Nat.sub_diag, firstn_all. cbn [firstn].
  apply app_nil_r.
Qed.

(** Reading a region that the write does not touch. *)
Lemma read_other_region (m chunk : list Z) (o o' n : nat) :
  (o + length chunk <= length m)%nat ->
  (o' + n <= o \/ o + length chunk <= o')%nat ->
  firstn n (skipn o' (firstn o m ++ chunk ++ skipn (o + length chunk) m))
  = firstn n (skipn o' m).
Proof.
  intros H [ Hb | Ha ].
  - rewrite skipn_app, length_firstn, Nat.min_l by lia.
    replace (o' - o)%nat with 0%nat by lia. cbn [skipn].
    rewrite firstn_app, length_skipn, length_firstn, Nat.min_l by lia.
    replace (n - (o - o'))%nat with 0%nat by lia. cbn [firstn].
    rewrite app_nil_r.
    rewrite (firstn_skipn_comm n o'), (firstn_skipn_comm n o' m).
    rewrite firstn_firstn, Nat.min_l by lia. reflexivity.
  - rewrite skipn_app, length_firstn, Nat.min_l by lia.
    rewrite (skipn_all2 (firstn o m)) by (rewrite length_firstn; lia).
    cbn [app].
    rewrite skipn_app.
    rewrite (skipn_all2 chunk) by lia. cbn [app].
    rewrite skipn_skipn. f_equal. f_equal. lia.
Qed.

Lemma packets_from_S (buf : streambuf) (c : Z) (m : nat) :
  packets_from buf c (S m)
  = packet_at buf c :: packets_from buf (c + USBAUDIO_PACKET_SIZE) m.
Proof.
  unfold packets_from. cbn [seq map].
  rewrite Z.mul_0_r, Z.add_0_r. f_equal.
  rewrite <- seq_shift, map_map.
  apply map_ext. intros i. f_equal. lia.
Qed.

Lemma packets_from_snoc (buf : streambuf) (c : Z) (m : nat) :
  packets_from buf c (S m)
  = packets_from buf c m
    ++ [ packet_at buf (c + USBAUDIO_PACKET_SIZE * Z.of_nat m) ].
Proof.
  unfold packets_from. rewrite seq_S, map_app. reflexivity.
Qed.

(** Two different packet slots of an aligned buffer do not overlap. *)
Lemma aligned_slots_apart (size c d : Z) :
  0 < size -> size mod 192 = 0 -> c mod 192 = 0 -> d mod 192 = 0 ->
  0 < d - c < size ->
  c mod size + 192 <= d mod size \/ d mod size + 192 <= c mod size.
Proof.
  intros Hs Hsm Hc Hd Hdc.
  destruct (aligned_offset c size Hs Hsm Hc) as (C0 & C1 & C2).
  destruct (aligned_offset d size Hs Hsm Hd) as (D0 & D1 & D2).
  assert (Hne : c mod size <> d mod size).
  { intros E.
    assert ((d - c) mod size = 0)
      by (rewrite Zminus_mod, E, Z.sub_diag; apply Z.mod_0_l; lia).
    rewrite Z.mod_small in H by lia. lia. }
  apply Z.mod_divide in C2; [ | lia ]. destruct C2 as [a Ea].
  apply Z.mod_divide in D2; [ | lia ]. destruct D2 as [b Eb].
  lia.
Qed.

(** The storage after a chunk of one packet has been put at the cursor
    value [prod]: that packet is the chunk, the packets of the cursor
    values in use are as before. *)
Lemma packet_at_after_write (buf : streambuf) (chunk : list Z) (c : Z) :
  sb_aligned buf ->
  len chunk = 192 ->
  sb_used buf < sb_size buf ->
  let off := sb_prod buf mod sb_size buf in
  let data' := firstn (Z.to_nat off) (sb_data buf) ++ chunk
               ++ skipn (Z.to_nat (off + 192)) (sb_data buf) in
  forall p' : Z,
    (packet_at (set_prod buf data' p') (sb_prod buf) = chunk)
    /\ (c mod 192 = 0 -> sb_cons buf <= c < sb_prod buf ->
        packet_at (set_prod buf data' p') c = packet_at buf c).
Proof.
  intros Hal Hlen Hroom off data' p'.
  destruct (aligned_used buf Hal) as (Hu & Hf & Hum & Hfm).
  unfold sb_aligned, USBAUDIO_PACKET_SIZE in Hal.
  change (2 ^ 32) with 4294967296 in Hal.
  destruct Hal as (Hs & Hsm & Hl & Hcm & Hpm & Hc & Hp & Hle).
  destruct (aligned_offset (sb_prod buf) (sb_size buf)) as (O0 & O1 & _);
    try lia; trivial.
  fold off in O0, O1.
  assert (Hn : length chunk = 192%nat) by (unfold len in Hlen; lia).
  assert (Hdata : (Z.to_nat off + length chunk <= length (sb_data buf))%nat)
    by (unfold len in Hl; lia).
  unfold packet_at, set_prod, USBAUDIO_PACKET_SIZE.
  cbn [sb_data sb_size]. fold off.
  unfold data'. replace (Z.to_nat (off + 192)) with (Z.to_nat off + length chunk)%nat
    by lia.
  change (Z.to_nat 192) with 192%nat. rewrite <- Hn.
  split.
  - apply read_after_write. exact Hdata.
  - intros Hc0 Hrange. apply read_other_region; [ exact Hdata | ].
    destruct (aligned_offset c (sb_size buf)) as (C0 & C1 & _); try lia; trivial.
    destruct (aligned_slots_apart (sb_size buf) c (sb_prod buf));
      try lia; trivial.
Qed.

Lemma enqueued_queue (buf : streambuf) (chunk : list Z) :
  sb_aligned buf ->
  len chunk = 192 ->
  sb_used buf < sb_size buf ->
  queue (enqueued buf chunk) = queue buf ++ [ chunk ]
  /\ sb_used (enqueued buf chunk) = sb_used buf + 192
  /\ 192 <= sb_free buf
  /\ sb_prod buf mod sb_size buf + 192 <= len (sb_data buf)
  /\ (sb_prod buf + 192 < 2 ^ 32 -> sb_aligned (enqueued buf chunk)).
Proof.
  intros Hal Hchunk Hroom.
  destruct (aligned_used buf Hal) as (Hu & Hf & Hum & Hfm).
  pose proof Hal as Hal'.
  unfold sb_aligned in Hal'. unfold enqueued, USBAUDIO_PACKET_SIZE in *.
  change (2 ^ 32) with 4294967296 in *.
  destruct Hal' as (Hs & Hsm & Hl & Hcm & Hpm & Hc & Hp & Hle).
  assert (Hfree : 192 <= sb_free buf).
  { apply Z.mod_divide in Hfm; [ | lia ]. destruct Hfm as [k Hk]. lia. }
  destruct (aligned_offset (sb_prod buf) (sb_size buf)) as (O0 & O1 & _);
    try lia; trivial.
  destruct (packet_at_after_write buf chunk 0 Hal Hchunk Hroom
              (u32 (sb_prod buf + 192))) as (Hnew & _).
  assert (Hused : sb_used (set_prod buf
                    (firstn (Z.to_nat (sb_prod buf mod sb_size buf)) (sb_data buf)
                     ++ chunk
                     ++ skipn (Z.to_nat (sb_prod buf mod sb_size buf + 192))
                          (sb_data buf))
                    (u32 (sb_prod buf + 192)))
                  = sb_used buf + 192).
  { unfold sb_used, set_prod. cbn [sb_prod sb_cons].
    apply used_after_prod; [ lia | ]. fold (sb_used buf). lia. }
  split; [ | split; [ exact Hused | split; [ exact Hfree | split; [ lia | ] ] ] ].
  + unfold queue, USBAUDIO_PACKET_SIZE. rewrite Hused.
    apply Z.mod_divide in Hum; [ | lia ]. destruct Hum as [m Hm].
    assert (Hm0 : 0 <= m) by lia.
    rewrite Hm.
    replace (m * 192 + 192) with ((m + 1) * 192) by lia.
    rewrite !Z.div_mul by lia.
    replace (Z.to_nat (m + 1)) with (S (Z.to_nat m)) by lia.
    rewrite packets_from_snoc. cbn [sb_cons set_prod].
    unfold USBAUDIO_PACKET_SIZE.
    replace (sb_cons buf + 192 * Z.of_nat (Z.to_nat m))
      with (sb_prod buf) by lia.
    rewrite Hnew.
    f_equal. unfold packets_from, USBAUDIO_PACKET_SIZE. apply map_ext_in.
    intros i Hi. apply in_seq in Hi.
    apply (packet_at_after_write buf chunk _ Hal Hchunk Hroom).
    * rewrite Z.add_mod, Hcm, Z.mul_comm, Z.mod_mul by lia. reflexivity.
    * lia.
  + intros Hnowrap. unfold sb_aligned, set_prod, USBAUDIO_PACKET_SIZE.
    cbn [sb_data sb_size sb_prod sb_cons].
    change (2 ^ 32) with 4294967296.
    rewrite u32_small by lia.
    repeat split; try lia; trivial.
    * unfold len in *. rewrite !length_app, length_firstn, length_skipn. lia.
    * rewrite Z.add_mod, Hpm by lia. reflexivity.
Qed.

(** X8.  A buffer in its design state is a queue of packets for
    streambuf_put: given a host-to-device packet that holds a chunk, the
    call on a full buffer returns 0 and changes nothing; on any other it
    returns 192, having added the chunk behind the packets already queued,
    which are intact.  The assertion never fails and the store never leaves
    the storage; the buffer is in its design state again unless the
    producer cursor passes 2^32. *)
Theorem streambuf_put_enqueues (buf : streambuf) (p : USBPacket) :
  sb_aligned buf ->
  pid p = USB_TOKEN_OUT ->
  0 <= actual_length p ->
  actual_length p + USBAUDIO_PACKET_SIZE <= len (iov p) ->
  let chunk := firstn (Z.to_nat USBAUDIO_PACKET_SIZE)
                 (skipn (Z.to_nat (actual_length p)) (iov p)) in
  (sb_used buf = sb_size buf -> streambuf_put buf p = Done (0, buf, p))
  /\ (sb_used buf < sb_size buf ->
      exists buf' : streambuf,
        streambuf_put buf p
        = Done (USBAUDIO_PACKET_SIZE, buf', advance p USBAUDIO_PACKET_SIZE)
        /\ queue buf' = queue buf ++ [ chunk ]
        /\ sb_used buf' = sb_used buf + USBAUDIO_PACKET_SIZE
        /\ sb_cons buf' = sb_cons buf
        /\ sb_size buf' = sb_size buf
        /\ (sb_prod buf + USBAUDIO_PACKET_SIZE < 2 ^ 32 -> sb_aligned buf')).
Proof.
  intros Hal Hpid Hal0 Hiov chunk.
  destruct (aligned_used buf Hal) as (Hu & Hf & _).
  split.
  - intros Hfull. apply streambuf_put_full. lia.
  - intros Hroom.
    assert (Hs : 0 < sb_size buf) by (destruct Hal as ((? & _) & _); assumption).
    assert (Hchunk : len chunk = 192)
      by (apply len_firstn_skipn; unfold USBAUDIO_PACKET_SIZE in *; lia).
    destruct (enqueued_queue buf chunk Hal Hchunk Hroom)
      as (Hq & Hused & Hfree & Hoff & Hal2).
    destruct (streambuf_put_copies buf p Hfree Hs Hoff Hpid Hal0 Hiov)
      as (_ & Hput).
    exists (enqueued buf chunk).
    split; [ exact Hput | split; [ exact Hq | split; [ exact Hused | ] ] ].
    split; [ reflexivity | split; [ reflexivity | exact Hal2 ] ].
Qed.

Lemma streambuf_put_enqueues_witness :
  sb_aligned two_packets
  /\ sb_used two_packets < sb_size two_packets
  /\ exists buf' : streambuf,
       streambuf_put two_packets (out_packet 7)
       = Done (USBAUDIO_PACKET_SIZE, buf', advance (out_packet 7) USBAUDIO_PACKET_SIZE)
       /\ queue buf' = queue two_packets ++ [ repeat 7 192 ]
       /\ sb_aligned buf'.
Proof.
  assert (Hal : sb_aligned two_packets).
  { unfold sb_aligned. vm_compute.
    repeat split; try reflexivity; discriminate. }
  assert (Hroom : sb_used two_packets < sb_size two_packets)
    by (vm_compute; reflexivity).
  assert (Hiov : actual_length (out_packet 7) + USBAUDIO_PACKET_SIZE
                 <= len (iov (out_packet 7))) by (vm_compute; discriminate).
  assert (H0 : 0 <= actual_length (out_packet 7)) by (vm_compute; discriminate).
  destruct (proj2 (streambuf_put_enqueues two_packets (out_packet 7)
                     Hal eq_refl H0 Hiov) Hroom)
    as (buf' & Hput & Hq & _ & _ & _ & Hal').
  split; [ exact Hal | split; [ exact Hroom | ] ].
  exists buf'.
  split; [ exact Hput | split; [ exact Hq | ] ].
  apply Hal'. vm_compute. reflexivity.
Defined.

(** Taking one packet from a buffer in its design state. *)
Lemma streambuf_get_packet (buf : streambuf) :
  sb_aligned buf ->
  192 <= sb_used buf ->
  let buf' := set_cons buf (sb_cons buf + 192) in
  streambuf_get buf USBAUDIO_PACKET_SIZE
  = Done (Some (sb_cons buf mod sb_size buf), buf')
  /\ mem_read (sb_data buf) (sb_cons buf mod sb_size buf) USBAUDIO_PACKET_SIZE
     = Done (packet_at buf (sb_cons buf))
  /\ sb_aligned buf'
  /\ sb_used buf' = sb_used buf - 192
  /\ queue buf = packet_at buf (sb_cons buf) :: queue buf'.
Proof.
  intros Hal Hused buf'.
  destruct (aligned_used buf Hal) as (Hu & Hf & Hum & Hfm).
  pose proof Hal as Hal'.
  unfold sb_aligned in Hal'. unfold USBAUDIO_PACKET_SIZE in *.
  change (2 ^ 32) with 4294967296 in *.
  destruct Hal' as (Hs & Hsm & Hl & Hcm & Hpm & Hc & Hp & Hle).
  destruct (aligned_offset (sb_cons buf) (sb_size buf)) as (O0 & O1 & _);
    try lia; trivial.
  assert (Hal2 : sb_aligned buf').
  { unfold sb_aligned, buf', set_cons, USBAUDIO_PACKET_SIZE.
    cbn [sb_data sb_size sb_prod sb_cons].
    change (2 ^ 32) with 4294967296.
    repeat split; try lia; trivial.
    rewrite Z.add_mod, Hcm by lia. reflexivity. }
  assert (Hu2 : sb_used buf' = sb_used buf - 192).
  { destruct (aligned_used buf' Hal2) as (Hu' & _). rewrite Hu', Hu.
    unfold buf', set_cons. cbn [sb_prod sb_cons]. lia. }
  split; [ | split; [ | split; [ exact Hal2 | split; [ exact Hu2 | ] ] ] ].
  - unfold streambuf_get. fold (sb_used buf).
    destruct (Z.eqb_spec (sb_used buf) 0); [ lia | ].
    destruct (Z.ltb_spec (sb_used buf) 192); [ lia | ].
    destruct (Z.eqb_spec (sb_size buf) 0); [ lia | ].
    cbn [orb]. rewrite u32_small by lia. reflexivity.
  - rewrite mem_read_ok by lia. reflexivity.
  - unfold queue, USBAUDIO_PACKET_SIZE. rewrite Hu2.
    apply Z.mod_divide in Hum; [ | lia ]. destruct Hum as [m Hm].
    rewrite Hm.
    replace (m * 192 - 192) with ((m - 1) * 192) by lia.
    rewrite !Z.div_mul by lia.
    replace (Z.to_nat m) with (S (Z.to_nat (m - 1))) by lia.
    rewrite packets_from_S. reflexivity.
Qed.

(** X9.  For streambuf_get with the length of a packet, a buffer in its
    design state is that queue of packets too: on an empty buffer the call
    returns NULL; on any other it returns a view that lies inside the
    storage and holds the oldest packet, which leaves the queue, the
    others staying in order; the buffer is in its design state again. *)
Theorem streambuf_get_dequeues (buf : streambuf) :
  sb_aligned buf ->
  (sb_used buf = 0 ->
   queue buf = []
   /\ streambuf_get buf USBAUDIO_PACKET_SIZE = Done (None, buf))
  /\ (sb_used buf <> 0 ->
      exists (off : Z) (pk : list Z) (buf' : streambuf),
        streambuf_get buf USBAUDIO_PACKET_SIZE = Done (Some off, buf')
        /\ 0 <= off /\ off + USBAUDIO_PACKET_SIZE <= len (sb_data buf')
        /\ mem_read (sb_data buf') off USBAUDIO_PACKET_SIZE = Done pk
        /\ queue buf = pk :: queue buf'
        /\ sb_prod buf' = sb_prod buf
        /\ sb_aligned buf').
Proof.
  intros Hal.
  destruct (aligned_used buf Hal) as (Hu & Hf & Hum & Hfm).
  split.
  - intros Hz. split.
    + unfold queue. rewrite Hz. reflexivity.
    + unfold streambuf_get. fold (sb_used buf). rewrite Hz. reflexivity.
  - intros Hnz.
    assert (Hused : 192 <= sb_used buf).
    { pose proof (u32_range (sb_prod buf - sb_cons buf)) as Hr.
      fold (sb_used buf) in Hr.
      apply Z.mod_divide in Hum; [ | lia ]. destruct Hum as [m Hm]. lia. }
    destruct (streambuf_get_packet buf Hal Hused) as (Hg & Hr & Hal2 & _ & Hq).
    exists (sb_cons buf mod sb_size buf), (packet_at buf (sb_cons buf)),
      (set_cons buf (sb_cons buf + 192)).
    unfold sb_aligned, USBAUDIO_PACKET_SIZE in Hal.
    destruct Hal as (Hs & Hsm & Hl & Hcm & _).
    destruct (aligned_offset (sb_cons buf) (sb_size buf)) as (O0 & O1 & _);
      try lia; trivial.
    split; [ exact Hg | ].
    split; [ exact O0 | ].
    split; [ cbn [set_cons sb_data]; unfold USBAUDIO_PACKET_SIZE; lia | ].
    split; [ exact Hr | ].
    split; [ exact Hq | ].
    split; [ reflexivity | exact Hal2 ].
Qed.

Lemma streambuf_get_dequeues_witness :
  sb_aligned one_written
  /\ sb_used one_written <> 0
  /\ queue one_written = [ repeat 7 192 ]
  /\ streambuf_get one_written USBAUDIO_PACKET_SIZE
     = Done (Some 0, set_cons one_written 192)
  /\ queue (set_cons one_written 192) = [].
Proof.
  assert (Hal : sb_aligned one_written).
  { unfold sb_aligned. vm_compute.
    repeat split; try reflexivity; discriminate. }
  assert (Hnz : sb_used one_written <> 0) by (vm_compute; discriminate).
  destruct (proj2 (streambuf_get_dequeues one_written Hal) Hnz)
    as (off & pk & buf' & Hg & _ & _ & _ & Hq & _).
  assert (Hg' : streambuf_get one_written USBAUDIO_PACKET_SIZE
                = Done (Some 0, set_cons one_written 192))
    by (vm_compute; reflexivity).
  rewrite Hg' in Hg. injection Hg as <- <-.
  split; [ exact Hal | split; [ exact Hnz | ] ].
  split; [ vm_compute; reflexivity | split; [ exact Hg' | ] ].
  vm_compute. reflexivity.
Defined.

(** ** The playback demand callback *)

Lemma with_out_buf_drained_0 (s : USBAudioState) :
  with_out_buf s (drained (out_buf (out s)) 0) = s.
Proof.
  destruct s as [ [ a b c d e [ dt sz pr cs ] ] i dbg bf log ].
  unfold with_out_buf, drained, with_out, set_out_buf, set_cons. cbn.
  rewrite Z.add_0_r. reflexivity.
Qed.

Lemma drained_0 (buf : streambuf) : drained buf 0 = buf.
Proof.
  destruct buf as [ dt sz pr cs ]. unfold drained, set_cons. cbn.
  rewrite Z.add_0_r. reflexivity.
Qed.

Lemma output_loop_aligned (fuel : nat) :
  forall (s : USBAudioState) (avail : Z) (played : list (list Z)),
    sb_aligned (out_buf (out s)) ->
    avail / 192 < Z.of_nat fuel ->
    let buf := out_buf (out s) in
    let m := Z.to_nat (Z.min (avail / 192) (sb_used buf / 192)) in
    output_loop fuel s avail played
    = Done (with_out_buf s (drained buf m), played ++ firstn m (queue buf))
    /\ queue (drained buf m) = skipn m (queue buf)
    /\ sb_aligned (drained buf m).
Proof.
  induction fuel as [ | fuel IH ]; intros s avail played Hal Hfuel buf m.
  - assert (Hm : m = 0%nat) by (unfold m; lia).
    rewrite Hm, with_out_buf_drained_0, drained_0, app_nil_r.
    split; [ reflexivity | split; [ reflexivity | assumption ] ].
  - cbn [output_loop]. unfold USBAUDIO_PACKET_SIZE.
    destruct (aligned_used buf Hal) as (Hu & Hf & Hum & Hfm).
    pose proof (u32_range (sb_prod buf - sb_cons buf)) as Hr.
    fold (sb_used buf) in Hr.
    destruct (Z.ltb_spec avail 192) as [ Hlt | Hge ].
    + assert (avail / 192 <= 0).
      { assert (avail / 192 < 1) by (apply Z.div_lt_upper_bound; lia). lia. }
      assert (Hm : m = 0%nat) by (unfold m; lia).
      rewrite Hm, with_out_buf_drained_0, drained_0, app_nil_r.
      split; [ reflexivity | split; [ reflexivity | assumption ] ].
    + destruct (Z.eq_dec (sb_used buf) 0) as [ Hz | Hnz ].
      * assert (Hm : m = 0%nat) by (unfold m; rewrite Hz; cbn; lia).
        rewrite Hm, with_out_buf_drained_0, drained_0, app_nil_r.
        fold buf. unfold streambuf_get. fold (sb_used buf). rewrite Hz.
        cbn [Z.eqb orb bind]. fold (with_out_buf s buf).
        unfold with_out_buf, buf. rewrite with_out_same.
        split; [ reflexivity | split; [ reflexivity | assumption ] ].
      * assert (Hused : 192 <= sb_used buf).
        { apply Z.mod_divide in Hum; [ | lia ]. destruct Hum as [k Hk]. lia. }
        destruct (streambuf_get_packet buf Hal Hused)
          as (Hg & Hrd & Hal2 & Hu2 & Hq).
        fold buf. unfold USBAUDIO_PACKET_SIZE in Hg, Hrd.
        rewrite Hg. cbn [bind set_cons sb_data]. rewrite Hrd. cbn [bind].
        set (buf1 := set_cons buf (sb_cons buf + 192)) in *.
        set (s1 := with_out s (set_out_buf (out s) buf1)).
        assert (E1 : out_buf (out s1) = buf1) by reflexivity.
        assert (Hfuel1 : (avail - 192) / 192 < Z.of_nat fuel).
        { replace (avail - 192) with (avail + (-1) * 192) by lia.
          rewrite Z.div_add by lia. lia. }
        destruct (IH s1 (avail - 192) (played ++ [ packet_at buf (sb_cons buf) ]))
          as (Hloop & Hq1 & Hal1); [ rewrite E1; exact Hal2 | exact Hfuel1 | ].
        rewrite E1 in Hloop, Hq1, Hal1.
        set (m1 := Z.to_nat (Z.min ((avail - 192) / 192) (sb_used buf1 / 192)))
          in *.
        assert (Hm : m = S m1).
        { unfold m, m1. rewrite Hu2.
          replace (avail - 192) with (avail + (-1) * 192) by lia.
          replace (sb_used buf - 192) with (sb_used buf + (-1) * 192) by lia.
          rewrite !Z.div_add by lia.
          assert (1 <= avail / 192) by (apply Z.div_le_lower_bound; lia).
          assert (1 <= sb_used buf / 192) by (apply Z.div_le_lower_bound; lia).
          lia. }
        assert (Ed : drained buf1 m1 = drained buf (S m1)).
        { unfold drained, buf1, set_cons, USBAUDIO_PACKET_SIZE.
          cbn [sb_data sb_size sb_prod sb_cons]. f_equal. lia. }
        rewrite Hm, <- Ed, Hq. cbn [firstn skipn].
        rewrite Hloop, <- app_assoc. cbn [app].
        split; [ reflexivity | split; [ exact Hq1 | exact Hal1 ] ].
Qed.

(** X10.  On a playback buffer in its design state the demand callback
    with room for [avail] bytes hands the backend the oldest
    [min (avail / 192, used / 192)] packets of the queue, whole and in
    order, and leaves the others queued; of the device it changes the
    consumer cursor only.  The loop ends within [avail / 192 + 1] rounds. *)
Theorem output_callback_spec (s : USBAudioState) (avail : Z) :
  sb_aligned (out_buf (out s)) ->
  let buf := out_buf (out s) in
  let m := Z.to_nat (Z.min (avail / USBAUDIO_PACKET_SIZE)
                       (sb_used buf / USBAUDIO_PACKET_SIZE)) in
  output_callback s avail
  = Done (with_out_buf s (drained buf m), firstn m (queue buf))
  /\ queue (drained buf m) = skipn m (queue buf)
  /\ sb_aligned (drained buf m)
  /\ (forall fuel : nat,
        avail / USBAUDIO_PACKET_SIZE < Z.of_nat fuel ->
        output_loop fuel s avail [] = output_callback s avail).
Proof.
  intros Hal buf m. unfold output_callback, USBAUDIO_PACKET_SIZE in *.
  assert (Hfuel : avail / 192 < Z.of_nat (Z.to_nat (avail / 192) + 1)) by lia.
  destruct (output_loop_aligned _ s avail [] Hal Hfuel) as (Hloop & Hq & Hal2).
  fold buf m in Hloop, Hq, Hal2.
  split; [ exact Hloop | split; [ exact Hq | split; [ exact Hal2 | ] ] ].
  intros fuel Hf.
  destruct (output_loop_aligned fuel s avail [] Hal Hf) as (Hloop' & _).
  rewrite Hloop, Hloop'. reflexivity.
Qed.

Lemma output_callback_spec_witness :
  sb_aligned (out_buf (out (dataout_n 2 playing)))
  /\ queue (out_buf (out (dataout_n 2 playing))) = [ repeat 2 192; repeat 1 192 ]
  /\ output_callback (dataout_n 2 playing) 200
     = Done (with_out_buf (dataout_n 2 playing)
               (drained (out_buf (out (dataout_n 2 playing))) 1),
             [ repeat 2 192 ])
  /\ queue (drained (out_buf (out (dataout_n 2 playing))) 1) = [ repeat 1 192 ].
Proof.
  assert (Hal : sb_aligned (out_buf (out (dataout_n 2 playing)))).
  { unfold sb_aligned. vm_compute.
    repeat split; try reflexivity; discriminate. }
  assert (Hq : queue (out_buf (out (dataout_n 2 playing)))
               = [ repeat 2 192; repeat 1 192 ]) by (vm_compute; reflexivity).
  destruct (output_callback_spec (dataout_n 2 playing) 200 Hal)
    as (Hcb & Hrest & _).
  rewrite Hq in Hcb, Hrest.
  split; [ exact Hal | split; [ exact Hq | split; [ exact Hcb | exact Hrest ] ] ].
Defined.

Lemma length_queue (buf : streambuf) :
  length (queue buf) = Z.to_nat (sb_used buf / USBAUDIO_PACKET_SIZE).
Proof. unfold queue, packets_from. rewrite length_map, length_seq. reflexivity. Qed.

(** One data-out transfer of a whole packet while playback is on. *)
Lemma dataout_enqueues (s : USBAudioState) (c : list Z) :
  out_altset (out s) <> ALTSET_OFF ->
  sb_aligned (out_buf (out s)) ->
  len c = 192 ->
  sb_used (out_buf (out s)) < sb_size (out_buf (out s)) ->
  exists buf' : streambuf,
    usb_audio_handle_dataout s (packet_of c)
    = Done (with_out_buf s buf', advance (packet_of c) 192)
    /\ queue buf' = queue (out_buf (out s)) ++ [ c ]
    /\ sb_used buf' = sb_used (out_buf (out s)) + 192
    /\ sb_prod buf' = u32 (sb_prod (out_buf (out s)) + 192)
    /\ sb_size buf' = sb_size (out_buf (out s))
    /\ (sb_prod (out_buf (out s)) + 192 < 2 ^ 32 -> sb_aligned buf').
Proof.
  intros Hon Hal Hlen Hroom.
  assert (Hc : firstn (Z.to_nat USBAUDIO_PACKET_SIZE)
                 (skipn (Z.to_nat (actual_length (packet_of c)))
                    (iov (packet_of c))) = c).
  { cbn. apply firstn_all2. unfold len in Hlen. lia. }
  assert (Hs : 0 < sb_size (out_buf (out s)))
    by (destruct Hal as ((? & _) & _); assumption).
  destruct (enqueued_queue (out_buf (out s)) c Hal Hlen Hroom)
    as (Hq & Hu & Hfree & Hoff & Hal').
  destruct (streambuf_put_copies (out_buf (out s)) (packet_of c) Hfree Hs Hoff
              eq_refl) as (_ & Hp);
    [ cbn; lia | cbn; unfold USBAUDIO_PACKET_SIZE; lia | ].
  rewrite Hc in Hp. fold (enqueued (out_buf (out s)) c) in Hp.
  exists (enqueued (out_buf (out s)) c). unfold usb_audio_handle_dataout.
  destruct (Z.eqb_spec (out_altset (out s)) ALTSET_OFF); [ contradiction | ].
  rewrite Hp. cbn [bind].
  assert (Hquiet : (u64 (actual_length (advance (packet_of c) USBAUDIO_PACKET_SIZE))
                    <? len (iov (advance (packet_of c) USBAUDIO_PACKET_SIZE)))
                   = false).
  { cbn. rewrite Hlen. reflexivity. }
  rewrite Hquiet. cbn [andb].
  split; [ reflexivity | ].
  split; [ exact Hq | split; [ exact Hu | ] ].
  split; [ reflexivity | split; [ reflexivity | exact Hal' ] ].
Qed.

Lemma dataout_all_enqueues (chunks : list (list Z)) :
  forall s : USBAudioState,
    out_altset (out s) <> ALTSET_OFF ->
    sb_aligned (out_buf (out s)) ->
    Forall (fun c => len c = 192) chunks ->
    sb_used (out_buf (out s)) + 192 * Z.of_nat (length chunks) <= sb_size (out_buf (out s)) ->
    sb_prod (out_buf (out s)) + 192 * Z.of_nat (length chunks) < 2 ^ 32 ->
    exists buf' : streambuf,
      dataout_all chunks s = Done (with_out_buf s buf')
      /\ queue buf' = queue (out_buf (out s)) ++ chunks
      /\ sb_used buf' = sb_used (out_buf (out s)) + 192 * Z.of_nat (length chunks)
      /\ sb_aligned buf'.
Proof.
  induction chunks as [ | c chunks IH ]; intros s Hon Hal Hall Hfit Hwrap.
  - exists (out_buf (out s)). cbn [dataout_all length].
    unfold with_out_buf. rewrite with_out_same, app_nil_r.
    split; [ reflexivity | split; [ reflexivity | split; [ lia | exact Hal ] ] ].
  - inversion Hall as [ | c' l' Hc Hcs ]; subst.
    cbn [length] in Hfit, Hwrap.
    change (2 ^ 32) with 4294967296 in *.
    destruct (dataout_enqueues s c Hon Hal Hc)
      as (b1 & Hd & Hq & Hu & Hp & Hsz & Hal1); [ lia | ].
    assert (Hal1' : sb_aligned b1)
      by (apply Hal1; change (2 ^ 32) with 4294967296; lia).
    assert (Hp1 : sb_prod b1 = sb_prod (out_buf (out s)) + 192).
    { rewrite Hp. apply u32_small.
      destruct Hal as (_ & _ & _ & _ & _ & ? & _). lia. }
    assert (E1 : out_buf (out (with_out_buf s b1)) = b1) by reflexivity.
    assert (Hon1 : out_altset (out (with_out_buf s b1)) <> ALTSET_OFF)
      by exact Hon.
    assert (Hfit1 : sb_used (out_buf (out (with_out_buf s b1)))
                    + 192 * Z.of_nat (length chunks)
                    <= sb_size (out_buf (out (with_out_buf s b1))))
      by (rewrite E1, Hu, Hsz; lia).
    assert (Hwrap1 : sb_prod (out_buf (out (with_out_buf s b1)))
                     + 192 * Z.of_nat (length chunks) < 4294967296)
      by (rewrite E1, Hp1; lia).
    destruct (IH (with_out_buf s b1) Hon1 Hal1' Hcs Hfit1 Hwrap1)
      as (b2 & Hd2 & Hq2 & Hu2 & Hal2).
    exists b2. cbn [dataout_all]. rewrite Hd. cbn [bind].
    rewrite Hd2.
    cbn [with_out_buf with_out set_out_buf out out_buf] in Hq2, Hu2 |- *.
    rewrite Hq2, Hq, Hu2, Hu, <- app_assoc. cbn [app length].
    split; [ reflexivity | split; [ reflexivity | split; [ lia | exact Hal2 ] ] ].
Qed.

(** X11.  Playback from end to end.  With playback on, the buffer in its
    design state and the producer cursor staying below 2^32 through the
    transfers ([prod + 192 * k < 2^32] for the [k] packets sent), data-out
    transfers of whole 192-byte packets that fit the free space all
    complete and queue their payloads in order; a demand callback with
    room for [avail >= 0] bytes then hands the backend the first
    [avail / 192] packets of what is queued, the earlier ones first, and
    leaves the rest. *)
Theorem playback_fifo (s : USBAudioState) (chunks : list (list Z)) (avail : Z) :
  out_altset (out s) <> ALTSET_OFF ->
  sb_aligned (out_buf (out s)) ->
  Forall (fun c => len c = 192) chunks ->
  sb_used (out_buf (out s)) + 192 * Z.of_nat (length chunks) <= sb_size (out_buf (out s)) ->
  sb_prod (out_buf (out s)) + 192 * Z.of_nat (length chunks) < 2 ^ 32 ->
  0 <= avail ->
  exists s1 s2 : USBAudioState,
    dataout_all chunks s = Done s1
    /\ queue (out_buf (out s1)) = queue (out_buf (out s)) ++ chunks
    /\ output_callback s1 avail
       = Done (s2, firstn (Z.to_nat (avail / 192))
                     (queue (out_buf (out s)) ++ chunks))
    /\ queue (out_buf (out s2))
       = skipn (Z.to_nat (avail / 192)) (queue (out_buf (out s)) ++ chunks).
Proof.
  intros Hon Hal Hall Hfit Hwrap Havail.
  destruct (dataout_all_enqueues chunks s Hon Hal Hall Hfit Hwrap)
    as (b1 & Hd & Hq & Hu & Hal1).
  set (s1 := with_out_buf s b1) in *.
  assert (E1 : out_buf (out s1) = b1) by reflexivity.
  assert (Hfuel : avail / 192 < Z.of_nat (Z.to_nat (avail / 192) + 1)) by lia.
  destruct (output_loop_aligned (Z.to_nat (avail / 192) + 1) s1 avail [])
    as (Hcb & Hrest & _);
    [ rewrite E1; exact Hal1 | exact Hfuel | ].
  fold (output_callback s1 avail) in Hcb.
  rewrite E1 in Hcb, Hrest. cbn [app] in Hcb.
  set (m := Z.to_nat (Z.min (avail / 192) (sb_used b1 / 192))) in *.
  pose proof (length_queue b1) as Hlen. unfold USBAUDIO_PACKET_SIZE in Hlen.
  assert (Ha : 0 <= avail / 192) by (apply Z.div_pos; lia).
  assert (Hb : 0 <= sb_used b1 / 192).
  { apply Z.div_pos; [ | lia ].
    pose proof (u32_range (sb_prod b1 - sb_cons b1)) as Hr.
    fold (sb_used b1) in Hr. lia. }
  assert (Hf : firstn m (queue b1) = firstn (Z.to_nat (avail / 192)) (queue b1)).
  { destruct (Z.le_ge_cases (avail / 192) (sb_used b1 / 192)).
    - unfold m. rewrite Z.min_l by lia. reflexivity.
    - unfold m. rewrite Z.min_r by lia.
      rewrite <- Hlen, firstn_all, firstn_all2 by lia. reflexivity. }
  assert (Hs : skipn m (queue b1) = skipn (Z.to_nat (avail / 192)) (queue b1)).
  { destruct (Z.le_ge_cases (avail / 192) (sb_used b1 / 192)).
    - unfold m. rewrite Z.min_l by lia. reflexivity.
    - unfold m. rewrite Z.min_r by lia.
      rewrite <- Hlen, skipn_all, skipn_all2 by lia. reflexivity. }
  exists s1, (with_out_buf s1 (drained b1 m)).
  split; [ exact Hd | ]. rewrite E1.
  split; [ exact Hq | ].
  rewrite <- Hq, <- Hf, <- Hs.
  split; [ exact Hcb | exact Hrest ].
Qed.

Lemma playback_fifo_witness :
  out_altset (out playing) <> ALTSET_OFF
  /\ sb_aligned (out_buf (out playing))
  /\ queue (out_buf (out playing)) = []
  /\ exists s1 s2 : USBAudioState,
       dataout_all three_chunks playing = Done s1
       /\ queue (out_buf (out s1)) = three_chunks
       /\ output_callback s1 400 = Done (s2, [ repeat 1 192; repeat 2 192 ])
       /\ queue (out_buf (out s2)) = [ repeat 3 192 ].
Proof.
  assert (Hon : out_altset (out playing) <> ALTSET_OFF)
    by (vm_compute; discriminate).
  assert (Hal : sb_aligned (out_buf (out playing))).
  { unfold sb_aligned. vm_compute.
    repeat split; try reflexivity; discriminate. }
  assert (Hq : queue (out_buf (out playing)) = []) by (vm_compute; reflexivity).
  assert (Hall : Forall (fun c => len c = 192) three_chunks)
    by (repeat constructor).
  assert (Hfit : sb_used (out_buf (out playing))
                 + 192 * Z.of_nat (length three_chunks)
                 <= sb_size (out_buf (out playing)))
    by (vm_compute; discriminate).
  assert (Hwrap : sb_prod (out_buf (out playing))
                  + 192 * Z.of_nat (length three_chunks) < 2 ^ 32)
    by (vm_compute; reflexivity).
  assert (Hav : 0 <= 400) by lia.
  destruct (playback_fifo playing three_chunks 400 Hon Hal Hall Hfit Hwrap Hav)
    as (s1 & s2 & Hd & Hq1 & Hcb & Hq2).
  rewrite Hq in Hq1, Hcb, Hq2.
  split; [ exact Hon | split; [ exact Hal | split; [ exact Hq | ] ] ].
  exists s1, s2.
  split; [ exact Hd | split; [ exact Hq1 | split; [ exact Hcb | exact Hq2 ] ] ].
Defined.

(** ** Data-in transfers *)

Lemma streambuf_get_none (buf : streambuf) (n : Z) :
  sb_used buf = 0 \/ sb_used buf < n ->
  streambuf_get buf n = Done (None, buf).
Proof.
  unfold streambuf_get. fold (sb_used buf). intros [ Hz | Hlt ].
  - rewrite Hz. reflexivity.
  - destruct (Z.eqb_spec (sb_used buf) 0); [ reflexivity | ].
    destruct (Z.ltb_spec (sb_used buf) n); [ reflexivity | lia ].
Qed.

Lemma streambuf_get_some (buf : streambuf) (n : Z) :
  sb_used buf <> 0 -> n <= sb_used buf -> sb_size buf <> 0 ->
  streambuf_get buf n
  = Done (Some (sb_cons buf mod sb_size buf),
          set_cons buf (u32 (sb_cons buf + n))).
Proof.
  unfold streambuf_get. fold (sb_used buf). intros Hnz Hle Hs.
  destruct (Z.eqb_spec (sb_used buf) 0); [ contradiction | ].
  destruct (Z.ltb_spec (sb_used buf) n); [ lia | ].
  destruct (Z.eqb_spec (sb_size buf) 0); [ contradiction | reflexivity ].
Qed.

Lemma with_inp_same (s : USBAudioState) :
  with_inp s (set_in_buf (inp s) (in_buf (inp s))) = s.
Proof. destruct s as [ o [ a b c d e f ] dbg bf log ]. reflexivity. Qed.

Lemma datain_copies (s : USBAudioState) (p : USBPacket) :
  let buf := in_buf (inp s) in
  let n := Z.min USBAUDIO_PACKET_SIZE (len (iov p)) in
  in_altset (inp s) <> ALTSET_OFF ->
  sb_used buf <> 0 -> n <= sb_used buf ->
  sb_used buf <= sb_size buf ->
  sb_cons buf mod sb_size buf + n <= len (sb_data buf) ->
  pid p = USB_TOKEN_IN ->
  actual_length p = 0 ->
  let chunk := firstn (Z.to_nat n)
                 (skipn (Z.to_nat (sb_cons buf mod sb_size buf))
                    (sb_data buf)) in
  let buf' := set_cons buf (u32 (sb_cons buf + n)) in
  let s1 := with_inp s (set_in_buf (inp s) buf') in
  len chunk = n
  /\ sb_used buf' = sb_used buf - n
  /\ usb_audio_handle_datain s p
     = Done (if (n <? len (iov p)) && (1 <? debug s)
             then fprintf s1 (DiagOutputOverrun (len (iov p) - n))
             else s1,
             filled p chunk n).
Proof.
  intros buf n Hon Hnz Hle Hinv Hroom Hpid Hal chunk buf' s1.
unfold usb_audio_handle_datain. fold buf n.
destruct (Z.eqb_spec (in_altset (inp s)) ALTSET_OFF); [ contradiction | ].
pose proof (u32_range (sb_prod buf - sb_cons buf)) as Hr.
fold (sb_used buf) in Hr.
assert (Hn : 0 <= n <= len (iov p)).
{ unfold n, len, USBAUDIO_PACKET_SIZE. lia. }
assert (Hs : 0 < sb_size buf) by lia.
pose proof (Z.mod_pos_bound (sb_cons buf) (sb_size buf) Hs) as Hoff.
assert (Hchunk : len chunk = n) by (apply len_firstn_skipn; lia).
split; [ exact Hchunk | ].
split.
{ unfold sb_used, buf', set_cons. cbn [sb_prod sb_cons].
  apply used_after_cons. fold (sb_used buf). lia. }
rewrite streambuf_get_some by lia. cbn [bind].
unfold usb_packet_copy. rewrite Hal, Hpid.
destruct (Z.leb_spec 0 0); [ | lia ].
destruct (Z.leb_spec (0 + n) (len (iov p))); [ | lia ].
cbn [andb negb set_cons sb_data].
rewrite mem_read_ok by lia. cbn [bind]. fold chunk.
rewrite mem_write_ok by (rewrite ?Hchunk; lia).
cbn [bind]. rewrite Hchunk, !Z.add_0_l.
change (firstn (Z.to_nat 0) (iov p)) with (@nil Z). cbn [app].
cbn [actual_length iov].
assert (Hlen' : len (chunk ++ skipn (Z.to_nat n) (iov p)) = len (iov p)).
{ unfold len in *. rewrite length_app, length_skipn. lia. }
rewrite Hlen'.
assert (Hu64 : u64 n = n).
{ unfold u64. apply Z.mod_small. unfold n, USBAUDIO_PACKET_SIZE.
  change (2 ^ 64) with 18446744073709551616. lia. }
rewrite Hu64.
change (debug (with_inp _ _)) with (debug s).
unfold filled. rewrite Hpid.
destruct ((n <? len (iov p)) && _); reflexivity.
Qed.

(** X12.  usb_audio_handle_datain asks the capture buffer for
    [n = min (192, payload size)] bytes.  With capture OFF it sets the stall
    status and changes nothing.  With capture on and the buffer empty or
    holding fewer than [n] bytes it sets the stall status too, and nothing
    is consumed (no short packet is returned).  Otherwise, for a
    device-to-host packet not yet filled and a buffer that holds no more
    than its size and has the [n] bytes at [cons mod size] inside its
    storage, it fills the first [n] bytes of the payload with these bytes,
    moves the consumer cursor on by [n], leaves the status alone, and
    prints at most the overrun line. *)
Theorem datain_spec (s : USBAudioState) (p : USBPacket) :
  let buf := in_buf (inp s) in
  let n := Z.min USBAUDIO_PACKET_SIZE (len (iov p)) in
  (in_altset (inp s) = ALTSET_OFF ->
   usb_audio_handle_datain s p = Done (s, set_status p USB_RET_STALL))
  /\ (in_altset (inp s) <> ALTSET_OFF ->
      sb_used buf = 0 \/ sb_used buf < n ->
      usb_audio_handle_datain s p = Done (s, set_status p USB_RET_STALL))
  /\ (in_altset (inp s) <> ALTSET_OFF ->
      sb_used buf <> 0 -> n <= sb_used buf ->
      sb_used buf <= sb_size buf ->
      sb_cons buf mod sb_size buf + n <= len (sb_data buf) ->
      pid p = USB_TOKEN_IN ->
      actual_length p = 0 ->
      let chunk := firstn (Z.to_nat n)
                     (skipn (Z.to_nat (sb_cons buf mod sb_size buf))
                        (sb_data buf)) in
      let buf' := set_cons buf (u32 (sb_cons buf + n)) in
      let s1 := with_inp s (set_in_buf (inp s) buf') in
      len chunk = n
      /\ sb_used buf' = sb_used buf - n
      /\ usb_audio_handle_datain s p
         = Done (if (n <? len (iov p)) && (1 <? debug s)
                 then fprintf s1 (DiagOutputOverrun (len (iov p) - n))
                 else s1,
                 filled p chunk n)).
Proof.
  intros buf n.
  split; [ unfold usb_audio_handle_datain; intros ->; reflexivity | ].
  split.
  - intros Hon Hshort. unfold usb_audio_handle_datain. fold buf n.
    destruct (Z.eqb_spec (in_altset (inp s)) ALTSET_OFF); [ contradiction | ].
    rewrite (streambuf_get_none buf n Hshort). cbn [bind].
    unfold buf. rewrite with_inp_same. reflexivity.
  - apply datain_copies.
Qed.

Lemma datain_spec_witness :
  in_altset (inp captured) <> ALTSET_OFF
  /\ sb_used (in_buf (inp captured)) = 384
  /\ usb_audio_handle_datain captured (in_packet 192)
     = Done (with_in_buf captured (set_cons (in_buf (inp captured)) 192),
             filled (in_packet 192) (repeat 1 192) 192).
Proof.
  assert (Hon : in_altset (inp captured) <> ALTSET_OFF)
    by (vm_compute; discriminate).
  assert (Hu : sb_used (in_buf (inp captured)) = 384) by (vm_compute; reflexivity).
  assert (H1 : sb_used (in_buf (inp captured)) <> 0) by (rewrite Hu; discriminate).
  assert (H2 : Z.min USBAUDIO_PACKET_SIZE (len (iov (in_packet 192)))
               <= sb_used (in_buf (inp captured)))
    by (vm_compute; discriminate).
  assert (H3 : sb_used (in_buf (inp captured)) <= sb_size (in_buf (inp captured)))
    by (vm_compute; discriminate).
  assert (H4 : sb_cons (in_buf (inp captured)) mod sb_size (in_buf (inp captured))
               + Z.min USBAUDIO_PACKET_SIZE (len (iov (in_packet 192)))
               <= len (sb_data (in_buf (inp captured))))
    by (vm_compute; discriminate).
  destruct (datain_spec captured (in_packet 192)) as (_ & _ & H).
  destruct (H Hon H1 H2 H3 H4 eq_refl eq_refl) as (_ & _ & Hd).
  split; [ exact Hon | split; [ exact Hu | ] ].
  rewrite Hd. vm_compute. reflexivity.
Defined.

(** ** The capture demand callback *)

Lemma streambuf_alloc_none (buf : streambuf) (n : Z) :
  sb_free buf = 0 \/ sb_free buf < u32 n ->
  streambuf_alloc buf n = Done (None, buf).
Proof.
  unfold streambuf_alloc. fold (sb_used buf). fold (sb_free buf).
  intros [ Hz | Hlt ].
  - rewrite Hz. reflexivity.
  - destruct (Z.eqb_spec (sb_free buf) 0); [ reflexivity | ].
    destruct (Z.ltb_spec (sb_free buf) (u32 n)); [ reflexivity | lia ].
Qed.

Lemma streambuf_alloc_some (buf : streambuf) (n : Z) :
  sb_free buf <> 0 -> u32 n <= sb_free buf -> sb_size buf <> 0 ->
  streambuf_alloc buf n
  = Done (Some (sb_prod buf mod sb_size buf),
          set_prod buf (sb_data buf) (u32 (sb_prod buf + u32 n))).
Proof.
  unfold streambuf_alloc. fold (sb_used buf). fold (sb_free buf).
  intros Hnz Hle Hs.
  destruct (Z.eqb_spec (sb_free buf) 0); [ contradiction | ].
  destruct (Z.ltb_spec (sb_free buf) (u32 n)); [ lia | ].
  destruct (Z.eqb_spec (sb_size buf) 0); [ contradiction | reflexivity ].
Qed.

Lemma input_loop_aligned (fuel : nat) :
  forall (s : USBAudioState) (avail : Z) (src : list (list Z)),
    sb_aligned (in_buf (inp s)) ->
    avail / 192 < Z.of_nat fuel ->
    let buf := in_buf (inp s) in
    let m := capture_count buf avail in
    sb_prod buf + 192 * Z.of_nat m < 2 ^ 32 ->
    Forall (fun c => len c = 192) src ->
    (m <= length src)%nat ->
    exists buf' : streambuf,
      input_loop fuel s avail src = Done (with_in_buf s buf', skipn m src)
      /\ queue buf' = queue buf ++ firstn m src
      /\ sb_used buf' = sb_used buf + 192 * Z.of_nat m
      /\ sb_aligned buf'.
Proof.
  induction fuel as [ | fuel IH ];
    intros s avail src Hal Hfuel buf m Hwrap Hsrc Hlen.
  - assert (avail < 0).
    { destruct (Z.lt_ge_cases avail 0); [ assumption | ].
      assert (0 <= avail / 192) by (apply Z.div_pos; lia). lia. }
    assert (Hm : m = 0%nat).
    { unfold m, capture_count.
      assert ((avail - 1) / 192 < 0) by (apply Z.div_lt_upper_bound; lia). lia. }
    exists buf. rewrite Hm. cbn [input_loop skipn firstn Z.of_nat].
    unfold with_in_buf, buf. rewrite with_inp_same, app_nil_r.
    split; [ reflexivity | split; [ reflexivity | split; [ lia | exact Hal ] ] ].
  - cbn [input_loop]. unfold USBAUDIO_PACKET_SIZE.
    change (sb_aligned buf) in Hal.
    destruct (aligned_used buf Hal) as (Hu & Hf & Hum & Hfm).
    pose proof (u32_range (sb_size buf - sb_used buf)) as Hr.
    fold (sb_free buf) in Hr.
    pose proof (u32_range (sb_prod buf - sb_cons buf)) as Hru.
    fold (sb_used buf) in Hru.
    assert (Hstop : m = 0%nat ->
              exists buf' : streambuf,
                Done (s, src) = Done (with_in_buf s buf', skipn m src)
                /\ queue buf' = queue buf ++ firstn m src
                /\ sb_used buf' = sb_used buf + 192 * Z.of_nat m
                /\ sb_aligned buf').
    { intros Hm. exists buf. rewrite Hm. cbn [skipn firstn Z.of_nat].
      unfold with_in_buf, buf. rewrite with_inp_same, app_nil_r.
      split; [ reflexivity | split; [ reflexivity | split; [ lia | exact Hal ] ] ]. }
    destruct (Z.ltb_spec 192 avail) as [ Hgt | Hle ]; cbn [negb].
    + destruct (Z.eq_dec (sb_free buf) 0) as [ Hz | Hnz ].
      * fold buf. rewrite streambuf_alloc_none by (left; exact Hz).
        cbn [bind]. fold (with_in_buf s buf).
        unfold with_in_buf at 1. unfold buf at 1. rewrite with_inp_same.
        apply Hstop. unfold m, capture_count. rewrite Hz. cbn. lia.
      * assert (Hfree : 192 <= sb_free buf).
        { apply Z.mod_divide in Hfm; [ | lia ]. destruct Hfm as [k Hk]. lia. }
        assert (Hroom : sb_used buf < sb_size buf) by lia.
        assert (Hs : sb_size buf <> 0) by lia.
        assert (Hm : exists m1 : nat, m = S m1
                     /\ m1 = Z.to_nat (Z.min ((avail - 192 - 1) / 192)
                                         ((sb_free buf - 192) / 192))).
        { eexists. split; [ | reflexivity ].
          unfold m, capture_count.
          replace (avail - 192 - 1) with (avail - 1 + (-1) * 192) by lia.
          replace (sb_free buf - 192) with (sb_free buf + (-1) * 192) by lia.
          rewrite !Z.div_add by lia.
          assert (1 <= (avail - 1) / 192) by (apply Z.div_le_lower_bound; lia).
          assert (1 <= sb_free buf / 192) by (apply Z.div_le_lower_bound; lia).
          lia. }
        destruct Hm as (m1 & Hm & Hm1).
        destruct src as [ | c src' ]; [ cbn in Hlen; lia | ].
        inversion Hsrc as [ | c0 l0 Hc Hsrc' ]; subst c0 l0.
        destruct (enqueued_queue buf c Hal Hc Hroom)
          as (Hq & Hused & _ & Hoff & Hal2).
        assert (Hal2' : sb_aligned (enqueued buf c)).
        { apply Hal2. change (2 ^ 32) with 4294967296 in *. lia. }
        fold buf. rewrite streambuf_alloc_some by (trivial; cbn; lia).
        cbn [bind]. unfold AUD_read. cbn [hd tl set_prod sb_data sb_prod].
        rewrite (firstn_all2 c) by (unfold len in Hc; lia).
        assert (Hoff0 : 0 <= sb_prod buf mod sb_size buf)
          by (apply Z.mod_pos_bound; lia).
        rewrite mem_write_ok by (rewrite ?Hc; lia).
        cbn [bind]. rewrite Hc.
        change (u32 192) with 192.
        set (s1 := with_inp s _).
        assert (E1 : in_buf (inp s1) = enqueued buf c) by reflexivity.
        assert (Hf1 : sb_free (enqueued buf c) = sb_free buf - 192).
        { destruct (aligned_used _ Hal2') as (Hu1 & Hf1 & _).
          rewrite Hf1, Hf, <- Hu1, <- Hu, Hused.
          unfold enqueued, set_prod. cbn [sb_size]. lia. }
        assert (Hp1 : sb_prod (enqueued buf c) = sb_prod buf + 192).
        { unfold enqueued, set_prod, USBAUDIO_PACKET_SIZE. cbn [sb_prod].
          apply u32_small. change (2 ^ 32) with 4294967296 in *.
          pose proof Hal as (_ & _ & _ & _ & _ & ? & _). lia. }
        destruct (IH s1 (avail - 192) src') as (b2 & Hloop & Hq2 & Hu2 & Hal3).
        -- rewrite E1. exact Hal2'.
        -- replace (avail - 192) with (avail + (-1) * 192) by lia.
           rewrite Z.div_add by lia. lia.
        -- rewrite E1. unfold capture_count. rewrite Hf1, <- Hm1, Hp1. lia.
        -- exact Hsrc'.
        -- rewrite E1. unfold capture_count. rewrite Hf1, <- Hm1.
           cbn [length] in Hlen. lia.
        -- rewrite E1 in Hloop, Hq2, Hu2. unfold capture_count in Hloop, Hq2, Hu2.
           rewrite Hf1, <- Hm1 in Hloop, Hq2, Hu2.
           exists b2. rewrite Hm. cbn [skipn firstn].
           split; [ exact Hloop | ].
           rewrite Hq2, Hq, Hu2, Hused, <- app_assoc.
           split; [ reflexivity | split; [ lia | exact Hal3 ] ].
    + apply Hstop. unfold m, capture_count.
      assert ((avail - 1) / 192 < 1) by (apply Z.div_lt_upper_bound; lia). lia.
Qed.

(** X13.  The capture demand callback takes a packet only while [avail]
    is strictly above 192: with [avail] of 192 or less it does nothing at
    all (the playback callback forwards a packet at exactly 192).  On a
    capture buffer in its design state whose producer cursor stays below
    2^32, and with a backend that delivers whole packets, it reserves
    [min ((avail - 1) / 192, free / 192)] packets, fills them with what the
    backend delivers, in order, behind the packets already queued, and
    never more than the buffer has room for. *)
Theorem input_callback_spec (s : USBAudioState) (avail : Z)
    (src : list (list Z)) :
  (avail <= USBAUDIO_PACKET_SIZE -> input_callback s avail src = Done (s, src))
  /\ (sb_aligned (in_buf (inp s)) ->
      let buf := in_buf (inp s) in
      let m := capture_count buf avail in
      sb_prod buf + 192 * Z.of_nat m < 2 ^ 32 ->
      Forall (fun c => len c = 192) src ->
      (m <= length src)%nat ->
      exists buf' : streambuf,
        input_callback s avail src = Done (with_in_buf s buf', skipn m src)
        /\ queue buf' = queue buf ++ firstn m src
        /\ sb_used buf' = sb_used buf + 192 * Z.of_nat m
        /\ sb_used buf' <= sb_size buf'
        /\ sb_aligned buf').
Proof.
  split.
  - intros Hle. unfold input_callback.
    replace (Z.to_nat (avail / USBAUDIO_PACKET_SIZE) + 1)%nat
      with (S (Z.to_nat (avail / USBAUDIO_PACKET_SIZE))) by lia.
    cbn [input_loop].
    destruct (Z.ltb_spec USBAUDIO_PACKET_SIZE avail); [ lia | reflexivity ].
  - intros Hal buf m Hwrap Hsrc Hlen. unfold input_callback, USBAUDIO_PACKET_SIZE.
    assert (Hfuel : avail / 192 < Z.of_nat (Z.to_nat (avail / 192) + 1)) by lia.
    destruct (input_loop_aligned (Z.to_nat (avail / 192) + 1) s avail src
                Hal Hfuel Hwrap Hsrc Hlen) as (b & Hloop & Hq & Hu & Hal').
    exists b.
    split; [ exact Hloop | split; [ exact Hq | split; [ exact Hu | ] ] ].
    split; [ | exact Hal' ].
    destruct (aligned_used b Hal') as (Hub & _).
    destruct Hal' as (_ & _ & _ & _ & _ & _ & _ & ?). lia.
Qed.

Lemma input_callback_spec_witness :
  sb_aligned (in_buf (inp capturing))
  /\ capture_count (in_buf (inp capturing)) 400 = 2%nat
  /\ exists buf' : streambuf,
       input_callback capturing 400 three_chunks
       = Done (with_in_buf capturing buf', [ repeat 3 192 ])
       /\ queue buf' = [ repeat 1 192; repeat 2 192 ]
       /\ sb_used buf' = 384.
Proof.
  assert (Hal : sb_aligned (in_buf (inp capturing))).
  { unfold sb_aligned. vm_compute.
    repeat split; try reflexivity; discriminate. }
  assert (Hm : capture_count (in_buf (inp capturing)) 400 = 2%nat)
    by (vm_compute; reflexivity).
  assert (Hq : queue (in_buf (inp capturing)) = []) by (vm_compute; reflexivity).
  assert (Hu : sb_used (in_buf (inp capturing)) = 0) by (vm_compute; reflexivity).
  assert (Hwrap : sb_prod (in_buf (inp capturing))
                  + 192 * Z.of_nat (capture_count (in_buf (inp capturing)) 400)
                  < 2 ^ 32) by (vm_compute; reflexivity).
  assert (Hall : Forall (fun c => len c = 192) three_chunks)
    by (repeat constructor).
  assert (Hlen : (capture_count (in_buf (inp capturing)) 400
                  <= length three_chunks)%nat) by (rewrite Hm; repeat constructor).
  destruct (proj2 (input_callback_spec capturing 400 three_chunks)
              Hal Hwrap Hall Hlen) as (buf' & Hcb & Hq' & Hu' & _).
  rewrite Hm in Hcb, Hq', Hu'. rewrite Hq in Hq'. rewrite Hu in Hu'.
  split; [ exact Hal | split; [ exact Hm | ] ].
  exists buf'.
  split; [ exact Hcb | split; [ exact Hq' | exact Hu' ] ].
Defined.

(** One data-in transfer of a whole packet from a capture buffer in its
    design state. *)
Lemma datain_dequeues (s : USBAudioState) :
  in_altset (inp s) <> ALTSET_OFF ->
  sb_aligned (in_buf (inp s)) ->
  sb_used (in_buf (inp s)) <> 0 ->
  let buf := in_buf (inp s) in
  usb_audio_handle_datain s (in_packet 192)
  = Done (with_in_buf s (drained buf 1),
          filled (in_packet 192) (packet_at buf (sb_cons buf)) 192)
  /\ queue buf = packet_at buf (sb_cons buf) :: queue (drained buf 1)
  /\ sb_aligned (drained buf 1).
Proof.
  intros Hon Hal Hnz buf.
  change (sb_aligned buf) in Hal.
  destruct (aligned_used buf Hal) as (Hu & Hf & Hum & Hfm).
  pose proof (u32_range (sb_prod buf - sb_cons buf)) as Hr.
  fold (sb_used buf) in Hr.
  assert (Hused : 192 <= sb_used buf).
  { apply Z.mod_divide in Hum; [ | lia ]. destruct Hum as [k Hk].
    fold buf in Hnz. lia. }
  destruct (streambuf_get_packet buf Hal Hused) as (_ & _ & Hal2 & _ & Hq).
  pose proof Hal as ((Hs & Hs32) & Hsm & Hl & Hcm & Hpm & Hc & Hp & Hle).
  unfold USBAUDIO_PACKET_SIZE in *. change (2 ^ 32) with 4294967296 in *.
  destruct (aligned_offset (sb_cons buf) (sb_size buf)) as (O0 & O1 & _);
    try lia; trivial.
  assert (Hn : Z.min USBAUDIO_PACKET_SIZE (len (iov (in_packet 192))) = 192)
    by reflexivity.
  assert (H1 : Z.min USBAUDIO_PACKET_SIZE (len (iov (in_packet 192)))
               <= sb_used (in_buf (inp s)))
    by (rewrite Hn; exact Hused).
  assert (H2 : sb_used (in_buf (inp s)) <= sb_size (in_buf (inp s)))
    by (fold buf; lia).
  assert (H3 : sb_cons (in_buf (inp s)) mod sb_size (in_buf (inp s))
               + Z.min USBAUDIO_PACKET_SIZE (len (iov (in_packet 192)))
               <= len (sb_data (in_buf (inp s))))
    by (rewrite Hn; fold buf; lia).
  destruct (datain_copies s (in_packet 192) Hon Hnz H1 H2 H3 eq_refl eq_refl)
    as (_ & _ & Hd).
  fold buf in Hd. rewrite Hn in Hd. cbn [andb] in Hd.
  change (192 <? len (iov (in_packet 192))) with false in Hd. cbn [andb] in Hd.
  rewrite u32_small in Hd by lia.
  split; [ exact Hd | split; [ exact Hq | exact Hal2 ] ].
Qed.

Lemma drained_drained (buf : streambuf) (a b : nat) :
  drained (drained buf a) b = drained buf (a + b).
Proof.
  unfold drained, set_cons, USBAUDIO_PACKET_SIZE.
  cbn [sb_data sb_size sb_prod sb_cons]. f_equal. lia.
Qed.

Lemma datain_all_aligned (k : nat) :
  forall s : USBAudioState,
    in_altset (inp s) <> ALTSET_OFF ->
    sb_aligned (in_buf (inp s)) ->
    let buf := in_buf (inp s) in
    let m := Nat.min k (length (queue buf)) in
    datain_all k s = Done (with_in_buf s (drained buf m), firstn k (queue buf))
    /\ queue (drained buf m) = skipn k (queue buf).
Proof.
  induction k as [ | k IH ]; intros s Hon Hal buf m.
  - cbn [datain_all firstn skipn]. unfold m. cbn [Nat.min].
    rewrite drained_0. unfold with_in_buf, buf. rewrite with_inp_same.
    split; reflexivity.
  - cbn [datain_all].
    destruct (Z.eq_dec (sb_used buf) 0) as [ Hz | Hnz ].
    + assert (Hq : queue buf = []) by (unfold queue; rewrite Hz; reflexivity).
      unfold m. rewrite Hq. cbn [length firstn skipn].
      rewrite Nat.min_0_r, drained_0.
      unfold usb_audio_handle_datain.
      destruct (Z.eqb_spec (in_altset (inp s)) ALTSET_OFF); [ contradiction | ].
      fold buf. rewrite streambuf_get_none by (left; exact Hz).
      cbn [bind]. unfold with_in_buf, buf. rewrite with_inp_same.
      split; [ reflexivity | exact Hq ].
    + destruct (datain_dequeues s Hon Hal Hnz) as (Hd & Hq & Hal2).
      fold buf in Hd, Hq, Hal2. rewrite Hd. cbn [bind].
      change (status (filled (in_packet 192) _ 192) =? USB_RET_STALL) with false.
      cbn iota.
      set (s1 := with_in_buf s (drained buf 1)).
      assert (E1 : in_buf (inp s1) = drained buf 1) by reflexivity.
      destruct (IH s1 Hon) as (Hloop & Hrest); [ rewrite E1; exact Hal2 | ].
      rewrite E1 in Hloop, Hrest. rewrite Hloop. cbn [bind].
      unfold m. rewrite Hq. cbn [length Nat.min firstn skipn].
      rewrite drained_drained in Hloop, Hrest |- *.
      cbn [filled iov in_packet].
      assert (Hk : skipn (Z.to_nat 192) (repeat 0 192) = [])
        by (apply skipn_all2; rewrite repeat_length; lia).
      rewrite Hk, app_nil_r.
      split; [ reflexivity | exact Hrest ].
Qed.

(** X14.  Capture from end to end.  Let [m] be the
    [min ((avail - 1) / 192, free / 192)] packets the capture callback
    takes.  With capture on, the buffer in its design state, the producer
    cursor staying below 2^32 through the callback
    ([prod + 192 * m < 2^32]), and a backend that delivers whole 192-byte
    packets, at least [m] of them, the packets the callback has taken from
    the backend reach the host in the order they were delivered: after the
    callback, [k] data-in transfers asking for 192 bytes each return the
    first [k] packets of the queue, those queued before the callback first,
    and stall from then on once the queue is empty. *)
Theorem capture_fifo (s : USBAudioState) (avail : Z) (src : list (list Z))
    (k : nat) :
  in_altset (inp s) <> ALTSET_OFF ->
  sb_aligned (in_buf (inp s)) ->
  let buf := in_buf (inp s) in
  let m := capture_count buf avail in
  sb_prod buf + 192 * Z.of_nat m < 2 ^ 32 ->
  Forall (fun c => len c = 192) src ->
  (m <= length src)%nat ->
  exists s1 s2 : USBAudioState,
    input_callback s avail src = Done (s1, skipn m src)
    /\ datain_all k s1 = Done (s2, firstn k (queue buf ++ firstn m src))
    /\ queue (in_buf (inp s2)) = skipn k (queue buf ++ firstn m src).
Proof.
  intros Hon Hal buf m Hwrap Hsrc Hlen.
  assert (Hfuel : avail / 192 < Z.of_nat (Z.to_nat (avail / 192) + 1)) by lia.
  destruct (input_loop_aligned (Z.to_nat (avail / 192) + 1) s avail src
              Hal Hfuel Hwrap Hsrc Hlen) as (b & Hloop & Hq & Hu & Hal').
  fold (input_callback s avail src) in Hloop.
  set (s1 := with_in_buf s b) in *.
  assert (E1 : in_buf (inp s1) = b) by reflexivity.
  destruct (datain_all_aligned k s1 Hon) as (Hd & Hrest);
    [ rewrite E1; exact Hal' | ].
  rewrite E1 in Hd, Hrest. fold buf m in Hq. rewrite Hq in Hd, Hrest.
  eexists s1, _.
  split; [ exact Hloop | split; [ exact Hd | exact Hrest ] ].
Qed.

Lemma capture_fifo_witness :
  in_altset (inp capturing) <> ALTSET_OFF
  /\ sb_aligned (in_buf (inp capturing))
  /\ exists s1 s2 : USBAudioState,
       input_callback capturing 400 three_chunks = Done (s1, [ repeat 3 192 ])
       /\ datain_all 3 s1 = Done (s2, [ repeat 1 192; repeat 2 192 ])
       /\ queue (in_buf (inp s2)) = [].
Proof.
  assert (Hon : in_altset (inp capturing) <> ALTSET_OFF)
    by (vm_compute; discriminate).
  assert (Hal : sb_aligned (in_buf (inp capturing))).
  { unfold sb_aligned. vm_compute.
    repeat split; try reflexivity; discriminate. }
  assert (Hm : capture_count (in_buf (inp capturing)) 400 = 2%nat)
    by (vm_compute; reflexivity).
  assert (Hq : queue (in_buf (inp capturing)) = []) by (vm_compute; reflexivity).
  assert (Hwrap : sb_prod (in_buf (inp capturing))
                  + 192 * Z.of_nat (capture_count (in_buf (inp capturing)) 400)
                  < 2 ^ 32) by (vm_compute; reflexivity).
  assert (Hall : Forall (fun c => len c = 192) three_chunks)
    by (repeat constructor).
  assert (Hlen : (capture_count (in_buf (inp capturing)) 400
                  <= length three_chunks)%nat) by (rewrite Hm; repeat constructor).
  destruct (capture_fifo capturing 400 three_chunks 3 Hon Hal Hwrap Hall Hlen)
    as (s1 & s2 & Hcb & Hd & Hrest).
  rewrite Hm in Hcb, Hd, Hrest. rewrite Hq in Hd, Hrest.
  split; [ exact Hon | split; [ exact Hal | ] ].
  exists s1, s2.
  split; [ exact Hcb | split; [ exact Hd | exact Hrest ] ].
Defined.

(** ** What the device keeps true of itself *)

Lemma device_inv_fprintf (s : USBAudioState) (d : diag) :
  device_inv s -> device_inv (fprintf s d).
Proof. unfold device_inv. cbn. trivial. Qed.

Lemma device_inv_with_out_buf (s : USBAudioState) (b : streambuf) :
  device_inv s -> sb_inv b ->
  (out_altset (out s) = ALTSET_OFF -> sb_used b = 0) ->
  device_inv (with_out_buf s b).
Proof. unfold device_inv. cbn. intuition. Qed.

Lemma device_inv_with_in_buf (s : USBAudioState) (b : streambuf) :
  device_inv s -> sb_inv b -> device_inv (with_in_buf s b).
Proof. unfold device_inv. cbn. intuition. Qed.

Lemma sb_used_init (buf : streambuf) (c : Z) : sb_used (streambuf_init buf c) = 0.
Proof. reflexivity. Qed.

Lemma voice_synced_active (v : SWVoice) (m on : bool) (l r : Z) :
  v = AUD_set_volume v m l r ->
  AUD_set_active v on = AUD_set_volume (AUD_set_active v on) m l r.
Proof. intros H. rewrite H at 1. reflexivity. Qed.

Ltac inv_parts H :=
  unfold device_inv in *;
  destruct H as (A1 & A2 & A3 & A4 & A5 & A6 & A7 & A8 & A9 & A10 & A11 & A12 & A13).

Ltac inv_finish :=
  unfold vol_at in *; cbn in *;
  repeat match goal with |- _ /\ _ => split end; auto; try lia;
  try (apply voice_synced_active; assumption); try discriminate.

Lemma set_output_altset_inv (s : USBAudioState) (altset : Z) :
  device_inv s -> device_inv (snd (usb_audio_set_output_altset s altset)).
Proof.
  intros H.
  assert (Hb : sb_inv (streambuf_init (out_buf (out s)) (buffer s)))
    by (apply streambuf_init_inv; apply H).
  inv_parts H.
  destruct altset as [ | [ q | q | ] | q ];
    try (cbn [usb_audio_set_output_altset snd]; tauto);
    unfold usb_audio_set_output_altset; destruct (debug _ =? 0); inv_finish.
Qed.

Lemma set_input_altset_inv (s : USBAudioState) (altset : Z) :
  device_inv s -> device_inv (snd (usb_audio_set_input_altset s altset)).
Proof.
  intros H.
  assert (Hb : sb_inv (streambuf_init (in_buf (inp s)) (buffer s)))
    by (apply streambuf_init_inv; apply H).
  inv_parts H.
  destruct altset as [ | [ q | q | ] | q ];
    try (cbn [usb_audio_set_input_altset snd]; tauto);
    unfold usb_audio_set_input_altset; destruct (debug _ =? 0); inv_finish.
Qed.

Lemma device_inv_set_vol_diag (s : USBAudioState) :
  device_inv s -> device_inv (set_vol_diag s).
Proof.
  intros H. unfold set_vol_diag. destruct (debug s =? 0); [ exact H | ].
  apply device_inv_fprintf, H.
Qed.

Lemma set_control_inv (s : USBAudioState) (attrib cscn idif length : Z)
    (data : bytes) :
  device_inv s ->
  device_inv (snd (usb_audio_set_control s attrib cscn idif length data)).
Proof.
  intros H. unfold usb_audio_set_control.
  set (v := u8 (if 255 <? _ then 255 else _)).
  assert (Hv : 0 <= v <= 255) by (pose proof (u8_range
            (if 255 <? u16 (Z.quot (u16 (u16 (data 0 + Z.shiftl (data 1) 8) - 0x8000) * 255 + 0x4400) 0x8800)
             then 255
             else u16 (Z.quot (u16 (u16 (data 0 + Z.shiftl (data 1) 8) - 0x8000) * 255 + 0x4400) 0x8800)));
            fold v in H0; lia).
  clearbody v.
  assert (Hs1 : device_inv (if debug s =? 0 then s
                            else fprintf s (DiagVol (u16 (data 0 + Z.shiftl (data 1) 8))))).
  { destruct (debug s =? 0); [ exact H | apply device_inv_fprintf, H ]. }
  set (s1 := if debug s =? 0 then s else fprintf s _) in *. clearbody s1.
  split_tests; cbn [snd]; try exact H; apply device_inv_set_vol_diag.
  - inv_parts H. inv_finish.
  - inv_parts Hs1. destruct (u8 (cscn - 1) =? 0) eqn:E;
      unfold vol_set; rewrite ?E; inv_finish.
  - inv_parts H. inv_finish.
  - inv_parts Hs1. inv_finish.
Qed.

Lemma sb_inv_set_data (buf : streambuf) (m : list Z) :
  sb_inv buf -> sb_inv (set_prod buf m (sb_prod buf)).
Proof. unfold sb_inv. cbn. trivial. Qed.

Lemma dataout_inv (s s' : USBAudioState) (p p' : USBPacket) :
  device_inv s -> usb_audio_handle_dataout s p = Done (s', p') ->
  device_inv s'.
Proof.
  intros H. unfold usb_audio_handle_dataout.
  destruct (Z.eqb_spec (out_altset (out s)) ALTSET_OFF) as [ Hoff | Hon ].
  - intros E. injection E as <- _. exact H.
  - unfold bind.
    destruct (streambuf_put (out_buf (out s)) p) as [ [[k b] q] | ] eqn:Hput;
      [ | discriminate ].
    assert (Hb : sb_inv b).
    { apply (sb_step_inv (out_buf (out s)) b (OpPut p)); [ exact I | apply H | ].
      cbn [sb_step]. rewrite Hput. reflexivity. }
    assert (H1 : device_inv (with_out_buf s b))
      by (apply device_inv_with_out_buf; [ exact H | exact Hb | contradiction ]).
    fold (with_out_buf s b).
    destruct (_ && _); intros E; injection E as <- _;
      [ apply device_inv_fprintf | ]; exact H1.
Qed.

Lemma datain_inv (s s' : USBAudioState) (p p' : USBPacket) :
  device_inv s -> usb_audio_handle_datain s p = Done (s', p') ->
  device_inv s'.
Proof.
  intros H. unfold usb_audio_handle_datain.
  destruct (Z.eqb_spec (in_altset (inp s)) ALTSET_OFF) as [ Hoff | Hon ].
  - intros E. injection E as <- _. exact H.
  - unfold bind.
    set (n := Z.min USBAUDIO_PACKET_SIZE (len (iov p))).
    assert (Hn : 0 <= n < 2 ^ 64).
    { unfold n, len, USBAUDIO_PACKET_SIZE.
      change (2 ^ 64) with 18446744073709551616. lia. }
    destruct (streambuf_get (in_buf (inp s)) n) as [ [r b] | ] eqn:Hget;
      [ | discriminate ].
    assert (Hb : sb_inv b).
    { apply (sb_step_inv (in_buf (inp s)) b (OpGet n)); [ exact Hn | apply H | ].
      cbn [sb_step]. rewrite Hget. reflexivity. }
    assert (H1 : device_inv (with_in_buf s b))
      by (apply device_inv_with_in_buf; assumption).
    fold (with_in_buf s b).
    destruct r as [ off | ].
    + destruct (usb_packet_copy p (sb_data b) off n) as [ [q m] | ];
        [ | discriminate ].
      assert (H2 : device_inv (with_in_buf (with_in_buf s b)
                                 (set_prod b m (sb_prod b)))).
      { apply device_inv_with_in_buf; [ exact H1 | ].
        apply sb_inv_set_data, Hb. }
      destruct (_ && _); intros E; injection E as <- _;
        [ apply device_inv_fprintf | ]; exact H2.
    + intros E. injection E as <- _. exact H1.
Qed.

Lemma output_loop_inv (fuel : nat) :
  forall (s s' : USBAudioState) (avail : Z) (played played' : list (list Z)),
    device_inv s -> output_loop fuel s avail played = Done (s', played') ->
    device_inv s'.
Proof.
  induction fuel as [ | fuel IH ]; intros s s' avail played played' H.
  - intros E. injection E as <- _. exact H.
  - cbn [output_loop].
    destruct (avail <? USBAUDIO_PACKET_SIZE);
      [ intros E; injection E as <- _; exact H | ].
    unfold bind.
    destruct (streambuf_get (out_buf (out s)) USBAUDIO_PACKET_SIZE)
      as [ [r b] | ] eqn:Hget; [ | discriminate ].
    assert (Hb : sb_inv b).
    { apply (sb_step_inv (out_buf (out s)) b (OpGet USBAUDIO_PACKET_SIZE));
        [ | apply H | cbn [sb_step]; rewrite Hget; reflexivity ].
      unfold op_typed, USBAUDIO_PACKET_SIZE.
      change (2 ^ 64) with 18446744073709551616. lia. }
    assert (H1 : device_inv (with_out_buf s b)).
    { apply device_inv_with_out_buf; [ exact H | exact Hb | ].
      intros Hoff.
      destruct (streambuf_get_done _ _ _ _ Hget)
        as [ (_ & ->) | (Hne & _) ]; [ apply H, Hoff | ].
      exfalso. apply Hne. apply H, Hoff. }
    fold (with_out_buf s b).
    destruct r as [ off | ]; [ | intros E; injection E as <- _; exact H1 ].
    destruct (mem_read (sb_data b) off USBAUDIO_PACKET_SIZE);
      [ | discriminate ].
    apply IH. exact H1.
Qed.

Lemma input_loop_inv (fuel : nat) :
  forall (s s' : USBAudioState) (avail : Z) (src src' : list (list Z)),
    device_inv s -> input_loop fuel s avail src = Done (s', src') ->
    device_inv s'.
Proof.
  induction fuel as [ | fuel IH ]; intros s s' avail src src' H.
  - intros E. injection E as <- _. exact H.
  - cbn [input_loop].
    destruct (negb (USBAUDIO_PACKET_SIZE <? avail));
      [ intros E; injection E as <- _; exact H | ].
    unfold bind.
    destruct (streambuf_alloc (in_buf (inp s)) USBAUDIO_PACKET_SIZE)
      as [ [r b] | ] eqn:Hal; [ | discriminate ].
    assert (Hb : sb_inv b).
    { apply (sb_step_inv (in_buf (inp s)) b (OpAlloc USBAUDIO_PACKET_SIZE));
        [ | apply H | cbn [sb_step]; rewrite Hal; reflexivity ].
      unfold op_typed, USBAUDIO_PACKET_SIZE.
      change (2 ^ 31) with 2147483648. lia. }
    destruct r as [ off | ].
    + destruct (AUD_read src (sb_data b) off USBAUDIO_PACKET_SIZE)
        as [ [m rest] | ]; [ | discriminate ].
      apply IH. apply device_inv_with_in_buf; [ exact H | ].
      apply sb_inv_set_data, Hb.
    + intros E. injection E as <- _.
      apply device_inv_with_in_buf; assumption.
Qed.

Lemma reset_inv (s : USBAudioState) :
  device_inv s -> device_inv (usb_audio_handle_reset s).
Proof.
  intros H. unfold usb_audio_handle_reset.
  apply set_input_altset_inv, set_output_altset_inv.
  destruct (debug s =? 0); [ exact H | apply device_inv_fprintf, H ].
Qed.

Lemma set_interface_inv (s : USBAudioState) (iface old value : Z) :
  device_inv s -> device_inv (usb_audio_set_interface s iface old value).
Proof.
  intros H. unfold usb_audio_set_interface.
  destruct (iface =? 1); [ apply set_output_altset_inv, H | ].
  destruct (iface =? 2); [ apply set_input_altset_inv, H | exact H ].
Qed.

Lemma push_volume_inv (s : USBAudioState) :
  device_inv s -> device_inv (push_volume_out s) /\ device_inv (push_volume_in s).
Proof.
  intros H. split; inv_parts H; inv_finish.
Qed.

Lemma post_load_inv (s : USBAudioState) (v : Z) :
  device_inv s -> device_inv (snd (usb_audio_post_load s v)).
Proof.
  intros H. unfold usb_audio_post_load. cbn [snd].
  apply set_input_altset_inv, push_volume_inv,
    set_output_altset_inv, push_volume_inv, H.
Qed.

Lemma realize_inv (s : USBAudioState) :
  0 <= buffer s < 2 ^ 32 -> device_inv (usb_audio_realize s).
Proof.
  intros Hb.
  pose proof (streambuf_init_inv (out_buf (out s)) (buffer s) Hb) as H1.
  assert (H2 : sb_inv (streambuf_init (in_buf (inp s)) (64 * USBAUDIO_PACKET_SIZE)))
    by (apply streambuf_init_inv; vm_compute; split; [ discriminate | reflexivity ]).
  unfold device_inv, usb_audio_realize. cbn.
  repeat match goal with |- _ /\ _ => split end; auto; try lia;
    try reflexivity.
Qed.

Lemma device_inv_halves (s : USBAudioState) :
  device_inv s
  <-> out_inv (out s) /\ in_inv (inp s) /\ 0 <= buffer s < 2 ^ 32.
Proof. unfold device_inv, out_inv, in_inv. tauto. Qed.

(** A playback transition to OFF or ON sets up the playback half from a
    voice that holds the unit's mute flag and volumes. *)
Lemma set_output_altset_out_inv (s : USBAudioState) (a : Z) :
  a = ALTSET_OFF \/ a = ALTSET_ON ->
  0 <= buffer s < 2 ^ 32 ->
  out_voice (out s)
  = AUD_set_volume (out_voice (out s)) (out_mute (out s))
      (vol_at (out_vol (out s)) 0) (vol_at (out_vol (out s)) 1) ->
  0 <= vol_at (out_vol (out s)) 0 <= 255 ->
  0 <= vol_at (out_vol (out s)) 1 <= 255 ->
  sb_inv (out_buf (out s)) ->
  out_inv (out (snd (usb_audio_set_output_altset s a))).
Proof.
  intros Ha Hb Hv H0 H1 Hs.
  pose proof (streambuf_init_inv (out_buf (out s)) (buffer s) Hb) as Hi.
  unfold out_inv.
  destruct Ha as [ -> | -> ];
    unfold usb_audio_set_output_altset; destruct (debug _ =? 0); inv_finish.
Qed.

Lemma set_input_altset_in_inv (s : USBAudioState) (a : Z) :
  a = ALTSET_OFF \/ a = ALTSET_ON ->
  0 <= buffer s < 2 ^ 32 ->
  in_voice (inp s)
  = AUD_set_volume (in_voice (inp s)) (in_mute (inp s))
      (in_vol (inp s)) (in_vol (inp s)) ->
  0 <= in_vol (inp s) <= 255 ->
  sb_inv (in_buf (inp s)) ->
  in_inv (inp (snd (usb_audio_set_input_altset s a))).
Proof.
  intros Ha Hb Hv H0 Hs.
  pose proof (streambuf_init_inv (in_buf (inp s)) (buffer s) Hb) as Hi.
  unfold in_inv.
  destruct Ha as [ -> | -> ];
    unfold usb_audio_set_input_altset; destruct (debug _ =? 0); inv_finish.
Qed.

(** A transition leaves the other direction and the [buffer] property
    alone. *)
Lemma set_output_altset_frame (s : USBAudioState) (a : Z) :
  inp (snd (usb_audio_set_output_altset s a)) = inp s
  /\ buffer (snd (usb_audio_set_output_altset s a)) = buffer s.
Proof.
  destruct a as [ | [ q | q | ] | q ];
    unfold usb_audio_set_output_altset; cbn [snd]; try (split; reflexivity);
    destruct (debug _ =? 0); split; reflexivity.
Qed.

Lemma set_input_altset_frame (s : USBAudioState) (a : Z) :
  out (snd (usb_audio_set_input_altset s a)) = out s
  /\ buffer (snd (usb_audio_set_input_altset s a)) = buffer s.
Proof.
  destruct a as [ | [ q | q | ] | q ];
    unfold usb_audio_set_input_altset; cbn [snd]; try (split; reflexivity);
    destruct (debug _ =? 0); split; reflexivity.
Qed.

(** A restore of a valid snapshot: the loaded fields need not agree with
    the voices, the hook makes them agree. *)
Lemma restore_inv (s : USBAudioState) (f : snapshot) (v : Z) :
  device_inv s -> snapshot_valid f ->
  device_inv (snd (usb_audio_post_load (vmstate_load s f) v)).
Proof.
  intros H (Ho & Hi).
  apply device_inv_halves in H. destruct H as (Hout & Hin & Hb).
  assert (Ho' : u32 (snap_out_altset f) = ALTSET_OFF
                \/ u32 (snap_out_altset f) = ALTSET_ON)
    by (destruct Ho as [ -> | -> ]; [ left | right ]; reflexivity).
  assert (Hi' : u32 (snap_in_altset f) = ALTSET_OFF
                \/ u32 (snap_in_altset f) = ALTSET_ON)
    by (destruct Hi as [ -> | -> ]; [ left | right ]; reflexivity).
  pose proof (u8_range (snap_out_vol0 f)) as R0.
  pose proof (u8_range (snap_out_vol1 f)) as R1.
  pose proof (u8_range (snap_in_vol f)) as R2.
  unfold usb_audio_post_load. cbn [snd].
  set (s1 := push_volume_out (vmstate_load s f)).
  set (s2 := snd (usb_audio_set_output_altset s1 (out_altset (out s1)))).
  set (s3 := push_volume_in s2).
  apply device_inv_halves.
  destruct (set_output_altset_frame s1 (out_altset (out s1))) as (F1 & F2).
  destruct (set_input_altset_frame s3 (in_altset (inp s3))) as (G1 & G2).
  fold s2 in F1, F2.
  assert (Hs2 : out_inv (out s2)).
  { apply set_output_altset_out_inv.
    - exact Ho'.
    - exact Hb.
    - reflexivity.
    - cbn. lia.
    - cbn. lia.
    - apply Hout. }
  split; [ rewrite G1; exact Hs2 | ].
  split; [ | rewrite G2; change (buffer s3) with (buffer s2); rewrite F2;
             exact Hb ].
  apply set_input_altset_in_inv.
  - change (in_altset (inp s3)) with (in_altset (inp s2)). rewrite F1.
    exact Hi'.
  - change (buffer s3) with (buffer s2). rewrite F2. exact Hb.
  - reflexivity.
  - change (in_vol (inp s3)) with (in_vol (inp s2)). rewrite F1. cbn. lia.
  - change (in_buf (inp s3)) with (in_buf (inp s2)). rewrite F1. apply Hin.
Qed.

Lemma Done_inj (A : Type) (a b : A) : Done a = Done b -> a = b.
Proof. intros E. injection E as E. exact E. Qed.

Lemma handle_inv (s s' : USBAudioState) (e : event) :
  device_inv s -> event_valid e -> handle s e = Done s' -> device_inv s'.
Proof.
  intros H Hv.
  destruct e as [ | iface old value | attrib cscn idif length data | p | p
                | avail | avail src | f v ]; cbn [handle]; unfold bind.
  - intros E. injection E as <-. apply reset_inv, H.
  - intros E. injection E as <-. apply set_interface_inv, H.
  - intros E. injection E as <-. apply set_control_inv, H.
  - destruct (usb_audio_handle_dataout s p) as [ [s1 p1] | ] eqn:E1;
      [ | discriminate ].
    intros E. injection E as <-. exact (dataout_inv _ _ _ _ H E1).
  - destruct (usb_audio_handle_datain s p) as [ [s1 p1] | ] eqn:E1;
      [ | discriminate ].
    intros E. injection E as <-. exact (datain_inv _ _ _ _ H E1).
  - destruct (output_callback s avail) as [ [s1 pl] | ] eqn:E1;
      [ | discriminate ].
    intros E. injection E as <-. exact (output_loop_inv _ _ _ _ _ _ H E1).
  - destruct (input_callback s avail src) as [ [s1 rest] | ] eqn:E1;
      [ | discriminate ].
    intros E. injection E as <-. exact (input_loop_inv _ _ _ _ _ _ H E1).
  - intros E. apply Done_inj in E. rewrite <- E.
    exact (restore_inv s f v H Hv).
Qed.

(** The hypothesis on the snapshots is needed: restoring an alt-setting of
    2 leaves it in place. *)
Lemma restore_of_stray_altset :
  ~ snapshot_valid stray_snapshot
  /\ out_altset (out (snd (usb_audio_post_load
                             (vmstate_load started stray_snapshot) 1))) = 2.
Proof.
  split; [ | vm_compute; reflexivity ].
  intros ([ H | H ] & _); vm_compute in H; discriminate H.
Qed.

(** X15.  For a device object whose [buffer] property is a 32-bit
    value, from construction on, whatever resets, set-interface calls, SET
    requests, data transfers, demand callbacks and restores arrive and
    return, provided every restore loads a snapshot whose two alt-settings
    are OFF or ON: each alt-setting is OFF or ON and its voice is active
    exactly when it is ON; each voice holds the mute flag and the volumes
    of its unit; the volumes fit a byte; neither buffer holds more than its
    size; and the playback buffer is empty whenever playback is OFF.  A
    restore is the loading of the saved alt-setting, mute flag and volumes
    of both directions followed by usb_audio_post_load. *)
Theorem device_invariant (s0 s : USBAudioState) (es : list event) :
  0 <= buffer s0 < 2 ^ 32 ->
  Forall event_valid es ->
  handle_all es (usb_audio_realize s0) = Done s ->
  device_inv s.
Proof.
  intros Hb Hes. pose proof (realize_inv s0 Hb) as H. revert H.
  generalize (usb_audio_realize s0). clear s0 Hb.
  induction Hes as [ | e es He Hes IH ]; intros s1 H.
  - intros E. injection E as <-. exact H.
  - cbn [handle_all]. unfold bind.
    destruct (handle s1 e) as [ s2 | ] eqn:E2; [ | discriminate ].
    apply IH. exact (handle_inv _ _ _ H He E2).
Qed.

Lemma device_invariant_witness :
  0 <= buffer zeroed < 2 ^ 32
  /\ Forall event_valid short_life
  /\ exists s : USBAudioState,
       handle_all short_life (usb_audio_realize zeroed) = Done s
       /\ device_inv s.
Proof.
  assert (Hb : 0 <= buffer zeroed < 2 ^ 32)
    by (vm_compute; split; [ discriminate | reflexivity ]).
  assert (Hes : Forall event_valid short_life).
  { unfold short_life.
    repeat (constructor; [ first [ exact I | split; [ left | left ]; reflexivity
                                 | split; [ right | left ]; reflexivity ] | ]).
    constructor. }
  split; [ exact Hb | split; [ exact Hes | ] ].
  destruct (handle_all short_life (usb_audio_realize zeroed)) as [ s | f ] eqn:E.
  - exists s. split; [ reflexivity | ].
    exact (device_invariant zeroed s short_life Hb Hes E).
  - vm_compute in E. discriminate E.
Defined.

(** What a playback transition touches. *)
Lemma set_output_altset_fields (s : USBAudioState) (a : Z) :
  let s' := snd (usb_audio_set_output_altset s a) in
  inp s' = inp s
  /\ out_mute (out s') = out_mute (out s)
  /\ out_vol (out s') = out_vol (out s)
  /\ AUD_set_active (out_voice (out s')) true
     = AUD_set_active (out_voice (out s)) true
  /\ buffer s' = buffer s
  /\ debug s' = debug s
  /\ (debug s = 0 -> stderr s' = stderr s)
  /\ (a = ALTSET_OFF ->
      out_altset (out s') = ALTSET_OFF
      /\ voice_active (out_voice (out s')) = false
      /\ out_buf (out s') = streambuf_init (out_buf (out s)) (buffer s))
  /\ (a = ALTSET_ON ->
      out_altset (out s') = ALTSET_ON
      /\ voice_active (out_voice (out s')) = true
      /\ out_buf (out s') = out_buf (out s))
  /\ (a <> ALTSET_OFF -> a <> ALTSET_ON -> s' = s).
Proof.
  cbv zeta. unfold ALTSET_OFF, ALTSET_ON.
  destruct a as [ | [ q | q | ] | q ];
    unfold usb_audio_set_output_altset; cbn;
    try destruct (Z.eqb_spec (debug s) 0); cbn;
    repeat match goal with |- _ /\ _ => split end;
    try reflexivity; intros; try discriminate; try contradiction; auto.
Qed.

(** What a capture transition touches. *)
Lemma set_input_altset_fields (s : USBAudioState) (a : Z) :
  let s' := snd (usb_audio_set_input_altset s a) in
  out s' = out s
  /\ in_mute (inp s') = in_mute (inp s)
  /\ in_vol (inp s') = in_vol (inp s)
  /\ AUD_set_active (in_voice (inp s')) true
     = AUD_set_active (in_voice (inp s)) true
  /\ buffer s' = buffer s
  /\ debug s' = debug s
  /\ (debug s = 0 -> stderr s' = stderr s)
  /\ (a = ALTSET_OFF ->
      in_altset (inp s') = ALTSET_OFF
      /\ voice_active (in_voice (inp s')) = false
      /\ in_buf (inp s') = streambuf_init (in_buf (inp s)) (buffer s))
  /\ (a = ALTSET_ON ->
      in_altset (inp s') = ALTSET_ON
      /\ voice_active (in_voice (inp s')) = true
      /\ in_buf (inp s') = in_buf (inp s))
  /\ (a <> ALTSET_OFF -> a <> ALTSET_ON -> s' = s).
Proof.
  cbv zeta. unfold ALTSET_OFF, ALTSET_ON.
  destruct a as [ | [ q | q | ] | q ];
    unfold usb_audio_set_input_altset; cbn;
    try destruct (Z.eqb_spec (debug s) 0); cbn;
    repeat match goal with |- _ /\ _ => split end;
    try reflexivity; intros; try discriminate; try contradiction; auto.
Qed.

(** X16.  A bus reset, from any state: both alt-settings are OFF, both
    voices inactive, both buffers empty with the size
    [buffer - buffer mod 192] and both cursors at 0; the mute flags, the
    volumes and the volume settings of the voices are what they were: a
    reset stops streaming and discards buffered audio, it does not reset
    mute or volume. *)
Theorem reset_stops_streams_keeps_volume (s : USBAudioState) :
  let s' := usb_audio_handle_reset s in
  (out_altset (out s') = ALTSET_OFF /\ in_altset (inp s') = ALTSET_OFF)
  /\ (voice_active (out_voice (out s')) = false
      /\ voice_active (in_voice (inp s')) = false)
  /\ (out_buf (out s') = streambuf_init (out_buf (out s)) (buffer s)
      /\ in_buf (inp s') = streambuf_init (in_buf (inp s)) (buffer s))
  /\ (sb_used (out_buf (out s')) = 0 /\ sb_used (in_buf (inp s')) = 0
      /\ sb_size (out_buf (out s')) = buffer s - buffer s mod USBAUDIO_PACKET_SIZE
      /\ sb_size (in_buf (inp s')) = buffer s - buffer s mod USBAUDIO_PACKET_SIZE)
  /\ (out_mute (out s') = out_mute (out s) /\ out_vol (out s') = out_vol (out s)
      /\ in_mute (inp s') = in_mute (inp s) /\ in_vol (inp s') = in_vol (inp s))
  /\ (AUD_set_active (out_voice (out s')) true
      = AUD_set_active (out_voice (out s)) true
      /\ AUD_set_active (in_voice (inp s')) true
         = AUD_set_active (in_voice (inp s)) true)
  /\ (debug s = 0 -> stderr s' = stderr s).
Proof.
  intros s'. unfold s', usb_audio_handle_reset.
  set (s1 := if debug s =? 0 then s else fprintf s DiagReset).
  assert (E1 : out s1 = out s /\ inp s1 = inp s /\ buffer s1 = buffer s
               /\ debug s1 = debug s /\ (debug s = 0 -> stderr s1 = stderr s)).
  { unfold s1. destruct (Z.eqb_spec (debug s) 0); cbn;
      repeat split; trivial; contradiction. }
  destruct E1 as (E1o & E1i & E1b & E1d & E1s).
  set (s2 := snd (usb_audio_set_output_altset s1 ALTSET_OFF)).
  destruct (set_output_altset_fields s1 ALTSET_OFF)
    as (Oi & Om & Ov & Ovc & Ob & Od & Os & Ooff & _).
  destruct (set_input_altset_fields s2 ALTSET_OFF)
    as (Io & Im & Iv & Ivc & Ib & Id & Is & Ioff & _).
  fold s2 in Oi, Om, Ov, Ovc, Ob, Od, Os, Ooff, Io, Im, Iv, Ivc, Ib, Id, Is, Ioff.
  destruct (Ooff eq_refl) as (O1 & O2 & O3).
  destruct (Ioff eq_refl) as (I1 & I2 & I3).
  rewrite Io, O1, O2, O3, I1, I2, I3, Om, Ov, Im, Iv, Ivc, Ovc, Ob, Oi,
    E1o, E1i, E1b.
  repeat match goal with |- _ /\ _ => split end; try reflexivity.
  intros Hz.
  rewrite Is by (rewrite Od, E1d; exact Hz).
  rewrite Os by (rewrite E1d; exact Hz).
  apply E1s, Hz.
Qed.

(** X17.  The restore hook, on whatever values the fields were restored
    to: it returns 0 and hands mute and volumes to both voices.  For a
    restored alt-setting of OFF or ON it keeps that alt-setting and makes
    the voice active exactly when it is ON, re-creating the buffer empty
    when it is OFF and leaving the buffer alone when it is ON; a restored
    alt-setting that is neither is kept as it is and the voice's activation
    is not touched.  Mute flags and volumes are never changed. *)
Theorem post_load_resynchronises (s : USBAudioState) (version_id : Z) :
  let r := usb_audio_post_load s version_id in
  let s' := snd r in
  fst r = 0
  /\ (out_mute (out s') = out_mute (out s) /\ out_vol (out s') = out_vol (out s)
      /\ in_mute (inp s') = in_mute (inp s) /\ in_vol (inp s') = in_vol (inp s)
      /\ out_altset (out s') = out_altset (out s)
      /\ in_altset (inp s') = in_altset (inp s))
  /\ (voice_mute (out_voice (out s')) = out_mute (out s)
      /\ voice_lvol (out_voice (out s')) = vol_at (out_vol (out s)) 0
      /\ voice_rvol (out_voice (out s')) = vol_at (out_vol (out s)) 1
      /\ voice_mute (in_voice (inp s')) = in_mute (inp s)
      /\ voice_lvol (in_voice (inp s')) = in_vol (inp s)
      /\ voice_rvol (in_voice (inp s')) = in_vol (inp s))
  /\ (out_altset (out s) = ALTSET_OFF ->
      voice_active (out_voice (out s')) = false
      /\ out_buf (out s') = streambuf_init (out_buf (out s)) (buffer s))
  /\ (out_altset (out s) = ALTSET_ON ->
      voice_active (out_voice (out s')) = true
      /\ out_buf (out s') = out_buf (out s))
  /\ (out_altset (out s) <> ALTSET_OFF -> out_altset (out s) <> ALTSET_ON ->
      voice_active (out_voice (out s')) = voice_active (out_voice (out s))
      /\ out_buf (out s') = out_buf (out s))
  /\ (in_altset (inp s) = ALTSET_OFF ->
      voice_active (in_voice (inp s')) = false
      /\ in_buf (inp s') = streambuf_init (in_buf (inp s)) (buffer s))
  /\ (in_altset (inp s) = ALTSET_ON ->
      voice_active (in_voice (inp s')) = true
      /\ in_buf (inp s') = in_buf (inp s))
  /\ (in_altset (inp s) <> ALTSET_OFF -> in_altset (inp s) <> ALTSET_ON ->
      voice_active (in_voice (inp s')) = voice_active (in_voice (inp s))
      /\ in_buf (inp s') = in_buf (inp s)).
Proof.
  intros r s'. unfold s', r, usb_audio_post_load. cbn [fst snd].
  set (s1 := push_volume_out s).
  set (s2 := snd (usb_audio_set_output_altset s1 (out_altset (out s1)))).
  set (s3 := push_volume_in s2).
  set (s4 := snd (usb_audio_set_input_altset s3 (in_altset (inp s3)))).
  destruct (set_output_altset_fields s1 (out_altset (out s1)))
    as (Oi & Om & Ov & Ovc & Ob & _ & _ & Ooff & Oon & Oelse).
  destruct (set_input_altset_fields s3 (in_altset (inp s3)))
    as (Io & Im & Iv & Ivc & Ib & _ & _ & Ioff & Ion & Ielse).
  fold s2 in Oi, Om, Ov, Ovc, Ob, Ooff, Oon, Oelse.
  fold s4 in Io, Im, Iv, Ivc, Ib, Ioff, Ion, Ielse.
  assert (E1 : out_altset (out s1) = out_altset (out s)) by reflexivity.
  assert (E3 : in_altset (inp s3) = in_altset (inp s2)) by reflexivity.
  assert (E3o : out s3 = out s2) by reflexivity.
  assert (E3b : buffer s3 = buffer s2) by reflexivity.
  assert (E3buf : in_buf (inp s3) = in_buf (inp s2)) by reflexivity.
  assert (Ea : in_altset (inp s3) = in_altset (inp s))
    by (rewrite E3, Oi; reflexivity).
  rewrite E1 in Ooff, Oon, Oelse. rewrite Ea in Ioff, Ion, Ielse.
  rewrite Io, E3o.
  assert (Hoa : out_altset (out s2) = out_altset (out s)).
  { destruct (Z.eq_dec (out_altset (out s)) ALTSET_OFF) as [ H0 | H0 ];
      [ rewrite (proj1 (Ooff H0)); auto | ].
    destruct (Z.eq_dec (out_altset (out s)) ALTSET_ON) as [ H1 | H1 ];
      [ rewrite (proj1 (Oon H1)); auto | ].
    rewrite (Oelse H0 H1). reflexivity. }
  assert (Hia : in_altset (inp s4) = in_altset (inp s)).
  { destruct (Z.eq_dec (in_altset (inp s)) ALTSET_OFF) as [ H0 | H0 ];
      [ rewrite (proj1 (Ioff H0)); auto | ].
    destruct (Z.eq_dec (in_altset (inp s)) ALTSET_ON) as [ H1 | H1 ];
      [ rewrite (proj1 (Ion H1)); auto | ].
    rewrite (Ielse H0 H1). exact Ea. }
  split; [ reflexivity | ].
  split.
  { rewrite Om, Ov, Im, Iv, Hoa, Hia. cbn. rewrite Oi. repeat split. }
  split.
  { pose proof (f_equal voice_mute Ovc) as V1.
    pose proof (f_equal voice_lvol Ovc) as V2.
    pose proof (f_equal voice_rvol Ovc) as V3.
    pose proof (f_equal voice_mute Ivc) as V4.
    pose proof (f_equal voice_lvol Ivc) as V5.
    pose proof (f_equal voice_rvol Ivc) as V6.
    cbn in V1, V2, V3, V4, V5, V6.
    rewrite V1, V2, V3, V4, V5, V6, Oi. repeat split. }
  assert (Hbuf : buffer s2 = buffer s) by (rewrite Ob; reflexivity).
  assert (Hib : in_buf (inp s2) = in_buf (inp s)) by (rewrite Oi; reflexivity).
  assert (Hiv : voice_active (in_voice (inp s3)) = voice_active (in_voice (inp s)))
    by (cbn; rewrite Oi; reflexivity).
  split; [ intros H0; destruct (Ooff H0) as (_ & A & B); split; assumption | ].
  split; [ intros H1; destruct (Oon H1) as (_ & A & B); split; assumption | ].
  split; [ intros H0 H1; rewrite (Oelse H0 H1); split; reflexivity | ].
  split; [ intros H0; destruct (Ioff H0) as (_ & A & B); split;
           [ exact A | rewrite B, E3buf, E3b, Hib, Hbuf; reflexivity ] | ].
  split; [ intros H1; destruct (Ion H1) as (_ & A & B); split;
           [ exact A | rewrite B, E3buf, Hib; reflexivity ] | ].
  intros H0 H1. rewrite (Ielse H0 H1). split; [ exact Hiv | ].
  rewrite E3buf, Hib. reflexivity.
Qed.
